(** * Tourli chatbot: query understanding and answer ranking

    A shallow embedding of [src/retrieval/retriever.py] and
    [src/retrieval/city_detector.py], with the properties of the engine
    stated and proved over it.

    Conventions.
    - A Python [str] is a list of Unicode code points ([N]).
    - Python floats that carry scores are exact rationals ([Q]); the
      coordinates and the distance computed from them are real numbers
      ([R]).  Rounding is not modelled.
    - A function that can let an exception escape returns an [outcome].
    - What the program takes from outside the repository is a class of
      operations: [Unicode] (the character database), [Numbers] (reading
      numbers from text), [Difflib], [Nltk], [Sklearn] and [Host] (weather
      service, random generator, number formatting, the formatter of facts
      about a foreign city, the patterns of the place extractor).  The
      theorems hold for all of them; module [Demo] gives instances that
      compute, and module [Examples] runs the engine on them. *)

From Stdlib Require Import List Bool Arith NArith ZArith Lia String Ascii Sorted.
From Stdlib Require Import QArith Qminmax Lqa.
From Stdlib Require Import Reals Lra.
Import ListNotations.

Close Scope R_scope.
Close Scope Q_scope.
Close Scope Z_scope.

(* ================================================================== *)
(** * Python strings *)
(* ================================================================== *)

Module Py.

#[local] Open Scope N_scope.

Definition char := N.
Definition str := list char.

Definition lit (s : string) : str :=
  List.map N_of_ascii (list_ascii_of_string s).

Fixpoint str_eqb (a b : str) : bool :=
  match a, b with
  | [], [] => true
  | x :: a', y :: b' => N.eqb x y && str_eqb a' b'
  | _, _ => false
  end.

Definition in_range (lo hi c : char) : bool := (N.leb lo c && N.leb c hi)%bool.

Definition is_az (c : char) : bool := in_range 97 122 c.
Definition is_AZ (c : char) : bool := in_range 65 90 c.
Definition is_digit (c : char) : bool := in_range 48 57 c.
Definition is_ascii (c : char) : bool := N.ltb c 128.

(** [str.isspace] on one code point; also what [\s] matches in a [str]
    pattern and what [str.strip()] removes. *)
Definition is_space (c : char) : bool :=
  (in_range 9 13 c || in_range 28 32 c || N.eqb c 133 || N.eqb c 160
   || N.eqb c 5760 || in_range 8192 8202 c || in_range 8232 8233 c
   || N.eqb c 8239 || N.eqb c 8287 || N.eqb c 12288)%bool.

Definition ascii_lower (c : char) : char :=
  if is_AZ c then c + 32 else c.

Definition ascii_upper (c : char) : char :=
  if is_az c then c - 32 else c.

Definition ascii_alnum (c : char) : bool := (is_az c || is_AZ c || is_digit c)%bool.

(** [s.lstrip()], [s.rstrip()], [s.strip()] *)
Fixpoint lstrip (s : str) : str :=
  match s with
  | [] => []
  | c :: r => if is_space c then lstrip r else s
  end.

Fixpoint rstrip (s : str) : str :=
  match s with
  | [] => []
  | c :: r =>
      match rstrip r with
      | [] => if is_space c then [] else [c]
      | r' => c :: r'
      end
  end.

Definition strip (s : str) : str := lstrip (rstrip s).

(** [s.split()]: the maximal runs of non-whitespace. *)
Fixpoint split_from (cur : str) (s : str) : list str :=
  match s with
  | [] => match cur with [] => [] | _ => [rev cur] end
  | c :: r =>
      if is_space c
      then match cur with [] => split_from [] r | _ => rev cur :: split_from [] r end
      else split_from (c :: cur) r
  end.

Definition split (s : str) : list str := split_from [] s.

(** [sep.join(parts)] *)
Fixpoint join (sep : str) (parts : list str) : str :=
  match parts with
  | [] => []
  | [p] => p
  | p :: rest => p ++ sep ++ join sep rest
  end.

(** [needle in hay] *)
Fixpoint starts_with (needle hay : str) : bool :=
  match needle, hay with
  | [], _ => true
  | x :: n', y :: h' => N.eqb x y && starts_with n' h'
  | _ :: _, [] => false
  end.

Fixpoint contains (needle hay : str) : bool :=
  starts_with needle hay ||
  match hay with
  | [] => false
  | _ :: h' => contains needle h'
  end.

(** [s.replace(old, new)] for a non-empty [old]: leftmost, non-overlapping. *)
Fixpoint replace_fuel (fuel : nat) (old new s : str) : str :=
  match fuel with
  | O => s
  | S fuel' =>
      match s with
      | [] => []
      | c :: r =>
          if starts_with old s
          then new ++ replace_fuel fuel' old new (skipn (List.length old) s)
          else c :: replace_fuel fuel' old new r
      end
  end.

Definition replace (old new s : str) : str :=
  replace_fuel (S (List.length s)) old new s.

End Py.

Import Py.

(* ================================================================== *)
(** * Unicode tables *)
(* ================================================================== *)

(** [str.lower], NFKD decomposition and the alphanumeric property come from
    the interpreter's Unicode database. *)
Class Unicode := {
  py_lower : str -> str;
  nfkd : str -> str;
  is_alnum : char -> bool
}.

(** What is used of them: lower-casing acts on ASCII text character by
    character, and ASCII text is its own decomposition. *)
Record UnicodeAscii (U : Unicode) : Prop := {
  py_lower_ascii :
    forall s, forallb is_ascii s = true -> py_lower s = List.map ascii_lower s;
  nfkd_ascii :
    forall s, forallb is_ascii s = true -> nfkd s = s
}.

(* ================================================================== *)
(** * Text normalizer ([retriever.py], [normalize_text]) *)
(* ================================================================== *)

Section Normalizer.

Context {U : Unicode}.

#[local] Open Scope N_scope.

(** [\w] in a [str] pattern *)
Definition is_word (c : char) : bool := (is_alnum c || N.eqb c 95)%bool.

(** [text.encode('ascii', 'ignore').decode('utf-8')] *)
Definition encode_ascii_ignore (s : str) : str := List.filter is_ascii s.

Definition starts_with_word (s : str) : bool :=
  match s with
  | [] => false
  | c :: _ => is_word c
  end.

(** [re.sub(r"'s\b", '', text)]: an apostrophe and an [s] are dropped when
    the [s] is not followed by a word character. *)
Fixpoint sub_possessive (s : str) : str :=
  match s with
  | [] => []
  | c :: t =>
      match t with
      | [] => [c]
      | c2 :: rest =>
          if (N.eqb c 39 && N.eqb c2 115 && negb (starts_with_word rest))%bool
          then sub_possessive rest
          else c :: sub_possessive t
      end
  end.

(** the characters [re.sub(r'[^a-z0-9\s]', '', text)] keeps *)
Definition keep_char (c : char) : bool := (is_az c || is_digit c || is_space c)%bool.

(** [re.sub(r'\s+', ' ', text)]; [in_ws] tells that the previous character
    was whitespace, so that a run yields one space. *)
Fixpoint collapse_from (in_ws : bool) (s : str) : str :=
  match s with
  | [] => []
  | c :: r =>
      if is_space c
      then (if in_ws then collapse_from true r else 32 :: collapse_from true r)
      else c :: collapse_from false r
  end.

Definition collapse_ws (s : str) : str := collapse_from false s.

Definition normalize_text (text : str) : str :=
  let text := py_lower text in
  let text := encode_ascii_ignore (nfkd text) in
  let text := sub_possessive text in
  let text := List.filter keep_char text in
  let text := strip (collapse_ws text) in
  text.

(** The shape of a normalized string: lower-case letters, digits and single
    spaces, none at either end. *)
Definition norm_char (c : char) : bool := (is_az c || is_digit c || N.eqb c 32)%bool.

Fixpoint spaced_ok (prev_ws : bool) (s : str) : bool :=
  match s with
  | [] => true
  | c :: r =>
      if is_space c
      then (negb prev_ws && N.eqb c 32 && spaced_ok true r)%bool
      else spaced_ok false r
  end.

Definition canonical (s : str) : Prop :=
  forallb norm_char s = true /\ spaced_ok false s = true /\ strip s = s.

End Normalizer.

(* ================================================================== *)
(** * Python containers and control *)
(* ================================================================== *)

(** A [dict] with [str] keys keeps its keys in insertion order, and
    assigning to a key that is present keeps the key's position. *)
Definition dict (V : Type) := list (str * V).

Fixpoint dict_get {V} (k : str) (d : dict V) : option V :=
  match d with
  | [] => None
  | (k', v) :: r => if str_eqb k k' then Some v else dict_get k r
  end.

Fixpoint dict_set {V} (k : str) (v : V) (d : dict V) : dict V :=
  match d with
  | [] => [(k, v)]
  | (k', v') :: r =>
      if str_eqb k k' then (k', v) :: r else (k', v') :: dict_set k v r
  end.

(** [x in l] for a list or a set of strings *)
Definition str_in (x : str) (l : list str) : bool := existsb (str_eqb x) l.

(** [s.add(x)] on a set kept as the list of its elements *)
Definition set_add (x : str) (s : list str) : list str :=
  if str_in x s then s else s ++ [x].

(** [sorted(l, key=key, reverse=True)]: the sort is stable, so elements with
    equal keys keep their order. *)
Section SortDesc.

Context {A K : Type} (key : A -> K) (ltb : K -> K -> bool).

Fixpoint insert_desc (x : A) (l : list A) : list A :=
  match l with
  | [] => [x]
  | y :: r => if ltb (key x) (key y) then y :: insert_desc x r else x :: l
  end.

Definition sorted_desc (l : list A) : list A := fold_right insert_desc [] l.

End SortDesc.

(** [l[:k]] *)
Definition slice_to {A} (k : Z) (l : list A) : list A :=
  if (0 <=? k)%Z then firstn (Z.to_nat k) l
  else firstn (List.length l - Z.to_nat (- k)) l.

(** A call either returns or lets an exception escape. *)
Inductive exn := OverflowError | ValueError.

Inductive outcome (A : Type) :=
| Returns (a : A)
| Raises (e : exn).
Arguments Returns {A} a.
Arguments Raises {A} e.

Definition bind {A B} (m : outcome A) (f : A -> outcome B) : outcome B :=
  match m with
  | Returns a => f a
  | Raises e => Raises e
  end.

Notation "x <- m ;; f" := (bind m (fun x => f))
  (at level 61, m at next level, right associativity).

(* ================================================================== *)
(** * Numbers read from text *)
(* ================================================================== *)

(** [int(float(s))]: the integer part of the number [s] denotes; [float]
    rejects text that is not a number and [int] rejects NaN (both
    [ValueError]) and infinities ([OverflowError]). *)
Inductive parsed_int :=
| IntValue (z : Z)
| IntValueError
| IntOverflowError.

Class Numbers := {
  py_int_float : str -> parsed_int;
  (** [float(s)], [None] for [ValueError]; coordinates are finite *)
  py_float : str -> option R
}.

(* ================================================================== *)
(** * City gazetteer ([city_detector.py]) *)
(* ================================================================== *)

(** One row of the cities file, and one value of [global_cities]: both are
    dictionaries with these ten keys. *)
Record CityData := {
  row_city : str;
  row_city_ascii : str;
  row_country : str;
  row_lat : str;
  row_lng : str;
  row_admin_name : str;
  row_capital : str;
  row_population : str;
  row_iso2 : str;
  row_iso3 : str
}.

Section Gazetteer.

Context {U : Unicode} {Nm : Numbers}.

(** [row.get('population', 0) or 0] passed to [int(float(_))] *)
Definition parse_population (s : str) : parsed_int :=
  match s with
  | [] => IntValue 0
  | _ => py_int_float s
  end.

(** [try: pop = int(float(..)) except (ValueError, TypeError): pop = 0] *)
Definition population_or_zero (s : str) : outcome Z :=
  match parse_population s with
  | IntValue z => Returns z
  | IntValueError => Returns 0%Z
  | IntOverflowError => Raises OverflowError
  end.

(** the dictionary stored for a row *)
Definition stored_record (row : CityData) : CityData :=
  {| row_city := strip (row_city row);
     row_city_ascii := row_city_ascii row;
     row_country := row_country row;
     row_lat := row_lat row;
     row_lng := row_lng row;
     row_admin_name := row_admin_name row;
     row_capital := row_capital row;
     row_population := row_population row;
     row_iso2 := row_iso2 row;
     row_iso3 := row_iso3 row |}.

(** [norm_name = city_name.lower().strip()] *)
Definition norm_name (row : CityData) : str := strip (py_lower (strip (row_city row))).

Record LoadState := {
  ld_cities : dict CityData;
  ld_countries : list str
}.

(** The body of the loop over the rows. *)
Definition load_row (st : LoadState) (row : CityData) : outcome LoadState :=
  let city_name := strip (row_city row) in
  let country_name := strip (row_country row) in
  let countries :=
    match country_name with
    | [] => ld_countries st
    | _ => set_add (strip (py_lower country_name)) (ld_countries st)
    end in
  match city_name with
  | [] => Returns {| ld_cities := ld_cities st; ld_countries := countries |}
  | _ =>
      pop <- population_or_zero (row_population row) ;;
      match dict_get (norm_name row) (ld_cities st) with
      | None =>
          Returns {| ld_cities := dict_set (norm_name row) (stored_record row) (ld_cities st);
                     ld_countries := countries |}
      | Some existing =>
          existing_pop <- population_or_zero (row_population existing) ;;
          if (existing_pop <? pop)%Z
          then Returns {| ld_cities := dict_set (norm_name row) (stored_record row) (ld_cities st);
                          ld_countries := countries |}
          else Returns {| ld_cities := ld_cities st; ld_countries := countries |}
      end
  end.

(** The loop: an exception leaves it with the dictionary built so far. *)
Fixpoint load_rows (st : LoadState) (rows : list CityData) : LoadState * option exn :=
  match rows with
  | [] => (st, None)
  | row :: rest =>
      match load_row st row with
      | Returns st' => load_rows st' rest
      | Raises e => (st, Some e)
      end
  end.

(** [_load_global_cities]: the dictionary returned, and the value of
    [self._extracted_countries] when the loop ran to its end.  The handler
    of the enclosing [try] swallows the exception, returns the cities read
    so far and leaves the attribute unset. *)
Definition _load_global_cities (rows : list CityData) : dict CityData * option (list str) :=
  match load_rows {| ld_cities := []; ld_countries := [] |} rows with
  | (st, None) => (ld_cities st, Some (ld_countries st))
  | (st, Some _) => (ld_cities st, None)
  end.

End Gazetteer.

(* ================================================================== *)
(** * Sequence similarity ([difflib]) *)
(* ================================================================== *)

(** [SequenceMatcher(None, a, b).ratio()] *)
Class Difflib := {
  ratio : str -> str -> Q
}.

(** The ratio is a share of matched characters. *)
Definition RatioBounded (D : Difflib) : Prop :=
  forall a b, (0 <= ratio a b /\ ratio a b <= 1)%Q.

Section CloseMatches.

Context {D : Difflib}.

(** [a < b] on strings: by code points, a proper prefix first *)
Fixpoint str_ltb (a b : str) : bool :=
  match a, b with
  | _, [] => false
  | [], _ :: _ => true
  | x :: a', y :: b' => (N.ltb x y || (N.eqb x y && str_ltb a' b'))%bool
  end.

(** [(s1, x1) < (s2, x2)] on the pairs [get_close_matches] ranks *)
Definition scored_ltb (p q : Q * str) : bool :=
  match Qcompare (fst p) (fst q) with
  | Lt => true
  | Eq => str_ltb (snd p) (snd q)
  | Gt => false
  end.

(** [max(result)]: the first of the greatest pairs *)
Fixpoint max_scored (best : option (Q * str)) (l : list (Q * str)) : option (Q * str) :=
  match l with
  | [] => best
  | p :: r =>
      match best with
      | None => max_scored (Some p) r
      | Some q => max_scored (if scored_ltb q p then Some p else best) r
      end
  end.

(** [get_close_matches(word, possibilities, n=1, cutoff=cutoff)], as a
    result of at most one string.  The two quick ratios the library tests
    first are upper bounds of [ratio] and do not change the outcome. *)
Definition get_close_matches (word : str) (possibilities : list str) (cutoff : Q)
  : option str :=
  let result :=
    List.map (fun x => (ratio x word, x))
      (List.filter (fun x => Qle_bool cutoff (ratio x word)) possibilities) in
  option_map snd (max_scored None result).

End CloseMatches.

(* ================================================================== *)
(** * City detection ([city_detector.py], [CityDetector]) *)
(* ================================================================== *)

(** The state [__init__] builds.  [moroccan_cities] and [countries] are
    Python sets, which fix no order of enumeration; they are kept here as
    lists in the order in which the program enumerates them.  The general
    properties below hold for every such order; [CityDetector_init] takes
    the order of declaration and of first occurrence in the file. *)
Record CityDetector := {
  moroccan_cities : list str;
  moroccan_city_misspellings : dict str;
  global_cities : dict CityData;
  countries : list str
}.

Definition the_moroccan_cities : list str :=
  List.map lit
    ["agadir"; "al hoceima"; "azrou"; "beni mellal"; "berkane";
     "casablanca"; "chefchaouen"; "dakhla"; "el jadida"; "errachidia";
     "essaouira"; "fes"; "guelmim"; "ifrane"; "kenitra";
     "khouribga"; "laayoune"; "larache"; "marrakech"; "martil";
     "meknes"; "mohammedia"; "nador"; "ouarzazate"; "oujda";
     "rabat"; "safi"; "sale"; "tangier"; "tetouan";
     "tiznit"; "taroudant"; "tata"; "tanger med"; "sidi ifni"]%string.

Definition the_misspellings : dict str :=
  List.map (fun p => (lit (fst p), lit (snd p)))
    [("casa", "casablanca"); ("cali", "casablanca"); ("mkech", "marrakech");
     ("marrakch", "marrakech"); ("marakech", "marrakech"); ("marakesh", "marrakech");
     ("fesss", "fes"); ("ksablanka", "casablanca"); ("casablanka", "casablanca");
     ("casablanca", "casablanca"); ("agdir", "agadir"); ("agad", "agadir");
     ("rabay", "rabat"); ("tangr", "tangier"); ("tanger", "tangier");
     ("tetouan", "tetouan"); ("meknes", "meknes")]%string.

Section Detector.

Context {U : Unicode} {Nm : Numbers} {D : Difflib}.

(** [CityDetector.__init__]: when the loader did not finish,
    [_extracted_countries] is missing and the country set is empty. *)
Definition CityDetector_init (rows : list CityData) : CityDetector :=
  let '(cities, extracted) := _load_global_cities rows in
  {| moroccan_cities := the_moroccan_cities;
     moroccan_city_misspellings := the_misspellings;
     global_cities := cities;
     countries := match extracted with Some s => s | None => [] end |}.

(** [CityDetector._normalize_text] *)
Definition _normalize_text (text : str) : str :=
  let text := strip (py_lower text) in
  let text := List.filter (fun c => is_word c || is_space c)%bool text in
  strip (collapse_ws text).

(** [\b] between two neighbouring positions; [None] is an end of the text *)
Definition is_word_at (c : option char) : bool :=
  match c with Some c => is_word c | None => false end.

Definition boundary (prev next : option char) : bool :=
  xorb (is_word_at prev) (is_word_at next).

Definition last_char (prev : option char) (s : str) : option char :=
  match s with
  | [] => prev
  | c :: r => Some (List.last r c)
  end.

(** [re.search(r'\b' + re.escape(pat) + r'\b', text)], as a truth value:
    [pat] occurs in [text] between two word boundaries.  [prev] is the
    character before [text]. *)
Fixpoint word_search_from (prev : option char) (pat text : str) : bool :=
  (starts_with pat text
   && boundary prev (hd_error text)
   && boundary (last_char prev pat) (hd_error (skipn (List.length pat) text)))
  || match text with
     | [] => false
     | c :: r => word_search_from (Some c) pat r
     end.

Definition word_search (pat text : str) : bool := word_search_from None pat text.

Definition first_some {A B} (f : A -> option B) : list A -> option B :=
  fix go l :=
    match l with
    | [] => None
    | x :: r => match f x with Some y => Some y | None => go r end
    end.

Definition detect_moroccan_city (det : CityDetector) (user_input : str) : option str :=
  let query := _normalize_text user_input in
  match first_some (fun kv : str * str =>
                      if word_search (fst kv) query then Some (snd kv) else None)
                   (moroccan_city_misspellings det) with
  | Some canonical => Some canonical
  | None =>
      match first_some (fun city => if word_search city query then Some city else None)
                       (moroccan_cities det) with
      | Some city => Some city
      | None =>
          first_some (fun word =>
                        if (4 <=? List.length word)%nat
                        then get_close_matches word (moroccan_cities det) (75 # 100)%Q
                        else None)
                     (split query)
      end
  end.

(** [int(float(s))] for a field of the file; the empty text is not a
    number. *)
Definition int_of_float_text (s : str) : parsed_int :=
  match s with
  | [] => IntValueError
  | _ => py_int_float s
  end.

(** [CityDetector._get_population] *)
Definition _get_population (city_data : CityData) : outcome Z :=
  match int_of_float_text (row_population city_data) with
  | IntValue z => Returns z
  | IntValueError => Returns 0%Z
  | IntOverflowError => Raises OverflowError
  end.

Fixpoint global_candidates (det : CityDetector) (words : list str)
  : outcome (list (CityData * Z)) :=
  match words with
  | [] => Returns []
  | word :: rest =>
      let word_clean := _normalize_text word in
      if (4 <=? List.length word_clean)%nat then
        match dict_get word_clean (global_cities det) with
        | Some city_data =>
            population <- _get_population city_data ;;
            more <- global_candidates det rest ;;
            Returns (if (50000 <=? population)%Z
                     then (city_data, population) :: more else more)
        | None => global_candidates det rest
        end
      else global_candidates det rest
  end.

Definition detect_global_city (det : CityDetector) (user_input : str)
  : outcome (option CityData) :=
  candidates <- global_candidates det (split user_input) ;;
  Returns (option_map fst (hd_error (sorted_desc snd Z.ltb candidates))).

Definition detect_city (det : CityDetector) (user_input : str)
  : outcome (option str * option CityData) :=
  match detect_moroccan_city det user_input with
  | Some (c :: m) => Returns (Some (c :: m), None)
  | _ =>
      global_city <- detect_global_city det user_input ;;
      Returns (None, global_city)
  end.

Definition is_morocco_mentioned (user_input : str) : bool :=
  word_search (lit "morocco") (py_lower user_input).

Definition detect_country (det : CityDetector) (user_input : str) : option str :=
  let query := _normalize_text user_input in
  let detected_countries := List.filter (fun country => word_search country query) (countries det) in
  match detected_countries with
  | [] => None
  | first :: _ =>
      match List.filter (fun c => negb (str_eqb (py_lower c) (lit "morocco"))) detected_countries with
      | c :: _ => Some c
      | [] => Some first
      end
  end.

End Detector.

(* ================================================================== *)
(** * Coordinate resolver and distance ([retriever.py]) *)
(* ================================================================== *)

(** [CITY_MATCH_THRESHOLD] *)
Definition CITY_MATCH_THRESHOLD : Q := (80 # 100)%Q.

(** The tuple [(name, lat, lng, country, score)]. *)
Record ResolvedPlace := {
  rp_name : str;
  rp_lat : R;
  rp_lng : R;
  rp_country : str;
  rp_score : Q
}.

(** [a or b] on strings *)
Definition str_or (a b : str) : str :=
  match a with
  | [] => b
  | _ => a
  end.

Definition nonempty (s : str) : bool :=
  match s with
  | [] => false
  | _ => true
  end.

Section Resolver.

Context {U : Unicode} {Nm : Numbers} {D : Difflib}.

(** [float(data.get('lat') or 0.0)], [None] when it raises [ValueError] *)
Definition parse_coordinate (s : str) : option R :=
  match s with
  | [] => Some 0%R
  | _ => py_float s
  end.

(** [int(float(v.get('population') or 0))] with every exception caught *)
Definition population_any (s : str) : Z :=
  match parse_population s with
  | IntValue z => z
  | _ => 0%Z
  end.

(** the local function [similarity] *)
Definition similarity (a b : str) : Q :=
  if (nonempty a && nonempty b)%bool then ratio a b else 0%Q.

Definition is_morocco (country : str) : bool :=
  str_eqb (py_lower (strip country)) (lit "morocco").

(** The candidate tuples [(norm_key, v, score, pop)]. *)
Definition Candidate : Type := str * CityData * Q * Z.

Definition cand_score (c : Candidate) : Q := snd (fst c).
Definition cand_pop (c : Candidate) : Z := snd c.

(** One turn of the loop over [gc.items()]: the candidate, if the entry
    reaches the threshold. *)
Definition candidate_of (query : str) (is_moroccan_query : bool) (dynamic_threshold : Q)
    (item : str * CityData) : option Candidate :=
  let '(norm_key, v) := item in
  let city_ascii_norm := normalize_text (str_or (row_city_ascii v) (row_city v)) in
  let pop := population_any (row_population v) in
  let sim1 := similarity query norm_key in
  let sim2 := similarity query city_ascii_norm in
  let score := Qmax sim1 sim2 in
  let score :=
    if (is_moroccan_query && is_morocco (row_country v))%bool
    then Qmin 1 (score + (15 # 100))%Q else score in
  if Qle_bool dynamic_threshold score then Some (norm_key, v, score, pop) else None.

Fixpoint filter_some {A B} (f : A -> option B) (l : list A) : list B :=
  match l with
  | [] => []
  | x :: r => match f x with Some y => y :: filter_some f r | None => filter_some f r end
  end.

(** the order of the sort key [(x[2], x[3])] *)
Definition key_ltb (a b : Q * Z) : bool :=
  match Qcompare (fst a) (fst b) with
  | Lt => true
  | Eq => (snd a <? snd b)%Z
  | Gt => false
  end.

(** the local function [pick_best] *)
Definition pick_best (pool : list Candidate) : option Candidate :=
  hd_error (sorted_desc (fun c => (cand_score c, cand_pop c)) key_ltb pool).

(** the tuple returned for a gazetteer entry *)
Definition resolved (city_name : str) (v : CityData) (score : Q) : option ResolvedPlace :=
  match parse_coordinate (row_lat v), parse_coordinate (row_lng v) with
  | Some lat, Some lng =>
      Some {| rp_name := str_or (row_city v) (str_or (row_city_ascii v) city_name);
              rp_lat := lat;
              rp_lng := lng;
              rp_country := row_country v;
              rp_score := score |}
  | _, _ => None
  end.

Definition find_city_coordinates (det : CityDetector) (city_name : str)
  : option ResolvedPlace :=
  if negb (nonempty city_name) then None else
  let query := normalize_text city_name in
  let gc := global_cities det in
  match dict_get query gc with
  | Some data => resolved city_name data 1%Q
  | None =>
      let is_moroccan_query :=
        match detect_moroccan_city det city_name with Some _ => true | None => false end in
      let dynamic_threshold :=
        if (List.length query <=? 5)%nat then (90 # 100)%Q else CITY_MATCH_THRESHOLD in
      let candidates :=
        filter_some (candidate_of query is_moroccan_query dynamic_threshold) gc in
      let major := List.filter (fun c => (50000 <=? cand_pop c)%Z) candidates in
      let minor := List.filter (fun c => (cand_pop c <? 50000)%Z) candidates in
      let chosen :=
        match pick_best major with
        | Some c => Some c
        | None => pick_best minor
        end in
      match chosen with
      | None => None
      | Some (_, v, top_score, _) => resolved city_name v top_score
      end
  end.

End Resolver.

(** ** Great-circle distance *)

Section Haversine.

#[local] Open Scope R_scope.

(** [math.radians] *)
Definition radians (x : R) : R := x * PI / 180.

(** [math.atan2] *)
Definition atan2 (y x : R) : R :=
  if Rlt_dec 0 x then atan (y / x)
  else if Rlt_dec x 0 then
    (if Rle_dec 0 y then atan (y / x) + PI else atan (y / x) - PI)
  else if Rlt_dec 0 y then PI / 2
  else if Rlt_dec y 0 then - (PI / 2)
  else 0.

Definition haversine_distance (lat1 lon1 lat2 lon2 : R) : R :=
  let R0 := 6371 in
  let rlat1 := radians lat1 in
  let rlon1 := radians lon1 in
  let rlat2 := radians lat2 in
  let rlon2 := radians lon2 in
  let dlat := rlat2 - rlat1 in
  let dlon := rlon2 - rlon1 in
  let a := (sin (dlat / 2)) ^ 2 + cos rlat1 * cos rlat2 * (sin (dlon / 2)) ^ 2 in
  let c := 2 * atan2 (sqrt a) (sqrt (1 - a)) in
  R0 * c.

End Haversine.

(** ** Reply to a distance request *)

(** What the program obtains from its host: the weather service, the random
    generator, the formatting of numbers and of titles, the formatter of
    facts about a foreign city, and the regular expressions of the place
    extractor. *)
Record Weather := {
  w_temperature : str;
  w_humidity : str;
  w_condition : str;
  w_wind : str
}.

Class Host := {
  (** the request [get_weather] sends for a city, [None] when it fails; the
      fields are the texts an f-string prints *)
  fetch_weather : str -> option Weather;
  (** [np.random.choice] over [n] items, as the index drawn *)
  random_choice : nat -> nat;
  (** [f"{dist:,.1f}"] *)
  format_km : R -> str;
  py_title : str -> str;
  py_upper : str -> str;
  py_capitalize : str -> str;
  (** [WorldCityResponseFormatter.format_world_city_response], the text
      about a city outside Morocco; no property here depends on it *)
  format_world_city_response : CityData -> str;
  (** the groups of [between\s+(.+?)\s+and\s+(.+)], else of
      [from\s+(.+?)\s+to\s+(.+)], searched in a text *)
  re_search_between_from : str -> option (str * str);
  (** [re.findall] of the token pattern (word characters, hyphens and
      accented Latin letters) *)
  re_findall_tokens : str -> list str;
  (** [re.sub(re.escape(name), '', text, flags=re.I)] *)
  re_sub_ignorecase : str -> str -> str;
  (** [re.split(r'between|and|to|from|,|;|\bvs\b', text, flags=re.I)] *)
  re_split_delimiters : str -> list str
}.

(** The branch [get_city_distance] ends in; [render] gives its text. *)
Inductive DistanceReply :=
| TwoNamesPlease
| NotIdentified
| DidYouMean (display : str)
| DistanceIs (outside_morocco : bool) (name_a name_b : str) (dist : R).

Section Distance.

Context {U : Unicode} {Nm : Numbers} {D : Difflib} {H : Host}.

(** [f"{name} ({country})" if country else name] *)
Definition display_of (name country : str) : str :=
  match country with
  | [] => name
  | _ => name ++ lit " (" ++ country ++ lit ")"
  end.

Definition render (r : DistanceReply) : str :=
  match r with
  | TwoNamesPlease => lit "Please provide two valid city names."
  | NotIdentified =>
      lit "I couldn't identify that city, can you rephrase or specify the country?"
  | DidYouMean display =>
      lit "I'm not sure which city you mean. Did you mean " ++ display ++ lit "?"
  | DistanceIs outside name_a name_b dist =>
      (if outside
       then lit "My main specialty is Morocco, but here is the information you requested: "
       else [])
      ++ lit "The distance between " ++ name_a ++ lit " and " ++ name_b
      ++ lit " is " ++ format_km dist ++ lit " km."
  end.

Definition in_morocco (det : CityDetector) (name country : str) : bool :=
  (str_eqb (py_lower (strip country)) (lit "morocco")
   || str_in (normalize_text name) (moroccan_cities det))%bool.

(** [get_city_distance], with the method [self.find_city_coordinates] it
    calls passed as [find].  The handler around the distance computation
    answers a failure of the floating-point functions, which real
    arithmetic does not have. *)
Definition distance_reply (det : CityDetector) (find : str -> option ResolvedPlace)
    (city_a city_b : str) : DistanceReply :=
  if (negb (nonempty city_a) || negb (nonempty city_b))%bool then TwoNamesPlease else
  match find city_a, find city_b with
  | None, _ => NotIdentified
  | _, None => NotIdentified
  | Some a, Some b =>
      if Qlt_le_dec (rp_score a) CITY_MATCH_THRESHOLD
      then DidYouMean (display_of (rp_name a) (rp_country a))
      else if Qlt_le_dec (rp_score b) CITY_MATCH_THRESHOLD
      then DidYouMean (display_of (rp_name b) (rp_country b))
      else
        let dist := haversine_distance (rp_lat a) (rp_lng a) (rp_lat b) (rp_lng b) in
        let is_a_morocco := in_morocco det (rp_name a) (rp_country a) in
        let is_b_morocco := in_morocco det (rp_name b) (rp_country b) in
        DistanceIs (negb (is_a_morocco && is_b_morocco)) (rp_name a) (rp_name b) dist
  end.

Definition get_city_distance_with (det : CityDetector) (find : str -> option ResolvedPlace)
    (city_a city_b : str) : str :=
  render (distance_reply det find city_a city_b).

Definition get_city_distance (det : CityDetector) (city_a city_b : str) : str :=
  get_city_distance_with det (find_city_coordinates det) city_a city_b.

End Distance.

(* ================================================================== *)
(** * Intent classifier ([Retriever._detect_intent]) *)
(* ================================================================== *)

(** [WordNetLemmatizer().lemmatize(word)] *)
Class Nltk := {
  lemmatize : str -> str
}.

(** [self.intent_keywords], in the order of the dictionary literal. *)
Definition intent_keywords : dict (list str) :=
  List.map (fun p => (lit (fst p), List.map lit (snd p)))
  [ ("greeting", ["hello"; "hi"; "hey"; "salam"; "greetings"; "yo"; "good morning"; "good evening"]);
    ("greeting_personal", ["how are you"; "how's it going"; "what's up"; "how have you been"]);
    ("farewell", ["bye"; "goodbye"; "see you"; "later"; "take care"]);
    ("small_talk", ["how's life"; "nice weather"; "what's new"; "how are things"]);
    ("joke_or_troll", ["joke"; "funny"; "make me laugh"; "prank"; "tagine swim"]);
    ("rude_or_aggressive", ["shut up"; "stupid"; "idiot"; "annoying"; "dumb"]);
    ("ask_beaches", ["beach"; "swim"; "sand"; "ocean"; "sea"; "sunbathe"; "coast"; "shore"; "swimming spot"]);
    ("ask_surfing", ["surf"; "surfing"; "waves"; "board"; "learn to surf"]);
    ("ask_waterfalls", ["waterfall"; "cascade"; "swimming spot"; "hike to waterfall"; "nature water"]);
    ("ask_food", ["food"; "eat"; "hungry"; "meal"; "snack"; "what to eat"; "fud"; "find food"; "eating"; "cuisine"]);
    ("ask_restaurants", ["restaurant"; "dining"; "place to eat"; "where to eat"; "cafe"; "seafood"; "beach restaurants"]);
    ("ask_local_dishes", ["local dish"; "bastilla"; "Moroccan food"; "specialty"]);
    ("ask_bars", ["bar"; "pub"; "alcohol"; "drink"; "cocktail"; "wine"; "beer"]);
    ("ask_clubs", ["club"; "nightclub"; "party"; "dance"; "DJ"; "disco"]);
    ("ask_nightlife", ["nightlife"; "party"; "evening fun"; "after dark"; "night entertainment"]);
    ("ask_hotels", ["hotel"; "stay"; "accommodation"; "lodging"; "inn"; "where to sleep"]);
    ("ask_riads", ["riad"; "guesthouse"; "traditional house"; "Moroccan stay"]);
    ("ask_cheap_hotels", ["cheap hotel"; "budget stay"; "hostel"; "low cost lodging"]);
    ("ask_landmarks", ["landmark"; "monument"; "must see"; "historic site"; "famous place"; "old medinas"; "medina"; "places to visit"]);
    ("ask_attractions", ["attraction"; "sight"; "tourist spot"]);
    ("ask_museums", ["museum"; "art gallery"; "history museum"; "exhibit"; "cultural site"]);
    ("ask_nature", ["nature"; "park"; "garden"; "natural site"; "green area"; "outdoors"; "mountains"; "explore"]);
    ("ask_parks", ["park"; "botanical garden"; "playground"; "open space"; "nature park"]);
    ("ask_hiking", ["hike"; "trek"; "trail"; "mountain walk"; "nature walk"; "adventure hike"]);
    ("ask_things_to_do", ["activities"; "fun things"; "things to do"; "what to do"; "cool"; "fun"; "something to do"; "what to see"; "famous to see"]);
    ("ask_activities", ["activity"; "experience"; "adventure"; "excursion"; "recreational activity"]);
    ("ask_family_activities", ["kids"; "child-friendly"; "family fun"; "children activity"]);
    ("ask_kid_friendly", ["kids"; "child-friendly"; "safe for children"; "family-friendly"]);
    ("ask_transport", ["transport"; "get around"; "travel"; "moving around"; "how to go"; "commute"]);
    ("ask_taxi", ["taxi"; "cab"; "ride"; "grab a taxi"; "hire transport"]);
    ("ask_public_transport", ["bus"; "train"; "metro"; "tram"; "public transport"; "local transport"]);
    ("ask_airport", ["airport"; "flight"; "departure"; "arrival"; "plane"]);
    ("ask_weather", ["weather"; "forecast"; "rain"; "sunny"; "temperature"; "climate"; "how warm"; "how cold"; "weather conditions"]);
    ("ask_distance", ["distance"; "how far"; "how far is"; "kilometers"; "kilometres"; "km"; "miles"; "how many km"; "distance between"; "how far from"]);
    ("ask_temperature", ["temperature"; "hot"; "cold"; "degrees"; "how warm"; "how cold"; "warm"; "degrees"]);
    ("ask_safe_areas", ["safe"; "security"; "dangerous areas"; "crime"; "unsafe place"]);
    ("ask_scams", ["scam"; "trick"; "fraud"; "cheat"; "avoid scams"]);
    ("ask_safety", ["safety"; "safe travel"; "is it safe"]);
    ("ask_shopping", ["shopping"; "buy"; "mall"; "store"; "souvenir"]);
    ("ask_souks", ["souk"; "bazaar"; "traditional market"; "artisan market"; "handicraft"]);
    ("ask_markets", ["market"; "best markets"; "markets"; "local market"; "food market"]);
    ("ask_culture", ["culture"; "tradition"; "customs"; "heritage"; "local culture"]);
    ("ask_history", ["history"; "heritage"; "historical site"; "old city"; "past events"]);
    ("ask_festivals", ["festival"; "celebration"; "event"; "cultural festival"; "holiday"]);
    ("ask_best_time", ["best time"; "season"; "when to visit"; "ideal time"]);
    ("ask_family", ["family"; "travel with kids"; "family-friendly"; "with children"]);
    ("general_morocco", ["Morocco info"; "country info"; "overview"; "general info"; "Morocco guide"; "about Morocco"; "something about Morocco"]);
    ("irrelevant_question", ["random"; "irrelevant"; "off-topic"; "not related"])
  ]%string.

Section Intent.

Context {U : Unicode} {D : Difflib} {L : Nltk}.

(** [lemmatize_text] *)
Definition lemmatize_text (text : str) : str :=
  join (lit " ") (List.map lemmatize (split text)).

(** [self.intent_keywords.get(name, [])] *)
Definition keywords_of (table : dict (list str)) (name : str) : list str :=
  match dict_get name table with
  | Some kws => kws
  | None => []
  end.

(** The test of one [joke_or_troll] keyword. *)
Definition troll_hit (query query_lem kw : str) : bool :=
  let kw_norm := normalize_text kw in
  let kw_lem := lemmatize_text kw_norm in
  (contains kw_norm query
   || contains kw_lem query_lem
   || (if Qlt_le_dec (8 # 10) (ratio query kw_norm) then true else false))%bool.

(** The test of one keyword of any other category against a query and its
    lemma form. *)
Definition keyword_hit (query query_lem kw : str) : bool :=
  let kw_norm := normalize_text kw in
  let kw_lem := lemmatize_text kw_norm in
  (word_search kw_norm query
   || word_search kw_lem query_lem
   || (if Qlt_le_dec (75 # 100) (ratio query kw_norm) then true else false))%bool.

(** [for kw in keywords: if <test>: return ...], as the truth of "some
    keyword passed the test" *)
Fixpoint any_keyword (test : str -> bool) (keywords : list str) : bool :=
  match keywords with
  | [] => false
  | kw :: rest => if test kw then true else any_keyword test rest
  end.

Definition promoted (intent : str) : bool :=
  (str_eqb intent (lit "joke_or_troll")
   || str_eqb intent (lit "ask_weather")
   || str_eqb intent (lit "ask_distance"))%bool.

(** The last loop, over [self.intent_keywords.items()]. *)
Fixpoint first_category (test : str -> bool) (table : dict (list str)) : option str :=
  match table with
  | [] => None
  | (intent, keywords) :: rest =>
      if promoted intent then first_category test rest
      else if any_keyword test keywords then Some intent
      else first_category test rest
  end.

(** the query with its shorthand written out *)
Definition expand_shorthand (query : str) : str :=
  replace (lit " cn ") (lit " can ")
    (replace (lit " n ") (lit " in ") (replace (lit " 2 ") (lit " to ") query)).

Definition detect_intent_in (table : dict (list str)) (user_input : str) : option str :=
  let query := normalize_text user_input in
  let query_lem := lemmatize_text query in
  let query_expanded := expand_shorthand query in
  let query_expanded_lem := lemmatize_text query_expanded in
  if any_keyword (troll_hit query query_lem) (keywords_of table (lit "joke_or_troll"))
  then Some (lit "joke_or_troll")
  else if any_keyword (keyword_hit query query_lem) (keywords_of table (lit "ask_distance"))
  then Some (lit "ask_distance")
  else if any_keyword (keyword_hit query query_lem) (keywords_of table (lit "ask_weather"))
  then Some (lit "ask_weather")
  else
    first_category
      (fun kw => (keyword_hit query query_lem kw
                  || keyword_hit query_expanded query_expanded_lem kw)%bool)
      table.

Definition _detect_intent (user_input : str) : option str :=
  detect_intent_in intent_keywords user_input.

End Intent.

(* ================================================================== *)
(** * Answer ranking engine ([Retriever]) *)
(* ================================================================== *)

(** [cosine_similarity(vectorizer.transform([query]), q_vectors[idx])] for
    the vectorizer fitted on the corpus questions. *)
Class Sklearn := {
  tfidf_similarity : list str -> str -> nat -> Q
}.

(** A cosine of vectors without negative components. *)
Definition TfidfBounded (Sk : Sklearn) : Prop :=
  forall questions query idx,
    (0 <= tfidf_similarity questions query idx /\
     tfidf_similarity questions query idx <= 1)%Q.

(** A record of the corpus as loaded. *)
Record QA := {
  qa_question : str;
  qa_assistant : str;
  qa_city : str;
  qa_intent : str
}.

(** The same record after [__init__] added the derived fields. *)
Record Entry := {
  question : str;
  assistant : str;
  city : str;
  intent : str;
  _norm_question : str;
  _norm_city : str;
  _norm_intent : str
}.

Record Retriever := {
  qa_list : list Entry;
  city_detector : CityDetector
}.

(** [self.cities] *)
Definition cities : list str :=
  List.map lit
    ["Agadir"; "Al Hoceima"; "Azrou"; "Beni Mellal"; "Berkane";
     "Casablanca"; "Chefchaouen"; "Dakhla"; "El Jadida"; "Errachidia";
     "Essaouira"; "Fes"; "Guelmim"; "Ifrane"; "Kenitra";
     "Khouribga"; "Laayoune"; "Larache"; "Marrakech"; "Martil";
     "Meknes"; "Mohammedia"; "Nador"; "Ouarzazate"; "Oujda";
     "Rabat"; "Safi"; "Sale"; "Tangier"; "Tetouan";
     "Tiznit"; "Taroudant"; "Tata"; "Tanger Med"; "Sidi Ifni"]%string.

(** the typographic apostrophe of the reply texts *)
Definition apostrophe : str := [8217%N].

(** [self.generic_fallback] *)
Definition generic_fallback : list str :=
  [ lit "I" ++ apostrophe ++ lit "m not sure about that yet.";
    lit "Could you clarify your question?";
    lit "Sorry, I don" ++ apostrophe ++ lit "t know that yet." ].

Definition entry_eqb (a b : Entry) : bool :=
  (str_eqb (question a) (question b) && str_eqb (assistant a) (assistant b)
   && str_eqb (city a) (city b) && str_eqb (intent a) (intent b)
   && str_eqb (_norm_question a) (_norm_question b)
   && str_eqb (_norm_city a) (_norm_city b)
   && str_eqb (_norm_intent a) (_norm_intent b))%bool.

(** [l.index(e)] for an [e] taken from [l] *)
Fixpoint list_index (e : Entry) (l : list Entry) : nat :=
  match l with
  | [] => 0
  | x :: r => if entry_eqb x e then 0 else S (list_index e r)
  end.

Section Engine.

Context {U : Unicode} {Nm : Numbers} {D : Difflib} {L : Nltk} {Sk : Sklearn} {H : Host}.

Definition derive (q : QA) : Entry :=
  {| question := qa_question q;
     assistant := qa_assistant q;
     city := qa_city q;
     intent := qa_intent q;
     _norm_question := normalize_text (qa_question q);
     _norm_city := normalize_text (qa_city q);
     _norm_intent := py_lower (qa_intent q) |}.

(** [Retriever.__init__] on the corpus records and the rows of the cities
    file. *)
Definition Retriever_init (corpus : list QA) (rows : list CityData) : outcome Retriever :=
  match corpus with
  | [] => Raises ValueError
  | _ =>
      Returns {| qa_list := List.map derive corpus;
                 city_detector := CityDetector_init rows |}
  end.

(** ** Place extraction for distance requests *)

Definition known (found : list ResolvedPlace) (c : ResolvedPlace) : bool :=
  str_in (normalize_text (rp_name c)) (List.map (fun f => normalize_text (rp_name f)) found).

Definition at_least (max_cities : nat) (found : list ResolvedPlace) : bool :=
  (max_cities <=? List.length found)%nat.

(** the first loop; the flag tells that it returned from the function *)
Fixpoint scan_cities (det : CityDetector) (text : str) (max_cities : nat)
    (found : list ResolvedPlace) (names : list str) : list ResolvedPlace * bool :=
  match names with
  | [] => (found, false)
  | name :: rest =>
      if word_search (normalize_text name) (normalize_text text) then
        match find_city_coordinates det name with
        | Some coords =>
            if known found coords then scan_cities det text max_cities found rest
            else
              let found' := found ++ [coords] in
              if at_least max_cities found' then (found', true)
              else scan_cities det text max_cities found' rest
        | None => scan_cities det text max_cities found rest
        end
      else scan_cities det text max_cities found rest
  end.

(** the second loop *)
Fixpoint scan_misspellings (det : CityDetector) (text : str) (max_cities : nat)
    (found : list ResolvedPlace) (items : dict str) : list ResolvedPlace :=
  match items with
  | [] => found
  | (misspelling, canonical) :: rest =>
      if at_least max_cities found then found
      else if word_search misspelling (normalize_text text) then
        match find_city_coordinates det canonical with
        | Some coords =>
            scan_misspellings det text max_cities
              (if known found coords then found else found ++ [coords]) rest
        | None => scan_misspellings det text max_cities found rest
        end
      else scan_misspellings det text max_cities found rest
  end.

(** [s.strip(chars)] for the blank and the two quote characters *)
Definition is_quote_or_blank (c : char) : bool :=
  (N.eqb c 32 || N.eqb c 34 || N.eqb c 39)%bool.

Fixpoint lstrip_chars (s : str) : str :=
  match s with
  | [] => []
  | c :: r => if is_quote_or_blank c then lstrip_chars r else s
  end.

Definition strip_chars (s : str) : str :=
  lstrip_chars (rev (lstrip_chars (rev s))).

(** the third step, over the two groups of the pattern *)
Fixpoint scan_groups (det : CityDetector) (max_cities : nat)
    (found : list ResolvedPlace) (cands : list str) : list ResolvedPlace :=
  match cands with
  | [] => found
  | cand :: rest =>
      if at_least max_cities found then found
      else
        match find_city_coordinates det cand with
        | Some c =>
            scan_groups det max_cities (if known found c then found else found ++ [c]) rest
        | None => scan_groups det max_cities found rest
        end
  end.

Definition common_words : list str :=
  List.map lit
    ["whats"; "what"; "hows"; "how"; "the"; "is"; "are"; "and"; "or"; "to"; "from";
     "between"; "distance"; "far"; "away"; "where"; "which"; "when"; "can"; "will";
     "does"; "did"; "do"; "about"; "for"; "as"; "with"; "at"; "in"; "on"; "by";
     "of"; "an"; "a"; "km"; "kilometers"; "miles"; "you"; "me"; "him"; "her"]%string.

Definition span_in (span : nat * nat) (used : list (nat * nat)) : bool :=
  existsb (fun u => (Nat.eqb (fst u) (fst span) && Nat.eqb (snd u) (snd span))%bool) used.

(** one turn of the inner loop of the fourth step *)
Definition ngram_step (det : CityDetector) (tokens : list str) (max_cities n : nat)
    (state : list ResolvedPlace * list (nat * nat)) (i : nat)
  : list ResolvedPlace * list (nat * nat) :=
  let '(found, used_spans) := state in
  if at_least max_cities found then state
  else if span_in (i, i + n) used_spans then state
  else
    let phrase := join (lit " ") (firstn n (skipn i tokens)) in
    if (List.length phrase <? 2)%nat then state
    else if (Nat.eqb n 1 && str_in (py_lower phrase) common_words)%bool then state
    else
      match find_city_coordinates det phrase with
      | Some candidate =>
          if known found candidate then state
          else (found ++ [candidate],
                used_spans ++ List.map (fun j => (j, j + 1)) (seq i n))
      | None => state
      end.

Definition ngram_scan (det : CityDetector) (tokens : list str) (max_cities : nat)
    (found : list ResolvedPlace) : list ResolvedPlace :=
  let max_n := Nat.min 4 (List.length tokens) in
  fst (fold_left
         (fun state n =>
            fold_left (ngram_step det tokens max_cities n)
                      (seq 0 (List.length tokens - n + 1)) state)
         (rev (seq 1 max_n))
         (found, [])).

Definition _extract_cities_from_text (rt : Retriever) (text : str) (max_cities : nat)
  : list ResolvedPlace :=
  let det := city_detector rt in
  if negb (nonempty text) then [] else
  match scan_cities det text max_cities [] cities with
  | (found, true) => found
  | (found, false) =>
      let found := scan_misspellings det text max_cities found
                     (moroccan_city_misspellings det) in
      if at_least max_cities found then firstn max_cities found else
      let found :=
        match re_search_between_from (py_lower text) with
        | Some (a, b) => scan_groups det max_cities found [strip_chars a; strip_chars b]
        | None => found
        end in
      if at_least max_cities found then found else
      let remove_punctuation :=
        List.map (fun c => if (N.eqb c 39 || N.eqb c 34)%bool then 32%N else c) text in
      ngram_scan det (re_findall_tokens remove_punctuation) max_cities found
  end.

(** ** Branches of [get_answer] *)

Definition Answers : Type := list (str * Q).

Definition newline : str := [10%N].
Definition bullet : str := [10%N; 8226%N; 32%N].

(** [get_weather] *)
Definition get_weather (city : str) : option Weather :=
  if nonempty city then fetch_weather city else None.

(** the weather report of the reply *)
Definition weather_lines (city_display : str) (weather : Weather) : str :=
  lit "The weather in " ++ city_display ++ lit " right now:"
  ++ bullet ++ py_capitalize (w_condition weather)
  ++ bullet ++ lit "Temperature: " ++ w_temperature weather ++ [176%N] ++ lit "C"
  ++ bullet ++ lit "Humidity: " ++ w_humidity weather ++ lit "%"
  ++ bullet ++ lit "Wind: " ++ w_wind weather ++ lit " m/s".

Definition weather_not_found : str :=
  lit "I couldn" ++ apostrophe
  ++ lit "t find the weather for that city. Can you try another one?".

Definition answer_weather (moroccan_city : option str) (global_city : option CityData)
  : Answers :=
  match moroccan_city, global_city with
  | Some city_query, _ =>
      match get_weather city_query with
      | None => [(weather_not_found, (5 # 10)%Q)]
      | Some weather => [(weather_lines (py_title city_query) weather, 1%Q)]
      end
  | None, Some record =>
      let city_query := str_or (row_city record) (row_city_ascii record) in
      match get_weather city_query with
      | None => [(weather_not_found, (5 # 10)%Q)]
      | Some weather =>
          [(lit "I don't specialize outside Morocco, but here's the weather:"
            ++ newline ++ weather_lines (py_title city_query) weather, 1%Q)]
      end
  | None, None => [(lit "Sure! Which city do you want the weather for?", (5 # 10)%Q)]
  end.

(** the loop of the last resort: the first two fragments that resolve *)
Fixpoint resolve_parts (det : CityDetector) (candidates : list ResolvedPlace)
    (parts : list str) : list ResolvedPlace :=
  match parts with
  | [] => candidates
  | part :: rest =>
      if (2 <=? List.length candidates)%nat then candidates
      else
        match find_city_coordinates det part with
        | Some c => resolve_parts det (candidates ++ [c]) rest
        | None => resolve_parts det candidates rest
        end
  end.

Definition two_cities_please : str :=
  lit "I couldn't identify two cities in your request, can you rephrase or specify the countries?".

Definition answer_distance (rt : Retriever) (user_input : str) : Answers :=
  let det := city_detector rt in
  let text := strip user_input in
  let found := _extract_cities_from_text rt text 2 in
  let last_resort :=
    let parts :=
      List.filter nonempty (List.map strip (re_split_delimiters text)) in
    match resolve_parts det [] parts with
    | a :: b :: _ => [(get_city_distance det (rp_name a) (rp_name b), 1%Q)]
    | _ => [(two_cities_please, (5 # 10)%Q)]
    end in
  match found with
  | a :: b :: _ => [(get_city_distance det (rp_name a) (rp_name b), 1%Q)]
  | [only] =>
      let remaining_text := strip (re_sub_ignorecase (rp_name only) text) in
      match _extract_cities_from_text rt remaining_text 1 with
      | more :: _ => [(get_city_distance det (rp_name only) (rp_name more), 1%Q)]
      | [] => last_resort
      end
  | [] => last_resort
  end.

(** the loop [for entry in self.qa_list: if user_norm == entry['_norm_question']] *)
Fixpoint exact_match (user_norm : str) (entries : list Entry) : option Entry :=
  match entries with
  | [] => None
  | entry :: rest =>
      if str_eqb user_norm (_norm_question entry) then Some entry
      else exact_match user_norm rest
  end.

(** [np.random.choice(l)] *)
Definition choice {A} (l : list A) : option A :=
  match l with
  | [] => None
  | d :: _ => Some (nth (random_choice (List.length l) mod List.length l) l d)
  end.

Definition immediate (detected_intent : option str) : bool :=
  match detected_intent with
  | Some i => str_in i (List.map lit ["greeting"; "farewell"; "joke_or_troll"; "greeting_personal"]%string)
  | None => false
  end.

Definition excluded (i : str) : bool :=
  str_in i (List.map lit ["greeting"; "farewell"; "irrelevant_question"; "rude_or_aggressive"]%string).

Definition has_intent (detected_intent : option str) (e : Entry) : bool :=
  match detected_intent with
  | Some i => str_eqb (_norm_intent e) i
  | None => false
  end.

(** the immediate reply to a greeting or a joke, when the corpus has one *)
Definition immediate_reply (rt : Retriever) (detected_intent : option str) : option Answers :=
  if immediate detected_intent then
    match choice (List.filter (has_intent detected_intent) (qa_list rt)) with
    | Some e => Some [(assistant e, 1%Q)]
    | None => None
    end
  else None.

Definition fallback : Answers :=
  match choice generic_fallback with
  | Some text => [(text, 0%Q)]
  | None => []
  end.

Definition entry_at (rt : Retriever) (idx : nat) : option Entry := nth_error (qa_list rt) idx.

Definition questions (rt : Retriever) : list str := List.map _norm_question (qa_list rt).

(** [i for i in range(len(self.qa_list)) if keep(self.qa_list[i])] *)
Definition indices_where (rt : Retriever) (keep : Entry -> bool) (idxs : list nat) : list nat :=
  List.filter (fun i => match entry_at rt i with Some e => keep e | None => false end) idxs.

(** [narrowed if narrowed else idxs] *)
Definition narrow (narrowed idxs : list nat) : list nat :=
  match narrowed with
  | [] => idxs
  | _ => narrowed
  end.

(** the blended score of the city and generic branches, kept above 0.15 *)
Definition blend_scores (rt : Retriever) (user_norm : str) (candidate_idxs : list nat)
  : Answers :=
  filter_some
    (fun idx =>
       match entry_at rt idx with
       | Some e =>
           let tfidf_score := tfidf_similarity (questions rt) user_norm idx in
           let fuzzy_score := ratio user_norm (_norm_question e) in
           let final_score := ((6 # 10) * tfidf_score + (4 # 10) * fuzzy_score)%Q in
           if Qlt_le_dec (15 # 100) final_score
           then Some (assistant e, final_score) else None
       | None => None
       end)
    candidate_idxs.

Definition score_ltb (a b : Q) : bool :=
  match Qcompare a b with Lt => true | _ => false end.

(** [scored_candidates.sort(key=lambda x: x[1], reverse=True)] *)
Definition sort_by_score (l : Answers) : Answers := sorted_desc snd score_ltb l.

Definition _answer_moroccan_city_query (rt : Retriever) (user_input city_name : str)
    (top_k : Z) : Answers :=
  let user_norm := normalize_text user_input in
  let detected_intent := _detect_intent user_input in
  match exact_match user_norm (qa_list rt) with
  | Some entry => [(assistant entry, 1%Q)]
  | None =>
      match immediate_reply rt detected_intent with
      | Some reply => reply
      | None =>
          let candidate_idxs :=
            indices_where rt (fun e => negb (excluded (_norm_intent e)))
              (seq 0 (List.length (qa_list rt))) in
          let candidate_idxs :=
            narrow (indices_where rt (fun e => str_eqb (_norm_city e) city_name) candidate_idxs)
                   candidate_idxs in
          let candidate_idxs :=
            match detected_intent with
            | Some (_ :: _) =>
                narrow (indices_where rt (has_intent detected_intent) candidate_idxs)
                       candidate_idxs
            | _ => candidate_idxs
            end in
          match candidate_idxs with
          | [] => fallback
          | _ =>
              match sort_by_score (blend_scores rt user_norm candidate_idxs) with
              | [] => fallback
              | scored => slice_to top_k scored
              end
          end
      end
  end.

(** ** The general-Morocco branch *)

Definition stop_words : list str :=
  List.map lit
    ["what"; "are"; "the"; "a"; "an"; "is"; "in"; "of"; "to"; "for"; "and"; "or";
     "with"; "on"; "at"; "by"; "from"; "main"]%string.

(** [set(words)], as the list of its elements *)
Fixpoint distinct (words : list str) : list str :=
  match words with
  | [] => []
  | w :: rest => if str_in w rest then distinct rest else w :: distinct rest
  end.

Definition key_words_of (user_norm : str) : list str :=
  List.filter (fun w => (negb (str_in w stop_words) && (2 <? List.length w)%nat)%bool)
    (distinct (split (py_lower user_norm))).

(** the sum the loop over [key_words] builds *)
Fixpoint boost_sum (key_words : list str) (candidate_question : str) : Q :=
  match key_words with
  | [] => 0
  | w :: rest =>
      (if contains w candidate_question
       then (if (6 <? List.length w)%nat then 25 # 100 else 15 # 100)
       else 0) + boost_sum rest candidate_question
  end%Q.

Definition boosted (user_norm : str) (e : Entry) (final_score : Q) : Q :=
  let key_words := key_words_of user_norm in
  let candidate_question := py_lower (_norm_question e) in
  match key_words with
  | [] => final_score
  | _ =>
      let boost := Qmin (80 # 100) (boost_sum key_words candidate_question) in
      if Qlt_le_dec 0 boost then (final_score * (1 + boost))%Q else final_score
  end.

Definition general_scores (rt : Retriever) (user_norm : str) (candidate_idxs : list nat)
  : Answers :=
  filter_some
    (fun idx =>
       match entry_at rt idx with
       | Some e =>
           let tfidf_score := tfidf_similarity (questions rt) user_norm idx in
           let fuzzy_score := ratio user_norm (_norm_question e) in
           let final_score := ((85 # 100) * tfidf_score + (15 # 100) * fuzzy_score)%Q in
           let final_score := boosted user_norm e final_score in
           if Qlt_le_dec (1 # 10) final_score
           then Some (assistant e, final_score) else None
       | None => None
       end)
    candidate_idxs.

(** [tfidf_sims.argmax()] with the value there: the first greatest *)
Fixpoint argmax_from (best : nat * Q) (i : nat) (sims : list Q) : nat * Q :=
  match sims with
  | [] => best
  | x :: rest =>
      argmax_from (if score_ltb (snd best) x then (i, x) else best) (S i) rest
  end.

Definition best_by_tfidf (rt : Retriever) (user_norm : str) (candidate_idxs : list nat)
  : Answers :=
  let tfidf_sims := List.map (tfidf_similarity (questions rt) user_norm) candidate_idxs in
  match tfidf_sims with
  | [] => []
  | x :: rest =>
      let '(pos, top) := argmax_from (O, x) 1 rest in
      match nth_error candidate_idxs pos with
      | Some best_idx =>
          match entry_at rt best_idx with
          | Some e => [(assistant e, top)]
          | None => []
          end
      | None => []
      end
  end.

Definition _answer_general_morocco_query (rt : Retriever) (user_input : str) (top_k : Z)
  : Answers :=
  let user_norm := normalize_text user_input in
  match exact_match user_norm (qa_list rt) with
  | Some entry => [(assistant entry, 1%Q)]
  | None =>
      let detected_intent := _detect_intent user_input in
      match immediate_reply rt detected_intent with
      | Some reply => reply
      | None =>
          let general_morocco_entries :=
            List.filter (fun e => str_eqb (_norm_intent e) (lit "general_morocco")) (qa_list rt) in
          match general_morocco_entries with
          | [] => fallback
          | _ =>
              let candidate_idxs :=
                List.map (fun e => list_index e (qa_list rt)) general_morocco_entries in
              match general_scores rt user_norm candidate_idxs with
              | [] => best_by_tfidf rt user_norm candidate_idxs
              | scored => slice_to top_k (sort_by_score scored)
              end
          end
      end
  end.

(** ** The generic branch *)

Definition _answer_generic_query (rt : Retriever) (user_input : str)
    (detected_intent : option str) (top_k : Z) : Answers :=
  let user_norm := normalize_text user_input in
  match exact_match user_norm (qa_list rt) with
  | Some entry => [(assistant entry, 1%Q)]
  | None =>
      match immediate_reply rt detected_intent with
      | Some reply => reply
      | None =>
          let candidate_idxs :=
            indices_where rt (fun e => negb (excluded (_norm_intent e)))
              (seq 0 (List.length (qa_list rt))) in
          let candidate_idxs :=
            match detected_intent with
            | Some (_ :: _) =>
                narrow (indices_where rt (has_intent detected_intent) candidate_idxs)
                       candidate_idxs
            | _ => candidate_idxs
            end in
          match candidate_idxs with
          | [] => fallback
          | _ =>
              match sort_by_score (blend_scores rt user_norm candidate_idxs) with
              | [] => fallback
              | scored => slice_to 1 scored
              end
          end
      end
  end.

(** ** The entry point *)

Definition is_intent (detected_intent : option str) (name : string) : bool :=
  match detected_intent with
  | Some i => str_eqb i (lit name)
  | None => false
  end.

Definition foreign_country (country_detected : option str) : option str :=
  match country_detected with
  | Some (c :: r) =>
      if str_eqb (py_lower (c :: r)) (lit "morocco") then None else Some (c :: r)
  | _ => None
  end.

Definition outside_expertise (country_detected : str) : str :=
  let country_display :=
    if str_in (py_lower country_detected) [lit "usa"; lit "uk"]
    then py_upper country_detected else py_title country_detected in
  lit "I'm specialized in Morocco tourism, so " ++ country_display
  ++ lit " is outside my expertise. But if you're interested in visiting Morocco instead, I'd be happy to help!".

(** [get_answer].  The values [user_lem] and [old_city_detect] that the
    function also computes are not used by it and are left out. *)
Definition get_answer (rt : Retriever) (user_input : str) (top_k : Z) : outcome Answers :=
  if negb (nonempty (strip user_input))
  then Returns [(lit "Please ask a question.", 0%Q)]
  else
    let det := city_detector rt in
    detected <- detect_city det user_input ;;
    let '(moroccan_city, global_city) := detected in
    let morocco_mentioned := is_morocco_mentioned user_input in
    let country_detected := detect_country det user_input in
    let detected_intent := _detect_intent user_input in
    if is_intent detected_intent "ask_weather"
    then Returns (answer_weather moroccan_city global_city)
    else if is_intent detected_intent "ask_distance"
    then Returns (answer_distance rt user_input)
    else
      match moroccan_city, global_city with
      | Some city_name, _ =>
          Returns (_answer_moroccan_city_query rt user_input city_name top_k)
      | None, Some record =>
          Returns [(format_world_city_response record, 1%Q)]
      | None, None =>
          match foreign_country country_detected with
          | Some country => Returns [(outside_expertise country, (3 # 10)%Q)]
          | None =>
              if morocco_mentioned
              then Returns (_answer_general_morocco_query rt user_input top_k)
              else Returns (_answer_generic_query rt user_input detected_intent top_k)
          end
      end.

End Engine.

(* ================================================================== *)
(** * Notions used in the properties *)
(* ================================================================== *)

Section Notions.

Context {U : Unicode} {Nm : Numbers} {D : Difflib} {L : Nltk} {Sk : Sklearn} {H : Host}.

(** ** The gazetteer *)

(** A row enters the dictionary only when its city name is not blank. *)
Definition has_city (r : CityData) : Prop := strip (row_city r) <> [].

(** The population the loader compares: the parsed integer, 0 when the
    text is not a number. *)
Definition row_pop (r : CityData) : Z :=
  match parse_population (row_population r) with
  | IntValue z => z
  | _ => 0
  end.

(** Row [i] of [rows] is the one to keep for its key: no row of the same key
    has a larger population, and none with the same population comes
    earlier. *)
Definition best_at (rows : list CityData) (k : str) (i : nat) (r : CityData) : Prop :=
  nth_error rows i = Some r /\ has_city r /\ norm_name r = k /\
  forall j r', nth_error rows j = Some r' -> has_city r' -> norm_name r' = k ->
    (row_pop r' <= row_pop r)%Z /\ (row_pop r' = row_pop r -> i <= j).

Definition loaded_ok (rows : list CityData) (cities : dict CityData) : Prop :=
  forall k,
    match dict_get k cities with
    | None => forall r, In r rows -> has_city r -> norm_name r <> k
    | Some v => exists i r, best_at rows k i r /\ v = stored_record r
    end.

(** No stored population is the text of an infinity. *)
Definition populations_parse (cities : dict CityData) : Prop :=
  forall k v, In (k, v) cities -> int_of_float_text (row_population v) <> IntOverflowError.

(** ** The intent classifier *)

(** The keywords of a category hit when one of them passes the test. *)
Definition category_hits (test : str -> bool) (name : string) : bool :=
  existsb test (keywords_of intent_keywords (lit name)).

(** The categories of the last loop, in declared order. *)
Definition remaining_categories : dict (list str) :=
  List.filter (fun p => negb (promoted (fst p))) intent_keywords.

(** The first of them with a keyword that passes the test. *)
Definition first_remaining (test : str -> bool) : option str :=
  option_map fst (List.find (fun p => existsb test (snd p)) remaining_categories).

Definition plain_or_expanded_hit (query : str) (kw : str) : bool :=
  (keyword_hit query (lemmatize_text query) kw
   || keyword_hit (expand_shorthand query) (lemmatize_text (expand_shorthand query)) kw)%bool.

(** ** Ranked answers *)

(** A list of answers in descending order of score. *)
Definition descending (l : Answers) : Prop :=
  StronglySorted (fun x y : str * Q => (snd y <= snd x)%Q) l.

(** Every score of the list lies between 0 and [hi]. *)
Definition scores_within (hi : Q) (l : Answers) : Prop :=
  forall text score, In (text, score) l -> (0 <= score /\ score <= hi)%Q.

(** A ranked list with scores between 0 and [hi]. *)
Definition ranked (hi : Q) (l : Answers) : Prop :=
  descending l /\ scores_within hi l.

(** ** Branches of the entry point *)

(** The conditions under which [get_answer] hands the input to
    [_answer_general_morocco_query]. *)
Definition general_morocco_branch (rt : Retriever) (user_input : str) : Prop :=
  nonempty (strip user_input) = true /\
  detect_city (city_detector rt) user_input = Returns (None, None) /\
  is_intent (_detect_intent user_input) "ask_weather" = false /\
  is_intent (_detect_intent user_input) "ask_distance" = false /\
  foreign_country (detect_country (city_detector rt) user_input) = None /\
  is_morocco_mentioned user_input = true.

(** The conditions under which the input reaches one of the three branches
    that look the question up in the corpus. *)
Definition corpus_branch (rt : Retriever) (user_input : str) : Prop :=
  nonempty (strip user_input) = true /\
  is_intent (_detect_intent user_input) "ask_weather" = false /\
  is_intent (_detect_intent user_input) "ask_distance" = false /\
  exists moroccan_city global_city,
    detect_city (city_detector rt) user_input = Returns (moroccan_city, global_city) /\
    (moroccan_city <> None \/
     (global_city = None /\
      foreign_country (detect_country (city_detector rt) user_input) = None)).

End Notions.


(* ================================================================== *)
(** * Further notions *)
(* ================================================================== *)

Section MoreNotions.

Context {U : Unicode} {Nm : Numbers} {D : Difflib} {L : Nltk} {Sk : Sklearn} {H : Host}.

(** What holds of the dictionary after any number of rows, whether the loop
    ends or is left: the keys are distinct, and every value is the record
    stored for a row of that key. *)
Definition well_keyed (rows : list CityData) (cities : dict CityData) : Prop :=
  NoDup (List.map fst cities) /\
  forall k v, In (k, v) cities ->
    exists r, In r rows /\ has_city r /\ norm_name r = k /\ v = stored_record r.

(** No population held by the dictionary is the text of an infinity, as the
    loader reads it. *)
Definition stored_populations_read (cities : dict CityData) : Prop :=
  forall k v, In (k, v) cities -> parse_population (row_population v) <> IntOverflowError.

(** The population of a row can be read: it is a number, or not a number at
    all, but not an infinity. *)
Definition population_read (r : CityData) : Prop :=
  parse_population (row_population r) <> IntOverflowError.

(** The country a row contributes to the set of countries. *)
Definition country_of (r : CityData) : str := strip (py_lower (strip (row_country r))).

(** The order of the sort key [(score, population)], written out. *)
Definition key_le (a b : Q * Z) : Prop :=
  (fst a < fst b)%Q \/ ((fst a == fst b)%Q /\ (snd a <= snd b)%Z).

(** A token of the input names a stored city that [detect_global_city]
    takes as a candidate. *)
Definition names_large_city (det : CityDetector) (user_input : str)
    (record : CityData) (population : Z) : Prop :=
  exists word,
    In word (split user_input) /\
    (4 <= List.length (_normalize_text word))%nat /\
    dict_get (_normalize_text word) (global_cities det) = Some record /\
    _get_population record = Returns population /\
    (50000 <= population)%Z.

(** The candidates the fuzzy search of [find_city_coordinates] collects
    for a name that is not itself a key of the gazetteer. *)
Definition resolver_candidates (det : CityDetector) (city_name : str) : list Candidate :=
  let query := normalize_text city_name in
  filter_some
    (candidate_of query
       (match detect_moroccan_city det city_name with Some _ => true | None => false end)
       (if (List.length query <=? 5)%nat then (90 # 100)%Q else CITY_MATCH_THRESHOLD))
    (global_cities det).

(** A candidate counts as a major city from 50000 inhabitants. *)
Definition is_major (c : Candidate) : Prop := (50000 <= cand_pop c)%Z.

(** What the place extractor keeps true of the list it builds: at most
    [max_cities] places, no two with the same normalized name, each of them
    an answer of the resolver. *)
Definition distinct_places (det : CityDetector) (max_cities : nat)
    (found : list ResolvedPlace) : Prop :=
  (List.length found <= max_cities)%nat /\
  NoDup (List.map (fun p => normalize_text (rp_name p)) found) /\
  forall p, In p found -> exists name, find_city_coordinates det name = Some p.

(** A text that comes from the corpus or is one of the three sentences of
    [generic_fallback]. *)
Definition from_corpus_or_fallback (rt : Retriever) (text : str) : Prop :=
  In text generic_fallback \/ exists e, In e (qa_list rt) /\ text = assistant e.

(** Between one answer and [top_k] answers. *)
Definition one_to (top_k : Z) (answers : Answers) : Prop :=
  (1 <= List.length answers)%nat /\ (Z.of_nat (List.length answers) <= top_k)%Z.

(** Every text of the list comes from the corpus or the fallback
    sentences. *)
Definition texts_from_corpus (rt : Retriever) (answers : Answers) : Prop :=
  forall text score, In (text, score) answers -> from_corpus_or_fallback rt text.

(** The three shapes of what a branch that consults the corpus returns: the
    answer of one entry, one fallback sentence with score 0, or the first
    [top_k] of a list of scored answers of entries that is not empty. *)
Definition corpus_reply (rt : Retriever) (top_k : Z) (answers : Answers) : Prop :=
  (exists e score, In e (qa_list rt) /\ answers = [(assistant e, score)]) \/
  (exists text, In text generic_fallback /\ answers = [(text, 0%Q)]) \/
  (exists scored : Answers,
      scored <> [] /\
      (forall text score, In (text, score) scored ->
                          exists e, In e (qa_list rt) /\ text = assistant e) /\
      answers = slice_to top_k scored).

End MoreNotions.

(* ================================================================== *)
(** * The lines of the cities file as the reader yields them *)
(* ================================================================== *)



Section CsvRows.

Context {U : Unicode} {Nm : Numbers}.








End CsvRows.

(* ================================================================== *)
(** * The countries of the stored cities ([city_detector.py]) *)
(* ================================================================== *)

Section StoredCountries.

Context {U : Unicode}.

(** [CityDetector._extract_countries_from_cities], over the values of
    [global_cities] in the order of the dictionary. *)
Definition _extract_countries_from_cities (det : CityDetector) : list str :=
  fold_left
    (fun countries city_data =>
       match strip (row_country city_data) with
       | [] => countries
       | country => set_add (strip (py_lower country)) countries
       end)
    (List.map snd (global_cities det)) [].

End StoredCountries.

(* ================================================================== *)
(** * The earlier city detector ([retriever.py], [_extract_city]) *)
(* ================================================================== *)

Section EarlierDetector.

Context {U : Unicode} {D : Difflib}.

(** [self.cities_norm] *)
Definition cities_norm : list str := List.map normalize_text cities.

(** the local table [city_abbreviations] *)
Definition city_abbreviations : dict str :=
  List.map (fun p => (lit (fst p), lit (snd p)))
    [("casa", "casablanca"); ("cali", "casablanca"); ("mkech", "marrakech");
     ("meknes", "meknes"); ("fes", "fes")]%string.

(** [re.search(r'\b' + re.escape(pat) + r"(?:'s)?\b", text)], as a truth
    value: after [pat] the optional group takes an apostrophe and an [s]
    when a word boundary follows them, and nothing otherwise.  [prev] is
    the character before [text]. *)
Fixpoint possessive_search_from (prev : option char) (pat text : str) : bool :=
  (starts_with pat text
   && boundary prev (hd_error text)
   && (let rest := skipn (List.length pat) text in
       (starts_with [39%N; 115%N] rest
        && boundary (Some 115%N) (hd_error (skipn 2 rest)))
       || boundary (last_char prev pat) (hd_error rest)))
  || match text with
     | [] => false
     | c :: r => possessive_search_from (Some c) pat r
     end.

Definition possessive_search (pat text : str) : bool :=
  possessive_search_from None pat text.

(** [Retriever._extract_city] *)
Definition _extract_city (user_input : str) : option str :=
  let query := normalize_text user_input in
  match first_some (fun kv : str * str =>
                      if word_search (fst kv) query
                      then Some (normalize_text (snd kv)) else None)
                   city_abbreviations with
  | Some full_city => Some full_city
  | None =>
      match first_some (fun city_norm =>
                          if possessive_search city_norm query
                          then Some city_norm else None)
                       cities_norm with
      | Some city_norm => Some city_norm
      | None =>
          match first_some (fun word =>
                              if (4 <=? List.length word)%nat
                              then get_close_matches word cities_norm (70 # 100)%Q
                              else None)
                           (split query) with
          | Some close => Some close
          | None => get_close_matches query cities_norm (70 # 100)%Q
          end
      end
  end.

End EarlierDetector.

(* ================================================================== *)
(** * Facts about a foreign city ([world_city_formatter.py]) *)
(* ================================================================== *)

Module world_city_formatter.

Section Formatter.

Context {U : Unicode} {Nm : Numbers} {H : Host}.

(** [f"{pop_int:,}"] *)
Variable format_thousands : Z -> str.

(** [f"{x:.2f}"] *)
Variable format_2f : R -> str.

(** [value and value != 'N/A'] *)
Definition given (value : str) : bool :=
  (nonempty value && negb (str_eqb value (lit "N/A")))%bool.

(** The [try] around the population: [ValueError] gives ['N/A'], and an
    infinity makes [int] raise [OverflowError], which is not caught. *)
Definition population_text (population : str) : outcome str :=
  match int_of_float_text population with
  | IntValue pop_int => Returns (format_thousands pop_int)
  | IntValueError => Returns (lit "N/A")
  | IntOverflowError => Raises OverflowError
  end.

(** the list [facts] *)
Definition facts_of (city_data : CityData) (population : str) : list str :=
  let country := row_country city_data in
  let admin_name := row_admin_name city_data in
  let capital := row_capital city_data in
  let lat := row_lat city_data in
  let lng := row_lng city_data in
  (if given country then [lit "- Country: " ++ country] else [])
  ++ (if given population then [lit "- Population: " ++ population] else [])
  ++ (if given admin_name then [lit "- Located in: " ++ admin_name] else [])
  ++ (if (given capital && negb (str_eqb (py_lower capital) (lit "admin")))%bool
      then (let capital_type := py_capitalize capital in
            if nonempty capital_type then [lit "- Capital: " ++ capital_type] else [])
      else [])
  ++ (if (nonempty lat && nonempty lng
          && negb (str_eqb lat (lit "N/A")) && negb (str_eqb lng (lit "N/A")))%bool
      then match py_float lat, py_float lng with
           | Some lat_f, Some lng_f =>
               [lit "- Coordinates: " ++ format_2f lat_f ++ lit ", " ++ format_2f lng_f]
           | _, _ => []
           end
      else []).

(** the text built from the name of the city and the facts kept *)
Definition response_of (city_name : str) (facts : list str) : str :=
  lit "Sorry, " ++ city_name ++ lit " is not in Morocco so it's not my specialty." ++ [10%N]
  ++ lit "But here's what I found about " ++ city_name ++ lit ":" ++ [10%N]
  ++ List.concat (List.map (fun fact => fact ++ [10%N]) facts)
  ++ [10%N] ++ lit "If you want, I can help you explore amazing Moroccan cities instead!".

(** [WorldCityResponseFormatter.format_world_city_response], for a record
    with its ten fields. *)
Definition format_world_city_response (city_data : CityData) : outcome str :=
  population <- population_text (row_population city_data) ;;
  Returns (response_of (row_city city_data) (firstn 5 (facts_of city_data population))).

End Formatter.

End world_city_formatter.

(* ================================================================== *)
(** * The web endpoint ([chatbot_api.py]) *)
(* ================================================================== *)

Module chatbot_api.

(** What [chat] finds in the request: no JSON object (the body is not JSON
    or is not an object), an object whose [message] is not text, or an
    object with its message, [None] when the key is missing. *)
Inductive ChatRequest :=
| NotAnObject
| MessageNotText
| Message (text : option str).

(** The replies of [chat], one for each [return]. *)
Inductive ChatReply :=
| EmptyMessage
| NotInitialized
| NoInformation
| OutsideKnowledgeBase
| BestAnswer (text : str)
| AnswerError (e : exn)
| RequestError.

(** the HTTP status sent with a reply *)
Definition status (reply : ChatReply) : Z :=
  match reply with
  | EmptyMessage | RequestError => 400
  | NotInitialized | AnswerError _ => 500
  | NoInformation | OutsideKnowledgeBase | BestAnswer _ => 200
  end.

Definition confidence_threshold : Q := (2 # 10)%Q.

Section Endpoint.

Context {U : Unicode} {Nm : Numbers} {D : Difflib} {L : Nltk} {Sk : Sklearn} {H : Host}.

(** what the constructor [Retriever()] does when it is called *)
Variable boot : outcome Retriever.

(** the text of an exception, [str(e)] *)
Variable exception_text : exn -> str.

(** the field [response] of a reply *)
Definition response (reply : ChatReply) : str :=
  match reply with
  | EmptyMessage => lit "Please ask me something about Morocco travel!"
  | NotInitialized =>
      lit "Sorry, the chatbot is having trouble starting up. Please try again."
  | NoInformation =>
      lit "I apologize, but I don't have information about that. Please ask me something about Morocco tourism."
  | OutsideKnowledgeBase =>
      lit "I apologize, that seems to be outside my knowledge base. I can only answer questions about Morocco tourism."
  | BestAnswer text => text
  | AnswerError e => lit "Sorry, I encountered an error: " ++ exception_text e
  | RequestError => lit "An error occurred processing your request."
  end.

(** [init_retriever], as the value of the global [retriever] when it
    returns: the function returns [True] exactly when that is a retriever. *)
Definition init_retriever (retriever : option Retriever) : option Retriever :=
  match retriever with
  | Some rt => Some rt
  | None =>
      match boot with
      | Returns rt => Some rt
      | Raises _ => None
      end
  end.

(** [chat], on the global [retriever]: the reply and the global afterwards.
    A request without a JSON object or with a message that is not text
    raises in the first two statements, and the outer handler answers. *)
Definition chat (retriever : option Retriever) (request : ChatRequest)
  : ChatReply * option Retriever :=
  match request with
  | NotAnObject | MessageNotText => (RequestError, retriever)
  | Message text =>
      let user_message := strip (match text with Some t => t | None => [] end) in
      if negb (nonempty user_message) then (EmptyMessage, retriever)
      else
        match init_retriever retriever with
        | None => (NotInitialized, None)
        | Some rt =>
            (match get_answer rt user_message 1 with
             | Raises e => AnswerError e
             | Returns [] => NoInformation
             | Returns ((best_answer, confidence_score) :: _) =>
                 if Qlt_le_dec confidence_score confidence_threshold
                 then OutsideKnowledgeBase
                 else BestAnswer best_answer
             end, Some rt)
        end
  end.

End Endpoint.

End chatbot_api.

(* ================================================================== *)
(** * The command line ([cli_chatbot.py]) *)
(* ================================================================== *)

Module cli_chatbot.

Definition CONFIDENCE_THRESHOLD : Q := (2 # 10)%Q.

(** What one turn of the loop of [main] does with the line it reads. *)
Inductive Turn :=
| Goodbye
| Apologizes
| Says (best_answer : str)
| IndexError
| Escapes (e : exn)
| EndOfInput.

Section Loop.

Context {U : Unicode} {Nm : Numbers} {D : Difflib} {L : Nltk} {Sk : Sklearn} {H : Host}.

(** The body of the loop for a line read.  [responses[0]] raises
    [IndexError] on an empty list, and nothing catches it or an exception
    of [get_answer]. *)
Definition turn (retriever : Retriever) (line : str) : Turn :=
  let user_input := strip line in
  if str_in (py_lower user_input) [lit "quit"; lit "exit"] then Goodbye
  else
    match get_answer retriever user_input 1 with
    | Raises e => Escapes e
    | Returns [] => IndexError
    | Returns ((best_answer, confidence_score) :: _) =>
        if Qlt_le_dec confidence_score CONFIDENCE_THRESHOLD
        then Apologizes
        else Says best_answer
    end.

(** The loop of [main], once the retriever is built, on the lines of its
    input, as the list of what its turns did.  The loop goes on after an apology or an answer; when the
    input is exhausted [input] raises [EOFError]. *)
Fixpoint main (retriever : Retriever) (lines : list str) : list Turn :=
  match lines with
  | [] => [EndOfInput]
  | line :: rest =>
      match turn retriever line with
      | Apologizes => Apologizes :: main retriever rest
      | Says best_answer => Says best_answer :: main retriever rest
      | last => [last]
      end
  end.

End Loop.

End cli_chatbot.
(* ================================================================== *)
(** * A platform that computes *)
(* ================================================================== *)

(** ** [difflib.SequenceMatcher] without junk

    [find_longest_match] returns the longest block common to [a] and [b],
    the one starting earliest in [a] and then earliest in [b];
    [get_matching_blocks] applies it again to the left and to the right of
    the block.  The heuristic that sets aside popular characters concerns
    second sequences of 200 characters or more and is not part of this
    model. *)
Module SequenceMatcher.

Fixpoint common_prefix (a b : str) : nat :=
  match a, b with
  | x :: a', y :: b' => if N.eqb x y then S (common_prefix a' b') else 0
  | _, _ => 0
  end.

(** The best block so far is [(i, j, k)]. *)
Definition block : Type := nat * nat * nat.
Definition block_size (m : block) : nat := snd m.

Fixpoint scan_b (ai b : str) (i j : nat) (best : block) : block :=
  match b with
  | [] => best
  | _ :: b' =>
      let k := common_prefix ai b in
      scan_b ai b' i (S j) (if block_size best <? k then (i, j, k) else best)
  end.

Fixpoint scan_a (a b : str) (i : nat) (best : block) : block :=
  match a with
  | [] => best
  | _ :: a' => scan_a a' b (S i) (scan_b a b i 0 best)
  end.

Definition find_longest_match (a b : str) : block := scan_a a b 0 (0, 0, 0).

(** the total size of the matching blocks *)
Fixpoint matches (fuel : nat) (a b : str) : nat :=
  match fuel with
  | O => 0
  | S fuel' =>
      let '(i, j, k) := find_longest_match a b in
      match k with
      | O => 0
      | _ =>
          matches fuel' (firstn i a) (firstn j b) + k
          + matches fuel' (skipn (i + k) a) (skipn (j + k) b)
      end
  end.

Definition ratio (a b : str) : Q :=
  let total := List.length a + List.length b in
  match total with
  | O => 1%Q
  | _ => (Z.of_nat (2 * matches (S (List.length a)) a b) # Pos.of_nat total)%Q
  end.

(** A block lies within sequences of lengths [la] and [lb]. *)
Definition fits (la lb : nat) (m : block) : Prop :=
  let '(i, j, k) := m in i + k <= la /\ j + k <= lb.

End SequenceMatcher.

Module Demo.

#[local] Open Scope N_scope.

(** Unicode on ASCII text: other characters are left as they are. *)
Definition demo_unicode : Unicode :=
  {| py_lower := List.map ascii_lower;
     nfkd := fun s => s;
     is_alnum := ascii_alnum |}.

(** Figures as the examples write them: a decimal numeral with an optional
    minus sign and an optional fraction; the text [inf] is the infinity
    that [int] refuses; anything else is not a number. *)
Fixpoint digits_value (acc : Z) (s : str) : option Z :=
  match s with
  | [] => Some acc
  | c :: r =>
      if is_digit c then digits_value (10 * acc + Z.of_N (c - 48)) r else None
  end.

Fixpoint until_dot (s : str) : str * str :=
  match s with
  | [] => ([], [])
  | c :: r =>
      if N.eqb c 46 then ([], r)
      else let '(a, b) := until_dot r in (c :: a, b)
  end.

(** sign, integer part, fraction digits and their number *)
Definition parse_decimal (s : str) : option (bool * Z * Z * nat) :=
  let '(negative, body) :=
    match s with
    | 45 :: r => (true, r)
    | _ => (false, s)
    end in
  let '(int_part, fraction) := until_dot body in
  match int_part with
  | [] => None
  | _ =>
      match digits_value 0 int_part, digits_value 0 fraction with
      | Some a, Some b => Some (negative, a, b, List.length fraction)
      | _, _ => None
      end
  end.

Definition demo_int_float (s : str) : parsed_int :=
  if str_eqb s (lit "inf") then IntOverflowError
  else match parse_decimal s with
       | Some (negative, a, _, _) => IntValue (if negative then - a else a)
       | None => IntValueError
       end.

Definition demo_float (s : str) : option R :=
  match parse_decimal s with
  | Some (negative, a, b, n) =>
      let magnitude := (IZR a + IZR b / IZR (10 ^ Z.of_nat n))%R in
      Some (if negative then (- magnitude)%R else magnitude)
  | None => None
  end.

Definition demo_numbers : Numbers :=
  {| py_int_float := demo_int_float; py_float := demo_float |}.

Definition demo_difflib : Difflib := {| ratio := SequenceMatcher.ratio |}.

(** Every word is its own lemma. *)
Definition demo_nltk : Nltk := {| lemmatize := fun w => w |}.

(** A stand-in for the vectorizer.  A query with the terms of a question
    (the stop word [the] apart) has the vector of that question, hence the
    cosine 1; a query without any term of the question has the cosine 0.
    A pair that shares only some terms, where the cosine lies in between,
    gets 0 here; the examples have no such pair. *)
Definition content_words (s : str) : list str :=
  List.filter (fun w => negb (str_eqb w (lit "the"))) (split s).

Definition demo_tfidf (questions : list str) (query : str) (idx : nat) : Q :=
  match nth_error questions idx with
  | Some q =>
      match content_words query with
      | [] => 0%Q
      | ws => if forallb (fun p => str_eqb (fst p) (snd p)) (combine ws (content_words q))
                 && Nat.eqb (List.length ws) (List.length (content_words q))
              then 1%Q else 0%Q
      end
  | None => 0%Q
  end.

Definition demo_sklearn : Sklearn := {| tfidf_similarity := demo_tfidf |}.

(** [str.title] and [str.capitalize] on ASCII text *)
Fixpoint title_from (in_word : bool) (s : str) : str :=
  match s with
  | [] => []
  | c :: r =>
      if (is_az c || is_AZ c)%bool
      then (if in_word then ascii_lower c else ascii_upper c) :: title_from true r
      else c :: title_from false r
  end.

Definition capitalize (s : str) : str :=
  match s with
  | [] => []
  | c :: r => ascii_upper c :: List.map ascii_lower r
  end.

(** A host without network and without chance.  Distances are printed as a
    mark, the text about a foreign city is its name, and the patterns of
    the place extractor find nothing: the examples do not reach them. *)
Definition demo_host : Host :=
  {| fetch_weather := fun _ => None;
     random_choice := fun _ => O;
     format_km := fun _ => lit "#.#";
     py_title := title_from false;
     py_upper := List.map ascii_upper;
     py_capitalize := capitalize;
     format_world_city_response := fun record => row_city record;
     re_search_between_from := fun _ => None;
     re_findall_tokens := fun _ => [];
     re_sub_ignorecase := fun _ text => text;
     re_split_delimiters := fun text => [text] |}.

(** ** Data of the examples *)

Definition row (city country lat lng admin capital population iso2 iso3 : string)
  : CityData :=
  {| row_city := lit city;
     row_city_ascii := lit city;
     row_country := lit country;
     row_lat := lit lat;
     row_lng := lit lng;
     row_admin_name := lit admin;
     row_capital := lit capital;
     row_population := lit population;
     row_iso2 := lit iso2;
     row_iso3 := lit iso3 |}.

Definition demo_rows : list CityData :=
  [ row "Rabat" "Morocco" "34.02" "-6.83" "Rabat-Sale-Kenitra" "primary" "572717" "MA" "MAR";
    row "Casablanca" "Morocco" "33.57" "-7.59" "Casablanca-Settat" "admin" "3499000" "MA" "MAR";
    row "Paris" "United States" "33.66" "-95.55" "Texas" "" "24782" "US" "USA";
    row "Paris" "France" "48.86" "2.35" "Ile-de-France" "primary" "11060000" "FR" "FRA";
    row "Victoria" "Canada" "48.43" "-123.37" "British Columbia" "admin" "365291" "CA" "CAN";
    row "Victoria" "Seychelles" "-4.62" "55.45" "English River" "primary" "365291" "SC" "SYC";
    row "Tokyo" "Japan" "35.69" "139.69" "Tokyo" "primary" "37732000" "JP" "JPN" ]%string.

Definition paris_texas : CityData :=
  row "Paris" "United States" "33.66" "-95.55" "Texas" "" "24782" "US" "USA".

Definition paris_france : CityData :=
  row "Paris" "France" "48.86" "2.35" "Ile-de-France" "primary" "11060000" "FR" "FRA".

(** a row whose population is the text of an infinity *)
Definition atlantis : CityData :=
  row "Atlantis" "Nowhere" "0" "0" "" "" "inf" "" "".

Definition qa (question answer city intent : string) : QA :=
  {| qa_question := lit question;
     qa_assistant := lit answer;
     qa_city := lit city;
     qa_intent := lit intent |}.

Definition demo_corpus : list QA :=
  [ qa "Weather" "Morocco is sunny most of the year." "" "ask_weather";
    qa "Where is the beach in Agadir?" "Agadir beach runs along the bay." "Agadir" "ask_beaches";
    qa "Morocco overview" "Morocco lies in the north-west of Africa." "" "general_morocco" ]%string.

Definition demo_retriever : Retriever :=
  {| qa_list := List.map (@derive demo_unicode) demo_corpus;
     city_detector := @CityDetector_init demo_unicode demo_numbers demo_rows |}.

(** the engine on this platform and this data *)
Definition answer (user_input : string) (top_k : Z) : outcome Answers :=
  @get_answer demo_unicode demo_numbers demo_difflib demo_nltk demo_sklearn demo_host
    demo_retriever (lit user_input) top_k.

Definition classify (user_input : string) : option str :=
  @_detect_intent demo_unicode demo_difflib demo_nltk (lit user_input).

Definition resolve_str : str -> option ResolvedPlace :=
  @find_city_coordinates demo_unicode demo_numbers demo_difflib
    (city_detector demo_retriever).

Definition resolve (city_name : string) : option ResolvedPlace :=
  resolve_str (lit city_name).


Definition tokyo : CityData :=
  row "Tokyo" "Japan" "35.69" "139.69" "Tokyo" "primary" "37732000" "JP" "JPN".

Definition demo_detector : CityDetector := city_detector demo_retriever.

(** the same detector over an empty corpus *)
Definition bare_retriever : Retriever :=
  {| qa_list := []; city_detector := demo_detector |}.

Definition answer_str (user_input : str) (top_k : Z) : outcome Answers :=
  @get_answer demo_unicode demo_numbers demo_difflib demo_nltk demo_sklearn demo_host
    demo_retriever user_input top_k.

(** figures printed with a mark, as the host of the examples prints distances *)
Definition demo_thousands (z : Z) : str := lit "#".
Definition demo_2f (x : R) : str := lit "#.##".

End Demo.

(* ================================================================== *)
(** * Properties of the text normalizer *)
(* ================================================================== *)

Section NormalizerFacts.

Context {U : Unicode}.

#[local] Open Scope N_scope.

Lemma lstrip_idem s : lstrip (lstrip s) = lstrip s.
Proof.
  induction s as [|c r IH]; simpl; auto.
  destruct (is_space c) eqn:E; auto.
  simpl. now rewrite E.
Qed.

Lemma rstrip_idem s : rstrip (rstrip s) = rstrip s.
Proof.
  induction s as [|c r IH]; simpl; auto.
  destruct (rstrip r) as [|d r'] eqn:E.
  - destruct (is_space c) eqn:Ec; simpl; auto. now rewrite Ec.
  - simpl in *. now rewrite IH.
Qed.

Lemma rstrip_lstrip_fixed s : rstrip s = s -> rstrip (lstrip s) = lstrip s.
Proof.
  induction s as [|c r IH]; simpl; auto.
  destruct (is_space c) eqn:Ec.
  - destruct (rstrip r) as [|d r'] eqn:E; intro H.
    + discriminate.
    + injection H as H. apply IH. exact H.
  - intro H. simpl. rewrite Ec. exact H.
Qed.

Lemma strip_idem s : strip (strip s) = strip s.
Proof.
  unfold strip.
  rewrite (rstrip_lstrip_fixed (rstrip s) (rstrip_idem s)).
  apply lstrip_idem.
Qed.

Lemma collapse_spaced b s : spaced_ok b (collapse_from b s) = true.
Proof.
  revert b. induction s as [|c r IH]; intro b; simpl; auto.
  destruct (is_space c) eqn:Ec.
  - destruct b; simpl; auto.
  - simpl. rewrite Ec. apply IH.
Qed.

Lemma collapse_fixed b s : spaced_ok b s = true -> collapse_from b s = s.
Proof.
  revert b. induction s as [|c r IH]; intro b; simpl; auto.
  destruct (is_space c) eqn:Ec.
  - rewrite !andb_true_iff. intros [[Hb Hc] Hr].
    apply negb_true_iff in Hb. subst b.
    apply N.eqb_eq in Hc. subst c.
    now rewrite (IH true Hr).
  - intro H. now rewrite (IH false H).
Qed.

Lemma lstrip_spaced b s : spaced_ok b s = true -> spaced_ok false (lstrip s) = true.
Proof.
  revert b. induction s as [|c r IH]; intro b; simpl; auto.
  destruct (is_space c) eqn:Ec.
  - rewrite !andb_true_iff. intros [_ Hr]. now apply (IH true).
  - intro H. simpl. now rewrite Ec.
Qed.

Lemma rstrip_spaced b s : spaced_ok b s = true -> spaced_ok b (rstrip s) = true.
Proof.
  revert b. induction s as [|c r IH]; intro b; simpl; auto.
  destruct (is_space c) eqn:Ec.
  - rewrite !andb_true_iff. intros [[Hb Hc] Hr].
    specialize (IH true Hr).
    destruct (rstrip r) as [|d r'] eqn:E; simpl; auto.
    rewrite Ec. simpl in IH. rewrite Hb, Hc. exact IH.
  - intro H. specialize (IH false H).
    destruct (rstrip r) as [|d r'] eqn:E; simpl; rewrite Ec; auto.
Qed.

Lemma lstrip_forallb (P : char -> bool) s :
  forallb P s = true -> forallb P (lstrip s) = true.
Proof.
  induction s as [|c r IH]; simpl; auto.
  rewrite andb_true_iff. intros [Hc Hr].
  destruct (is_space c); auto. simpl. now rewrite Hc, Hr.
Qed.

Lemma rstrip_forallb (P : char -> bool) s :
  forallb P s = true -> forallb P (rstrip s) = true.
Proof.
  induction s as [|c r IH]; simpl; auto.
  rewrite andb_true_iff. intros [Hc Hr]. specialize (IH Hr).
  destruct (rstrip r) as [|d r'] eqn:E.
  - destruct (is_space c); simpl; auto. now rewrite Hc.
  - change (forallb P (c :: d :: r') = true). simpl. simpl in IH. now rewrite Hc, IH.
Qed.

Lemma keep_norm_char c : keep_char c = true -> is_space c = false -> norm_char c = true.
Proof.
  unfold keep_char, norm_char. intros H Hs. rewrite Hs in H.
  rewrite orb_false_r in H. now rewrite H.
Qed.

Lemma collapse_norm_chars b s :
  forallb keep_char s = true -> forallb norm_char (collapse_from b s) = true.
Proof.
  revert b. induction s as [|c r IH]; intro b; simpl; auto.
  rewrite andb_true_iff. intros [Hc Hr].
  destruct (is_space c) eqn:Ec.
  - destruct b; [now apply IH|].
    change (forallb norm_char (collapse_from true r) = true). now apply IH.
  - simpl. rewrite (keep_norm_char c Hc Ec). now apply IH.
Qed.

Lemma filter_forallb (P : char -> bool) s : forallb P (List.filter P s) = true.
Proof.
  induction s as [|c r IH]; simpl; auto.
  destruct (P c) eqn:E; simpl; auto. now rewrite E.
Qed.

Lemma filter_fixed (P : char -> bool) s : forallb P s = true -> List.filter P s = s.
Proof.
  induction s as [|c r IH]; simpl; auto.
  rewrite andb_true_iff. intros [Hc Hr]. rewrite Hc. now rewrite IH.
Qed.

Lemma forallb_impl (P Q : char -> bool) s :
  (forall c, P c = true -> Q c = true) -> forallb P s = true -> forallb Q s = true.
Proof.
  intro H. induction s as [|c r IH]; simpl; auto.
  rewrite !andb_true_iff. intros [Hc Hr]. split; auto.
Qed.

Lemma in_range_spec lo hi c : in_range lo hi c = true <-> lo <= c <= hi.
Proof.
  unfold in_range. now rewrite andb_true_iff, !N.leb_le.
Qed.

Lemma norm_char_cases c :
  norm_char c = true ->
  is_ascii c = true /\ ascii_lower c = c /\ keep_char c = true /\ c <> 39.
Proof.
  unfold norm_char, is_az, is_digit.
  rewrite !orb_true_iff, !in_range_spec, N.eqb_eq.
  intro Hr.
  assert (HA : is_AZ c = false).
  { unfold is_AZ. destruct (in_range 65 90 c) eqn:E; auto.
    apply in_range_spec in E. lia. }
  repeat split.
  - apply N.ltb_lt. lia.
  - unfold ascii_lower. now rewrite HA.
  - unfold keep_char, is_az, is_digit.
    destruct Hr as [[Hr|Hr]|Hr].
    + apply in_range_spec in Hr. now rewrite Hr.
    + apply in_range_spec in Hr. rewrite Hr. now rewrite orb_true_r.
    + subst c. reflexivity.
  - lia.
Qed.

Lemma sub_possessive_fixed s :
  forallb norm_char s = true -> sub_possessive s = s.
Proof.
  induction s as [|c t IH]; simpl; auto.
  rewrite andb_true_iff. intros [Hc Ht].
  destruct t as [|c2 rest]; auto.
  destruct (norm_char_cases c Hc) as (_ & _ & _ & Hq).
  apply N.eqb_neq in Hq. rewrite Hq. simpl andb. cbv iota.
  f_equal. apply IH. exact Ht.
Qed.

Lemma map_lower_fixed s :
  forallb norm_char s = true -> List.map ascii_lower s = s.
Proof.
  induction s as [|c r IH]; simpl; auto.
  rewrite andb_true_iff. intros [Hc Hr].
  destruct (norm_char_cases c Hc) as (_ & Hl & _).
  now rewrite Hl, IH.
Qed.

(** The normalizer's result is in canonical form. *)
Lemma normalize_text_canonical x : canonical (normalize_text x).
Proof.
  unfold normalize_text, canonical, collapse_ws.
  set (t := List.filter keep_char _).
  assert (Ht : forallb keep_char t = true) by apply filter_forallb.
  repeat split.
  - unfold strip. apply lstrip_forallb, rstrip_forallb.
    now apply collapse_norm_chars.
  - unfold strip. apply lstrip_spaced with (b := false), rstrip_spaced.
    apply collapse_spaced.
  - apply strip_idem.
Qed.

(** A string in canonical form is left unchanged. *)
Lemma normalize_text_fixed (HU : UnicodeAscii U) y :
  canonical y -> normalize_text y = y.
Proof.
  intros (Hc & Hs & Hst).
  assert (Ha : forallb is_ascii y = true).
  { apply forallb_impl with (P := norm_char); auto.
    intros c H. now destruct (norm_char_cases c H). }
  assert (Hk : forallb keep_char y = true).
  { apply forallb_impl with (P := norm_char); auto.
    intros c H. now destruct (norm_char_cases c H) as (_ & _ & ? & _). }
  unfold normalize_text.
  rewrite (@py_lower_ascii U HU y Ha), (map_lower_fixed y Hc).
  rewrite (@nfkd_ascii U HU y Ha).
  unfold encode_ascii_ignore. rewrite (filter_fixed is_ascii y Ha).
  rewrite (sub_possessive_fixed y Hc).
  rewrite (filter_fixed keep_char y Hk).
  unfold collapse_ws. rewrite (collapse_fixed false y Hs).
  exact Hst.
Qed.

End NormalizerFacts.

(** C5. [normalize_text] is a total function on strings (empty strings,
    strings of emoji and strings of punctuation included): it returns a
    string in canonical form for every input, and it is idempotent,
    [normalize_text (normalize_text x) = normalize_text x]. *)
Theorem normalize_text_total_idempotent (U : Unicode) (HU : UnicodeAscii U) :
  forall x : str,
    (exists y, normalize_text x = y /\ canonical y) /\
    normalize_text (normalize_text x) = normalize_text x.
Proof.
  intro x. split.
  - exists (normalize_text x). split; [reflexivity | apply normalize_text_canonical].
  - apply normalize_text_fixed; [exact HU | apply normalize_text_canonical].
Qed.

(* ================================================================== *)
(** * Strings and dictionaries *)
(* ================================================================== *)

Lemma str_eqb_eq a b : str_eqb a b = true <-> a = b.
Proof.
  revert b. induction a as [|x a IH]; intros [|y b]; simpl; split; try easy.
  - rewrite andb_true_iff, N.eqb_eq, IH. now intros [-> ->].
  - intro H. injection H as -> ->. rewrite andb_true_iff, N.eqb_eq, IH. auto.
Qed.

Lemma str_eqb_refl a : str_eqb a a = true.
Proof. now apply str_eqb_eq. Qed.

Lemma str_eqb_neq a b : str_eqb a b = false <-> a <> b.
Proof.
  split.
  - intros H E. apply str_eqb_eq in E. congruence.
  - intro H. destruct (str_eqb a b) eqn:E; auto. apply str_eqb_eq in E. contradiction.
Qed.

Lemma dict_get_set_same {V} k (v : V) d : dict_get k (dict_set k v d) = Some v.
Proof.
  induction d as [|[k' v'] r IH]; simpl.
  - now rewrite str_eqb_refl.
  - destruct (str_eqb k k') eqn:E; simpl; rewrite E; auto.
Qed.

Lemma dict_get_set_other {V} k k2 (v : V) d :
  k2 <> k -> dict_get k2 (dict_set k v d) = dict_get k2 d.
Proof.
  intro Hne. induction d as [|[k' v'] r IH]; simpl.
  - apply str_eqb_neq in Hne. now rewrite Hne.
  - destruct (str_eqb k k') eqn:E; simpl.
    + apply str_eqb_eq in E. subst k'.
      apply str_eqb_neq in Hne. now rewrite Hne.
    + now rewrite IH.
Qed.

(* ================================================================== *)
(** * The gazetteer loader *)
(* ================================================================== *)

Section GazetteerFacts.

Context {U : Unicode} {Nm : Numbers}.

#[local] Open Scope Z_scope.

Lemma population_or_zero_returns s z :
  population_or_zero s = Returns z ->
  z = match parse_population s with IntValue v => v | _ => 0 end.
Proof.
  unfold population_or_zero. destruct (parse_population s); congruence.
Qed.

Lemma best_at_snoc_other rows k i r row :
  best_at rows k i r -> (has_city row -> norm_name row <> k) ->
  best_at (rows ++ [row]) k i r.
Proof.
  intros (Hn & Hc & Hk & Hb) Hrow. repeat split; auto.
  - rewrite nth_error_app1; auto. apply nth_error_Some. congruence.
  - destruct (Nat.lt_ge_cases j (List.length rows)) as [Hj|Hj].
    + rewrite nth_error_app1 in H by exact Hj. now apply (Hb j r').
    + rewrite nth_error_app2 in H by exact Hj.
      destruct (j - List.length rows)%nat as [|n]; simpl in H.
      * injection H as <-. now elim (Hrow H0).
      * now destruct n.
  - destruct (Nat.lt_ge_cases j (List.length rows)) as [Hj|Hj].
    + rewrite nth_error_app1 in H by exact Hj. now apply (Hb j r').
    + rewrite nth_error_app2 in H by exact Hj.
      destruct (j - List.length rows)%nat as [|n]; simpl in H.
      * injection H as <-. now elim (Hrow H0).
      * now destruct n.
Qed.

Lemma nth_error_snoc_cases {A} (l : list A) x j y :
  nth_error (l ++ [x]) j = Some y ->
  nth_error l j = Some y \/ (j = List.length l /\ y = x).
Proof.
  intro H. destruct (Nat.lt_ge_cases j (List.length l)) as [Hj|Hj].
  - left. now rewrite nth_error_app1 in H.
  - right. rewrite nth_error_app2 in H by exact Hj.
    destruct (j - List.length l)%nat as [|n] eqn:E; simpl in H.
    + injection H as <-. split; auto. lia.
    + now destruct n.
Qed.

Lemma nth_error_snoc_last {A} (l : list A) x :
  nth_error (l ++ [x]) (List.length l) = Some x.
Proof.
  rewrite nth_error_app2 by lia. now rewrite Nat.sub_diag.
Qed.

Lemma load_row_ok rows st row st' :
  loaded_ok rows (ld_cities st) ->
  load_row st row = Returns st' ->
  loaded_ok (rows ++ [row]) (ld_cities st').
Proof.
  intros Hinv Hstep. unfold load_row in Hstep.
  destruct (strip (row_city row)) as [|c0 cs] eqn:Ecity.
  - (* blank city name: the dictionary is unchanged *)
    injection Hstep as <-. simpl. intro k. specialize (Hinv k).
    destruct (dict_get k (ld_cities st)) as [v|].
    + destruct Hinv as (i & r & Hb & Hv). exists i, r. split; auto.
      apply best_at_snoc_other; [exact Hb|]. intro Hc. now elim Hc.
    + intros r Hin Hc. apply in_app_or in Hin. destruct Hin as [Hin|[<-|[]]].
      * now apply Hinv.
      * now elim Hc.
  - assert (Hrow : has_city row) by (unfold has_city; congruence).
    destruct (population_or_zero (row_population row)) as [pop|] eqn:Epop;
      [|discriminate].
    simpl in Hstep.
    apply population_or_zero_returns in Epop.
    fold (row_pop row) in Epop.
    destruct (dict_get (norm_name row) (ld_cities st)) as [existing|] eqn:Eget.
    + (* the key is present *)
      destruct (population_or_zero (row_population existing)) as [epop|] eqn:Eex;
        [|discriminate].
      simpl in Hstep.
      apply population_or_zero_returns in Eex.
      pose proof (Hinv (norm_name row)) as Hk. rewrite Eget in Hk.
      destruct Hk as (i & r & Hb & Hv).
      assert (Hepop : epop = row_pop r).
      { rewrite Eex, Hv. reflexivity. }
      destruct (epop <? pop) eqn:Elt.
      * (* larger population: the row replaces the stored one *)
        apply Z.ltb_lt in Elt.
        injection Hstep as <-. simpl. intro k.
        destruct (list_eq_dec N.eq_dec k (norm_name row)) as [->|Hne].
        -- rewrite dict_get_set_same.
           exists (List.length rows), row. split; auto.
           repeat split; auto.
           ++ apply nth_error_snoc_last.
           ++ apply nth_error_snoc_cases in H. destruct H as [H|[_ ->]]; [|lia].
              destruct Hb as (_ & _ & _ & Hb). destruct (Hb j r' H H0 H1). lia.
           ++ intro Heq. apply nth_error_snoc_cases in H. destruct H as [H|[-> _]]; [|lia].
              destruct Hb as (_ & _ & _ & Hb). destruct (Hb j r' H H0 H1). lia.
        -- rewrite dict_get_set_other by exact Hne.
           specialize (Hinv k).
           destruct (dict_get k (ld_cities st)) as [v|].
           ++ destruct Hinv as (i' & r1 & Hb' & Hv'). exists i', r1. split; auto.
              apply best_at_snoc_other; [exact Hb'|]. intros _. congruence.
           ++ intros r1 Hin Hc. apply in_app_or in Hin. destruct Hin as [Hin|[<-|[]]].
              ** now apply Hinv.
              ** congruence.
      * (* not larger: the stored row stays *)
        apply Z.ltb_ge in Elt.
        injection Hstep as <-. simpl. intro k.
        destruct (list_eq_dec N.eq_dec k (norm_name row)) as [->|Hne].
        -- rewrite Eget. exists i, r. split; auto.
           destruct Hb as (Hn & Hc & Hkk & Hb). repeat split; auto.
           ++ rewrite nth_error_app1; auto. apply nth_error_Some. congruence.
           ++ apply nth_error_snoc_cases in H. destruct H as [H|[_ ->]].
              ** now destruct (Hb j r' H H0 H1).
              ** lia.
           ++ intro Heq. apply nth_error_snoc_cases in H. destruct H as [H|[-> _]].
              ** destruct (Hb j r' H H0 H1). auto.
              ** apply Nat.lt_le_incl. apply nth_error_Some. congruence.
        -- specialize (Hinv k).
           destruct (dict_get k (ld_cities st)) as [v|].
           ++ destruct Hinv as (i' & r1 & Hb' & Hv'). exists i', r1. split; auto.
              apply best_at_snoc_other; [exact Hb'|]. intros _. congruence.
           ++ intros r1 Hin Hc. apply in_app_or in Hin. destruct Hin as [Hin|[<-|[]]].
              ** now apply Hinv.
              ** congruence.
    + (* a new key *)
      injection Hstep as <-. simpl. intro k.
      destruct (list_eq_dec N.eq_dec k (norm_name row)) as [->|Hne].
      * rewrite dict_get_set_same.
        exists (List.length rows), row. split; auto.
        pose proof (Hinv (norm_name row)) as Hk. rewrite Eget in Hk.
        repeat split; auto.
        -- apply nth_error_snoc_last.
        -- apply nth_error_snoc_cases in H. destruct H as [H|[_ ->]]; [|lia].
           apply nth_error_In in H. now elim (Hk r' H H0).
        -- intro Heq. apply nth_error_snoc_cases in H. destruct H as [H|[-> _]]; [|lia].
           apply nth_error_In in H. now elim (Hk r' H H0).
      * rewrite dict_get_set_other by exact Hne.
        specialize (Hinv k).
        destruct (dict_get k (ld_cities st)) as [v|].
        -- destruct Hinv as (i' & r1 & Hb' & Hv'). exists i', r1. split; auto.
           apply best_at_snoc_other; [exact Hb'|]. intros _. congruence.
        -- intros r1 Hin Hc. apply in_app_or in Hin. destruct Hin as [Hin|[<-|[]]].
           ++ now apply Hinv.
           ++ congruence.
Qed.

Lemma load_rows_ok done st rows st' :
  loaded_ok done (ld_cities st) ->
  load_rows st rows = (st', None) ->
  loaded_ok (done ++ rows) (ld_cities st').
Proof.
  revert done st. induction rows as [|row rest IH]; intros done st Hinv Hrun; simpl in Hrun.
  - injection Hrun as <-. now rewrite app_nil_r.
  - destruct (load_row st row) as [st1|e] eqn:Estep; [|discriminate].
    replace (done ++ row :: rest) with ((done ++ [row]) ++ rest)
      by (now rewrite <- app_assoc).
    apply IH with (st := st1); auto.
    now apply load_row_ok with (st := st).
Qed.

End GazetteerFacts.

(** When the loader reads the rows to the end, every key of the mapping
    holds the row with the largest population among the rows of that key,
    and of several rows with that population the one seen first. *)
Lemma complete_load_keeps_largest_population (U : Unicode) (Nm : Numbers) :
  forall (rows : list CityData) (cities : dict CityData) (countries : list str),
    _load_global_cities rows = (cities, Some countries) ->
    forall i r,
      nth_error rows i = Some r -> has_city r ->
      exists i0 r0,
        dict_get (norm_name r) cities = Some (stored_record r0) /\
        nth_error rows i0 = Some r0 /\ has_city r0 /\ norm_name r0 = norm_name r /\
        forall j r',
          nth_error rows j = Some r' -> has_city r' -> norm_name r' = norm_name r ->
          (row_pop r' <= row_pop r0)%Z /\ (row_pop r' = row_pop r0 -> i0 <= j).
Proof.
  intros rows cities countries Hload i r Hi Hc.
  unfold _load_global_cities in Hload.
  destruct (load_rows {| ld_cities := []; ld_countries := [] |} rows) as [st [e|]] eqn:Erun;
    [discriminate|].
  injection Hload as <- _.
  assert (Hok : loaded_ok rows (ld_cities st)).
  { apply load_rows_ok with (done := []) in Erun; [exact Erun|].
    intro k. simpl. intros r0 []. }
  specialize (Hok (norm_name r)).
  destruct (dict_get (norm_name r) (ld_cities st)) as [v|].
  - destruct Hok as (i0 & r0 & (Hn & Hc0 & Hk & Hb) & ->).
    exists i0, r0. repeat split; auto; now apply (Hb j r').
  - apply nth_error_In in Hi. now elim (Hok r Hi Hc).
Qed.

(* ================================================================== *)
(** * The sequence matcher stays within bounds *)
(* ================================================================== *)

Module SequenceMatcherFacts.
Import SequenceMatcher.

Lemma common_prefix_le a b :
  common_prefix a b <= List.length a /\ common_prefix a b <= List.length b.
Proof.
  revert b. induction a as [|x a IH]; intros [|y b]; simpl; try lia.
  destruct (N.eqb x y); [|lia]. destruct (IH b). lia.
Qed.

Lemma scan_b_fits la lb ai b i j best :
  i + List.length ai = la -> j + List.length b = lb ->
  fits la lb best -> fits la lb (scan_b ai b i j best).
Proof.
  revert j best. induction b as [|y b IH]; intros j best Hi Hj Hbest; simpl; auto.
  apply IH; simpl in *; try lia.
  destruct (block_size best <? common_prefix ai (y :: b)); auto.
  destruct (common_prefix_le ai (y :: b)) as [H1 H2]. simpl in *. lia.
Qed.

Lemma scan_a_fits la lb a b i best :
  i + List.length a = la -> List.length b = lb ->
  fits la lb best -> fits la lb (scan_a a b i best).
Proof.
  revert i best. induction a as [|x a IH]; intros i best Hi Hj Hbest; simpl; auto.
  apply IH; simpl in *; try lia.
  apply scan_b_fits; simpl; auto.
Qed.

Lemma find_longest_match_fits a b :
  fits (List.length a) (List.length b) (find_longest_match a b).
Proof.
  apply scan_a_fits; simpl; auto. lia.
Qed.

Lemma matches_le fuel a b :
  matches fuel a b <= List.length a /\ matches fuel a b <= List.length b.
Proof.
  revert a b. induction fuel as [|fuel IH]; intros a b; simpl; [lia|].
  pose proof (find_longest_match_fits a b) as Hf.
  destruct (find_longest_match a b) as [[i j] k]. simpl in Hf.
  destruct k as [|k]; [lia|].
  destruct (IH (firstn i a) (firstn j b)) as [L1 L2].
  destruct (IH (skipn (i + S k) a) (skipn (j + S k) b)) as [R1 R2].
  rewrite length_firstn in L1, L2. rewrite length_skipn in R1, R2. lia.
Qed.

Lemma pos_of_nat_Z n : n <> 0 -> Z.pos (Pos.of_nat n) = Z.of_nat n.
Proof.
  destruct n as [|n]; [easy|]. intros _.
  rewrite <- Pos.of_nat_succ, Zpos_P_of_succ_nat. now rewrite Nat2Z.inj_succ.
Qed.

Lemma ratio_bounds a b : (0 <= ratio a b /\ ratio a b <= 1)%Q.
Proof.
  unfold ratio.
  destruct (List.length a + List.length b) as [|t] eqn:Et.
  - split; [discriminate | apply Qle_refl].
  - destruct (matches_le (S (List.length a)) a b) as [Ha Hb].
    unfold Qle; cbn [Qnum Qden].
    rewrite (pos_of_nat_Z (S t)) by discriminate.
    split; lia.
Qed.

End SequenceMatcherFacts.

(* ================================================================== *)
(** * Sorting in descending order *)
(* ================================================================== *)

Section SortFacts.

Context {A K : Type} (key : A -> K) (ltb : K -> K -> bool).

Lemma insert_desc_in x y l : In y (insert_desc key ltb x l) -> y = x \/ In y l.
Proof.
  induction l as [|z r IH]; simpl.
  - intros [<-|[]]. now left.
  - destruct (ltb (key x) (key z)); simpl.
    + intros [<-|Hin]; auto. destruct (IH Hin); auto.
    + intros [<-|[<-|Hin]]; auto.
Qed.

Lemma sorted_desc_in y l : In y (sorted_desc key ltb l) -> In y l.
Proof.
  induction l as [|x r IH]; simpl; auto.
  intro Hin. apply insert_desc_in in Hin. destruct Hin; auto.
Qed.

End SortFacts.

Lemma filter_some_in {A B} (f : A -> option B) l y :
  In y (filter_some f l) -> exists x, In x l /\ f x = Some y.
Proof.
  induction l as [|x r IH]; simpl; [easy|].
  destruct (f x) as [z|] eqn:E.
  - intros [<-|Hin].
    + exists x. auto.
    + destruct (IH Hin) as (x' & ? & ?). exists x'. auto.
  - intro Hin. destruct (IH Hin) as (x' & ? & ?). exists x'. auto.
Qed.

(* ================================================================== *)
(** * The coordinate resolver *)
(* ================================================================== *)

Section ResolverFacts.

Context {U : Unicode} {Nm : Numbers} {D : Difflib}.

#[local] Open Scope Q_scope.

Lemma resolved_score city_name v score r :
  resolved city_name v score = Some r -> rp_score r = score.
Proof.
  unfold resolved.
  destruct (parse_coordinate (row_lat v)); [|discriminate].
  destruct (parse_coordinate (row_lng v)); [|discriminate].
  now intros [= <-].
Qed.

Lemma candidate_of_threshold query m t item c :
  candidate_of query m t item = Some c -> t <= cand_score c.
Proof.
  unfold candidate_of. destruct item as [norm_key v].
  match goal with |- (if Qle_bool t ?s then _ else _) = _ -> _ => set (score := s) end.
  destruct (Qle_bool t score) eqn:E; [|discriminate].
  intros [= <-]. unfold cand_score. simpl. now apply Qle_bool_iff.
Qed.

Lemma pick_best_in pool c : pick_best pool = Some c -> In c pool.
Proof.
  unfold pick_best. intro Hp.
  apply sorted_desc_in with (key := fun c => (cand_score c, cand_pop c)) (ltb := key_ltb).
  destruct (sorted_desc _ key_ltb pool) as [|x r]; [discriminate|].
  injection Hp as <-. now left.
Qed.

Lemma dynamic_threshold_ge (n : nat) :
  CITY_MATCH_THRESHOLD <= (if (n <=? 5)%nat then 90 # 100 else CITY_MATCH_THRESHOLD).
Proof.
  destruct (n <=? 5)%nat; unfold CITY_MATCH_THRESHOLD; [|apply Qle_refl].
  unfold Qle. simpl. lia.
Qed.

(** Whatever the resolver returns was matched exactly (score 1) or passed
    the threshold of the fuzzy search (0.90 or 0.80). *)
Lemma find_city_coordinates_confident det city_name r :
  find_city_coordinates det city_name = Some r ->
  CITY_MATCH_THRESHOLD <= rp_score r.
Proof.
  unfold find_city_coordinates.
  destruct (negb (nonempty city_name)); [discriminate|].
  destruct (dict_get (normalize_text city_name) (global_cities det)) as [data|].
  - intro Hr. apply resolved_score in Hr. rewrite Hr.
    unfold CITY_MATCH_THRESHOLD, Qle. simpl. lia.
  - set (m := match detect_moroccan_city det city_name with Some _ => true | None => false end).
    set (t := if (List.length (normalize_text city_name) <=? 5)%nat
              then 90 # 100 else CITY_MATCH_THRESHOLD).
    set (cands := filter_some (candidate_of (normalize_text city_name) m t) (global_cities det)).
    assert (Hc : forall c, In c cands -> CITY_MATCH_THRESHOLD <= cand_score c).
    { intros c Hin. apply filter_some_in in Hin. destruct Hin as (item & _ & Hitem).
      apply candidate_of_threshold in Hitem.
      eapply Qle_trans; [apply dynamic_threshold_ge | exact Hitem]. }
    assert (Hchosen : forall c,
               match pick_best (List.filter (fun c => (50000 <=? cand_pop c)%Z) cands) with
               | Some c => Some c
               | None => pick_best (List.filter (fun c => (cand_pop c <? 50000)%Z) cands)
               end = Some c -> In c cands).
    { intros c. destruct (pick_best (List.filter _ cands)) as [c1|] eqn:E1.
      - intros [= <-]. apply pick_best_in in E1. now apply filter_In in E1.
      - intro E2. apply pick_best_in in E2. now apply filter_In in E2. }
    destruct (match pick_best (List.filter (fun c => (50000 <=? cand_pop c)%Z) cands) with
              | Some c => Some c
              | None => pick_best (List.filter (fun c => (cand_pop c <? 50000)%Z) cands)
              end) as [[[[k v] s] p]|] eqn:Ech; [|discriminate].
    intro Hr. apply resolved_score in Hr. rewrite Hr.
    apply (Hc (k, v, s, p)). now apply Hchosen.
Qed.

End ResolverFacts.

(* ================================================================== *)
(** * Distance between two cities *)
(* ================================================================== *)

Section HaversineFacts.

#[local] Open Scope R_scope.

Lemma sin_half_diff_sqr a b : sin ((a - b) / 2) ^ 2 = sin ((b - a) / 2) ^ 2.
Proof.
  replace ((a - b) / 2) with (- ((b - a) / 2)) by lra.
  rewrite sin_neg. ring.
Qed.

Lemma haversine_distance_sym lat1 lon1 lat2 lon2 :
  haversine_distance lat1 lon1 lat2 lon2 = haversine_distance lat2 lon2 lat1 lon1.
Proof.
  unfold haversine_distance. cbv zeta.
  rewrite (sin_half_diff_sqr (radians lat2) (radians lat1)).
  rewrite (sin_half_diff_sqr (radians lon2) (radians lon1)).
  rewrite (Rmult_comm (cos (radians lat1)) (cos (radians lat2))).
  reflexivity.
Qed.

Lemma atan2_0_1 : atan2 0 1 = 0.
Proof.
  unfold atan2. destruct (Rlt_dec 0 1) as [_|Hn]; [|exfalso; apply Hn; lra].
  replace (0 / 1) with 0 by lra. apply atan_0.
Qed.

Lemma haversine_distance_same lat lon : haversine_distance lat lon lat lon = 0.
Proof.
  unfold haversine_distance. cbv zeta.
  replace ((radians lat - radians lat) / 2) with 0 by lra.
  replace ((radians lon - radians lon) / 2) with 0 by lra.
  rewrite sin_0.
  replace (0 ^ 2 + cos (radians lat) * cos (radians lat) * 0 ^ 2) with 0 by ring.
  rewrite sqrt_0. replace (1 - 0) with 1 by lra. rewrite sqrt_1, atan2_0_1. ring.
Qed.

End HaversineFacts.

Section DistanceFacts.

Context {U : Unicode} {H : Host}.

#[local] Open Scope Q_scope.

Lemma nonempty_true {s} : s <> [] -> nonempty s = true.
Proof. destruct s; [congruence | reflexivity]. Qed.

(** The reply for two names that resolve. *)
Lemma distance_reply_resolved det find {a b pa pb} :
  a <> [] -> b <> [] -> find a = Some pa -> find b = Some pb ->
  distance_reply det find a b =
    if Qlt_le_dec (rp_score pa) CITY_MATCH_THRESHOLD
    then DidYouMean (display_of (rp_name pa) (rp_country pa))
    else if Qlt_le_dec (rp_score pb) CITY_MATCH_THRESHOLD
    then DidYouMean (display_of (rp_name pb) (rp_country pb))
    else DistanceIs
           (negb (in_morocco det (rp_name pa) (rp_country pa)
                  && in_morocco det (rp_name pb) (rp_country pb)))
           (rp_name pa) (rp_name pb)
           (haversine_distance (rp_lat pa) (rp_lng pa) (rp_lat pb) (rp_lng pb)).
Proof.
  intros Ha Hb Fa Fb. unfold distance_reply.
  rewrite (nonempty_true Ha), (nonempty_true Hb), Fa, Fb. reflexivity.
Qed.

(** A distance in the reply means that both names resolved with
    confidence. *)
Lemma distance_reply_distance det find a b {o na nb d} :
  distance_reply det find a b = DistanceIs o na nb d ->
  exists pa pb,
    a <> [] /\ b <> [] /\ find a = Some pa /\ find b = Some pb /\
    CITY_MATCH_THRESHOLD <= rp_score pa /\ CITY_MATCH_THRESHOLD <= rp_score pb /\
    o = negb (in_morocco det (rp_name pa) (rp_country pa)
              && in_morocco det (rp_name pb) (rp_country pb)) /\
    na = rp_name pa /\ nb = rp_name pb /\
    d = haversine_distance (rp_lat pa) (rp_lng pa) (rp_lat pb) (rp_lng pb).
Proof.
  unfold distance_reply.
  destruct a as [|ca a']; [discriminate|]. destruct b as [|cb b']; [discriminate|].
  cbn [nonempty negb orb].
  destruct (find (ca :: a')) as [pa|]; [|discriminate].
  destruct (find (cb :: b')) as [pb|]; [|discriminate].
  destruct (Qlt_le_dec (rp_score pa) CITY_MATCH_THRESHOLD) as [|La]; [discriminate|].
  destruct (Qlt_le_dec (rp_score pb) CITY_MATCH_THRESHOLD) as [|Lb]; [discriminate|].
  intros [= <- <- <- <-]. exists pa, pb. repeat split; auto; discriminate.
Qed.

End DistanceFacts.



(** C4. A place returned by [find_city_coordinates] has a confidence of at
    least 0.80: an exact key match has score 1, and a fuzzy candidate
    passed the threshold 0.90 or 0.80.  With this resolver
    [get_city_distance] therefore never takes its low-confidence branch. *)
Theorem resolver_confidence_at_least_threshold
    (U : Unicode) (Nm : Numbers) (D : Difflib) (H : Host) (det : CityDetector) :
  (forall city_name r,
      find_city_coordinates det city_name = Some r ->
      (80 # 100 <= rp_score r)%Q /\
      (forall data, dict_get (normalize_text city_name) (global_cities det) = Some data ->
                    rp_score r = 1%Q)) /\
  (forall city_a city_b display,
      distance_reply det (find_city_coordinates det) city_a city_b <> DidYouMean display).
Proof.
  split.
  - intros city_name r Hr. split.
    + now apply find_city_coordinates_confident in Hr.
    + intros data Hd. unfold find_city_coordinates in Hr.
      destruct (negb (nonempty city_name)); [discriminate|].
      rewrite Hd in Hr. now apply resolved_score in Hr.
  - intros a b display. unfold distance_reply.
    destruct (negb (nonempty a) || negb (nonempty b))%bool; [discriminate|].
    destruct (find_city_coordinates det a) as [pa|] eqn:Fa; [|discriminate].
    destruct (find_city_coordinates det b) as [pb|] eqn:Fb; [|discriminate].
    apply find_city_coordinates_confident in Fa, Fb.
    destruct (Qlt_le_dec (rp_score pa) CITY_MATCH_THRESHOLD) as [La|_].
    { exfalso. apply (Qlt_not_le _ _ La Fa). }
    destruct (Qlt_le_dec (rp_score pb) CITY_MATCH_THRESHOLD) as [Lb|_].
    { exfalso. apply (Qlt_not_le _ _ Lb Fb). }
    discriminate.
Qed.

(** C9. The haversine formula gives the same distance when the two points
    are exchanged, and 0 for a point and itself; and when
    [get_city_distance] computes a distance for (A, B), it computes the
    same distance for (B, A): the two replies differ only in the order of
    the two city names. *)
Theorem city_distance_symmetric (U : Unicode) (H : Host) :
  (forall lat1 lon1 lat2 lon2,
      haversine_distance lat1 lon1 lat2 lon2 = haversine_distance lat2 lon2 lat1 lon1) /\
  (forall lat lon, haversine_distance lat lon lat lon = 0%R) /\
  (forall (det : CityDetector) (find : str -> option ResolvedPlace)
          (a b : str) outside name_a name_b dist,
      distance_reply det find a b = DistanceIs outside name_a name_b dist ->
      distance_reply det find b a = DistanceIs outside name_b name_a dist /\
      get_city_distance_with det find a b
        = render (DistanceIs outside name_a name_b dist) /\
      get_city_distance_with det find b a
        = render (DistanceIs outside name_b name_a dist)).
Proof.
  split; [exact haversine_distance_sym|].
  split; [exact haversine_distance_same|].
  intros det find a b o na nb d Hab.
  assert (Hba : distance_reply det find b a = DistanceIs o nb na d).
  { destruct (distance_reply_distance det find a b Hab)
      as (pa & pb & Ha & Hb & Fa & Fb & La & Lb & -> & -> & -> & ->).
    rewrite (distance_reply_resolved det find Hb Ha Fb Fa).
    destruct (Qlt_le_dec (rp_score pb) CITY_MATCH_THRESHOLD) as [Lb'|_].
    { exfalso. apply (Qlt_not_le _ _ Lb' Lb). }
    destruct (Qlt_le_dec (rp_score pa) CITY_MATCH_THRESHOLD) as [La'|_].
    { exfalso. apply (Qlt_not_le _ _ La' La). }
    rewrite andb_comm. f_equal. apply haversine_distance_sym. }
  unfold get_city_distance_with. rewrite Hab, Hba. auto.
Qed.

(* ================================================================== *)
(** * The intent classifier *)
(* ================================================================== *)

Section IntentFacts.

Context {U : Unicode} {D : Difflib} {L : Nltk}.

Lemma any_keyword_existsb test kws : any_keyword test kws = existsb test kws.
Proof.
  induction kws as [|kw r IH]; simpl; auto.
  destruct (test kw); auto.
Qed.

Lemma first_category_find test table :
  first_category test table =
  option_map fst
    (List.find (fun p => existsb test (snd p))
       (List.filter (fun p => negb (promoted (fst p))) table)).
Proof.
  induction table as [|[i kws] r IH]; simpl; auto.
  destruct (promoted i); simpl; auto.
  rewrite any_keyword_existsb. destruct (existsb test kws); auto.
Qed.

Lemma _detect_intent_cascade user_input :
  let query := normalize_text user_input in
  _detect_intent user_input =
    if category_hits (troll_hit query (lemmatize_text query)) "joke_or_troll"
    then Some (lit "joke_or_troll")
    else if category_hits (keyword_hit query (lemmatize_text query)) "ask_distance"
    then Some (lit "ask_distance")
    else if category_hits (keyword_hit query (lemmatize_text query)) "ask_weather"
    then Some (lit "ask_weather")
    else first_remaining (plain_or_expanded_hit query).
Proof.
  intro query. unfold _detect_intent, detect_intent_in, category_hits, first_remaining,
    remaining_categories, plain_or_expanded_hit.
  fold query. rewrite !any_keyword_existsb, first_category_find. reflexivity.
Qed.

(** Containment of one [joke_or_troll] keyword in the query decides. *)
Lemma troll_hit_by_containment user_input kw :
  In kw (keywords_of intent_keywords (lit "joke_or_troll")) ->
  contains (normalize_text kw) (normalize_text user_input) = true ->
  _detect_intent user_input = Some (lit "joke_or_troll").
Proof.
  intros Hin Hc. rewrite _detect_intent_cascade. cbv zeta.
  replace (category_hits _ "joke_or_troll") with true; [reflexivity|].
  symmetry. apply existsb_exists. exists kw. split; [exact Hin|].
  unfold troll_hit. now rewrite Hc.
Qed.

End IntentFacts.


(* ================================================================== *)
(** * Blank input *)
(* ================================================================== *)

Lemma rstrip_blank s : forallb is_space s = true -> rstrip s = [].
Proof.
  induction s as [|c r IH]; simpl; auto.
  rewrite andb_true_iff. intros [Hc Hr]. now rewrite (IH Hr), Hc.
Qed.

Lemma strip_blank s : forallb is_space s = true -> strip s = [].
Proof.
  intro Hs. unfold strip. now rewrite (rstrip_blank s Hs).
Qed.

(** C10. For an input that is empty or made of whitespace only,
    [get_answer] returns, without raising, the list of the one pair
    ("Please ask a question.", 0.0). *)
Theorem blank_input_prompt
    (U : Unicode) (Nm : Numbers) (D : Difflib) (L : Nltk) (Sk : Sklearn) (H : Host)
    (rt : Retriever) (user_input : str) (top_k : Z) :
  forallb is_space user_input = true ->
  get_answer rt user_input top_k = Returns [(lit "Please ask a question.", 0%Q)].
Proof.
  intro Hs. unfold get_answer. now rewrite (strip_blank user_input Hs).
Qed.

(* ================================================================== *)
(** * Ranked answers *)
(* ================================================================== *)

Section RankingFacts.

#[local] Open Scope Q_scope.

Lemma score_ltb_true a b : score_ltb a b = true -> a <= b.
Proof.
  unfold score_ltb. destruct (Qcompare a b) eqn:E; try discriminate.
  intros _. apply Qlt_le_weak. now apply Qlt_alt.
Qed.

Lemma score_ltb_false a b : score_ltb a b = false -> b <= a.
Proof.
  unfold score_ltb. destruct (Qcompare a b) eqn:E; try discriminate; intros _.
  - apply Qeq_alt in E. rewrite E. apply Qle_refl.
  - apply Qlt_le_weak. apply Qgt_alt in E. exact E.
Qed.

Lemma insert_by_score_descending x l :
  descending l -> descending (insert_desc snd score_ltb x l).
Proof.
  unfold descending. induction l as [|y r IH]; intro Hl; simpl.
  - constructor; constructor.
  - inversion Hl as [|? ? Hr Hy]; subst.
    destruct (score_ltb (snd x) (snd y)) eqn:E.
    + constructor; [now apply IH|].
      apply Forall_forall. intros z Hz. apply insert_desc_in in Hz.
      destruct Hz as [->|Hz].
      * now apply score_ltb_true.
      * rewrite Forall_forall in Hy. now apply Hy.
    + constructor; [exact Hl|].
      apply score_ltb_false in E.
      constructor; [exact E|].
      apply Forall_forall. intros z Hz. rewrite Forall_forall in Hy.
      eapply Qle_trans; [apply (Hy z Hz) | exact E].
Qed.

Lemma sort_by_score_descending l : descending (sort_by_score l).
Proof.
  unfold sort_by_score. induction l as [|x r IH]; simpl.
  - constructor.
  - now apply insert_by_score_descending.
Qed.

Lemma firstn_descending n l : descending l -> descending (firstn n l).
Proof.
  unfold descending. revert l. induction n as [|n IH]; intros l Hl; simpl.
  - constructor.
  - destruct l as [|x r]; [constructor|].
    inversion Hl as [|? ? Hr Hx]; subst.
    constructor; [now apply IH|].
    apply Forall_forall. intros z Hz. rewrite Forall_forall in Hx.
    apply Hx. eapply (In_nth_error _ _) in Hz. destruct Hz as [i Hi].
    apply nth_error_In with (n := i).
    rewrite nth_error_firstn in Hi. destruct (i <? n)%nat; [exact Hi|discriminate].
Qed.

Lemma slice_to_descending k l : descending l -> descending (slice_to k l).
Proof.
  unfold slice_to. destruct (0 <=? k)%Z; apply firstn_descending.
Qed.

Lemma firstn_in {A} n (l : list A) x : In x (firstn n l) -> In x l.
Proof.
  revert l. induction n as [|n IH]; intros [|y r]; simpl; try easy.
  intros [->|Hin]; auto.
Qed.

Lemma slice_to_in {A} k (l : list A) x : In x (slice_to k l) -> In x l.
Proof.
  unfold slice_to. destruct (0 <=? k)%Z; apply firstn_in.
Qed.

Lemma descending_one p : descending [p].
Proof. constructor; constructor. Qed.

Lemma scores_within_one hi text score :
  0 <= score -> score <= hi -> scores_within hi [(text, score)].
Proof.
  intros H0 H1 t s [[= <- <-]|[]]. auto.
Qed.

Lemma scores_within_weaken lo hi l : lo <= hi -> scores_within lo l -> scores_within hi l.
Proof.
  intros Hle Hl t s Hin. destruct (Hl t s Hin). split; auto.
  eapply Qle_trans; eauto.
Qed.

End RankingFacts.

Section BranchFacts.

Context {U : Unicode} {Nm : Numbers} {D : Difflib} {L : Nltk} {Sk : Sklearn} {H : Host}.
Hypothesis ratio_bounded : RatioBounded D.
Hypothesis tfidf_bounded : TfidfBounded Sk.

#[local] Open Scope Q_scope.

Lemma ranked_one hi text score : 0 <= score -> score <= hi -> ranked hi [(text, score)].
Proof.
  intros. split; [apply descending_one | now apply scores_within_one].
Qed.

Lemma ranked_nil hi : ranked hi [].
Proof.
  split; [constructor | intros t s []].
Qed.

Lemma ranked_weaken lo hi l : lo <= hi -> ranked lo l -> ranked hi l.
Proof.
  intros Hle [Hd Hs]. split; auto. eapply scores_within_weaken; eauto.
Qed.

Lemma ranked_slice_sorted hi k l :
  scores_within hi l -> ranked hi (slice_to k (sort_by_score l)).
Proof.
  intro Hl. split.
  - apply slice_to_descending, sort_by_score_descending.
  - intros t s Hin. apply slice_to_in in Hin.
    apply (sorted_desc_in snd score_ltb) in Hin. exact (Hl t s Hin).
Qed.

Lemma blend_scores_within rt user_norm idxs :
  scores_within 1 (blend_scores rt user_norm idxs).
Proof.
  intros t s Hin. unfold blend_scores in Hin.
  apply filter_some_in in Hin. destruct Hin as (idx & _ & Hf).
  destruct (entry_at rt idx) as [e|]; [|discriminate].
  destruct (Qlt_le_dec _ _) as [_|_]; [|discriminate].
  injection Hf as _ <-.
  destruct (tfidf_bounded (questions rt) user_norm idx) as [T0 T1].
  destruct (ratio_bounded user_norm (_norm_question e)) as [F0 F1].
  split; Lqa.lra.
Qed.

Lemma boost_sum_nonneg kws cq : 0 <= boost_sum kws cq.
Proof.
  induction kws as [|w r IH]; simpl; [apply Qle_refl|].
  destruct (contains w cq); [destruct (6 <? List.length w)%nat|]; Lqa.lra.
Qed.

Lemma boosted_within user_norm e fs :
  0 <= fs -> fs <= 1 ->
  0 <= boosted user_norm e fs /\ boosted user_norm e fs <= 18 # 10.
Proof.
  intros F0 F1. unfold boosted.
  destruct (key_words_of user_norm) as [|w kws]; [split; Lqa.lra|].
  set (b := Qmin (80 # 100) _).
  assert (Hb : b <= 80 # 100) by apply Q.le_min_l.
  destruct (Qlt_le_dec 0 b) as [Hpos|_]; [|split; Lqa.lra].
  split; Lqa.nra.
Qed.

Lemma general_scores_within rt user_norm idxs :
  scores_within (18 # 10) (general_scores rt user_norm idxs).
Proof.
  intros t s Hin. unfold general_scores in Hin.
  apply filter_some_in in Hin. destruct Hin as (idx & _ & Hf).
  destruct (entry_at rt idx) as [e|]; [|discriminate].
  destruct (Qlt_le_dec _ _) as [_|_]; [|discriminate].
  injection Hf as _ <-.
  destruct (tfidf_bounded (questions rt) user_norm idx) as [T0 T1].
  destruct (ratio_bounded user_norm (_norm_question e)) as [F0 F1].
  apply boosted_within; Lqa.lra.
Qed.

Lemma argmax_from_value best i sims :
  snd (argmax_from best i sims) = snd best \/ In (snd (argmax_from best i sims)) sims.
Proof.
  revert best i. induction sims as [|x r IH]; intros best i; simpl; auto.
  destruct (IH (if score_ltb (snd best) x then (i, x) else best) (S i)) as [E|E]; auto.
  rewrite E. destruct (score_ltb (snd best) x); simpl; auto.
Qed.

Lemma best_by_tfidf_ranked rt user_norm idxs :
  ranked 1 (best_by_tfidf rt user_norm idxs).
Proof.
  unfold best_by_tfidf.
  destruct (List.map (tfidf_similarity (questions rt) user_norm) idxs) as [|x rest] eqn:Em;
    [apply ranked_nil|].
  pose proof (argmax_from_value (O, x) 1 rest) as Hv.
  destruct (argmax_from (O, x) 1 rest) as [pos top]. simpl in Hv.
  destruct (nth_error idxs pos) as [best_idx|]; [|apply ranked_nil].
  destruct (entry_at rt best_idx) as [e|]; [|apply ranked_nil].
  assert (Hin : In top (x :: rest)) by (destruct Hv as [->|Hv]; simpl; auto).
  rewrite <- Em in Hin. apply in_map_iff in Hin. destruct Hin as (idx & <- & _).
  destruct (tfidf_bounded (questions rt) user_norm idx). now apply ranked_one.
Qed.

Lemma fallback_ranked : ranked 1 fallback.
Proof.
  unfold fallback. destruct (choice generic_fallback); [|apply ranked_nil].
  apply ranked_one; Lqa.lra.
Qed.

Lemma immediate_reply_ranked rt detected_intent reply :
  immediate_reply rt detected_intent = Some reply -> ranked 1 reply.
Proof.
  unfold immediate_reply. destruct (immediate detected_intent); [|discriminate].
  destruct (choice _) as [e|]; [|discriminate].
  intros [= <-]. apply ranked_one; Lqa.lra.
Qed.

Lemma sorted_scores_within hi (scored : Answers) :
  scores_within hi scored -> scores_within hi (sort_by_score scored).
Proof.
  intros Hs t s Hin. apply (sorted_desc_in snd score_ltb) in Hin. exact (Hs t s Hin).
Qed.

Lemma sliced_or_fallback_ranked k (l : Answers) :
  descending l -> scores_within 1 l ->
  ranked 1 match l with
           | [] => fallback
           | x :: r => slice_to k (x :: r)
           end.
Proof.
  intros Hd Hs. destruct l as [|x r]; [apply fallback_ranked|].
  split; [now apply slice_to_descending|].
  intros t s Hin. apply slice_to_in in Hin. exact (Hs t s Hin).
Qed.

Lemma _answer_moroccan_city_query_ranked rt user_input city_name top_k :
  ranked 1 (_answer_moroccan_city_query rt user_input city_name top_k).
Proof.
  unfold _answer_moroccan_city_query.
  destruct (exact_match _ _) as [entry|]; [apply ranked_one; Lqa.lra|].
  destruct (immediate_reply rt _) as [reply|] eqn:Ei;
    [now apply immediate_reply_ranked in Ei|].
  match goal with
  | |- ranked 1 (match ?idxs with [] => _ | _ => _ end) =>
      destruct idxs as [|i0 idxs'] eqn:Ec; [apply fallback_ranked|]
  end.
  apply sliced_or_fallback_ranked;
    [apply sort_by_score_descending | apply sorted_scores_within, blend_scores_within].
Qed.

Lemma _answer_generic_query_ranked rt user_input detected_intent top_k :
  ranked 1 (_answer_generic_query rt user_input detected_intent top_k).
Proof.
  unfold _answer_generic_query.
  destruct (exact_match _ _) as [entry|]; [apply ranked_one; Lqa.lra|].
  destruct (immediate_reply rt _) as [reply|] eqn:Ei;
    [now apply immediate_reply_ranked in Ei|].
  match goal with
  | |- ranked 1 (match ?idxs with [] => _ | _ => _ end) =>
      destruct idxs as [|i0 idxs'] eqn:Ec; [apply fallback_ranked|]
  end.
  apply sliced_or_fallback_ranked;
    [apply sort_by_score_descending | apply sorted_scores_within, blend_scores_within].
Qed.

Lemma _answer_general_morocco_query_ranked rt user_input top_k :
  ranked (18 # 10) (_answer_general_morocco_query rt user_input top_k).
Proof.
  assert (Hle : 1 <= 18 # 10) by Lqa.lra.
  unfold _answer_general_morocco_query.
  destruct (exact_match _ _) as [entry|]; [apply ranked_one; Lqa.lra|].
  destruct (immediate_reply rt _) as [reply|] eqn:Ei.
  { apply immediate_reply_ranked in Ei. now apply ranked_weaken with (lo := 1). }
  destruct (List.filter _ (qa_list rt)) as [|e0 es];
    [apply ranked_weaken with (lo := 1); auto; apply fallback_ranked|].
  destruct (general_scores rt _ _) as [|p scored] eqn:Eg.
  - apply ranked_weaken with (lo := 1); auto. apply best_by_tfidf_ranked.
  - rewrite <- Eg. apply ranked_slice_sorted, general_scores_within.
Qed.

Lemma answer_weather_ranked moroccan_city global_city :
  ranked 1 (answer_weather moroccan_city global_city).
Proof.
  unfold answer_weather.
  destruct moroccan_city as [c|]; [|destruct global_city as [g|]];
    try destruct (get_weather _); apply ranked_one; Lqa.lra.
Qed.

Lemma answer_distance_ranked rt user_input : ranked 1 (answer_distance rt user_input).
Proof.
  unfold answer_distance.
  assert (Hlast : forall parts,
             ranked 1 match resolve_parts (city_detector rt) [] parts with
                      | a :: b :: _ =>
                          [(get_city_distance (city_detector rt) (rp_name a) (rp_name b), 1)]
                      | _ => [(two_cities_please, 5 # 10)]
                      end).
  { intro parts. destruct (resolve_parts _ _ _) as [|a [|b r]]; apply ranked_one; Lqa.lra. }
  destruct (_extract_cities_from_text rt (strip user_input) 2) as [|a [|b r]].
  - apply Hlast.
  - destruct (_extract_cities_from_text rt _ 1) as [|more r]; [apply Hlast|].
    apply ranked_one; Lqa.lra.
  - apply ranked_one; Lqa.lra.
Qed.

End BranchFacts.

(* ================================================================== *)
(** * City detection returns on a loaded gazetteer *)
(* ================================================================== *)

Section DetectionFacts.

Context {U : Unicode} {Nm : Numbers} {D : Difflib}.

Lemma dict_set_in {V} k0 (v0 : V) d k v :
  In (k, v) (dict_set k0 v0 d) -> v = v0 \/ In (k, v) d.
Proof.
  induction d as [|[k' v'] r IH]; simpl.
  - intros [[= _ <-]|[]]. now left.
  - destruct (str_eqb k0 k'); simpl.
    + intros [[= <- <-]|Hin]; auto.
    + intros [E|Hin]; auto. destruct (IH Hin); auto.
Qed.

Lemma dict_get_in {V} k (d : dict V) v : dict_get k d = Some v -> In (k, v) d.
Proof.
  induction d as [|[k' v'] r IH]; simpl; [discriminate|].
  destruct (str_eqb k k') eqn:E.
  - apply str_eqb_eq in E. subst k'. intros [= <-]. now left.
  - intro Hg. right. now apply IH.
Qed.

Lemma population_or_zero_parse s z :
  population_or_zero s = Returns z -> int_of_float_text s <> IntOverflowError.
Proof.
  unfold population_or_zero, parse_population, int_of_float_text.
  destruct s as [|c r]; [discriminate|].
  destruct (py_int_float (c :: r)); discriminate.
Qed.

Lemma load_row_parse st row st' :
  populations_parse (ld_cities st) ->
  load_row st row = Returns st' ->
  populations_parse (ld_cities st').
Proof.
  intros Hinv. unfold load_row.
  destruct (strip (row_city row)) as [|c0 cs]; [now intros [= <-]|].
  destruct (population_or_zero (row_population row)) as [pop|] eqn:Epop; [|discriminate].
  apply population_or_zero_parse in Epop.
  assert (Hset : populations_parse
                   (dict_set (norm_name row) (stored_record row) (ld_cities st))).
  { intros k v Hin. apply dict_set_in in Hin. destruct Hin as [->|Hin]; [exact Epop|].
    now apply (Hinv k). }
  simpl.
  destruct (dict_get (norm_name row) (ld_cities st)) as [existing|].
  - destruct (population_or_zero (row_population existing)); [|discriminate].
    simpl. destruct (_ <? _)%Z; now intros [= <-].
  - now intros [= <-].
Qed.

Lemma load_rows_parse st rows :
  populations_parse (ld_cities st) ->
  populations_parse (ld_cities (fst (load_rows st rows))).
Proof.
  revert st. induction rows as [|row rest IH]; intros st Hinv; simpl; auto.
  destruct (load_row st row) as [st1|e] eqn:Estep; simpl; auto.
  apply IH. now apply load_row_parse with (st := st) (row := row).
Qed.

Lemma _load_global_cities_parse rows :
  populations_parse (fst (_load_global_cities rows)).
Proof.
  unfold _load_global_cities.
  pose proof (load_rows_parse {| ld_cities := []; ld_countries := [] |} rows) as Hp.
  destruct (load_rows _ rows) as [st [e|]]; simpl in *; apply Hp; intros k v [].
Qed.

Lemma global_candidates_returns det words :
  populations_parse (global_cities det) ->
  exists l, global_candidates det words = Returns l.
Proof.
  intro Hp. induction words as [|word rest [l IH]]; [now exists []|].
  cbn [global_candidates].
  destruct (4 <=? List.length (_normalize_text word))%nat; [|now exists l].
  destruct (dict_get (_normalize_text word) (global_cities det)) as [city_data|] eqn:Eg;
    [|now exists l].
  apply dict_get_in in Eg. apply Hp in Eg.
  unfold _get_population.
  destruct (int_of_float_text (row_population city_data)); try congruence;
    simpl; rewrite IH; simpl; eauto.
Qed.

Lemma detect_city_returns det user_input :
  populations_parse (global_cities det) ->
  exists moroccan_city global_city,
    detect_city det user_input = Returns (moroccan_city, global_city).
Proof.
  intro Hp. unfold detect_city, detect_global_city.
  destruct (global_candidates_returns det (split user_input) Hp) as [l Hl].
  destruct (detect_moroccan_city det user_input) as [[|c m]|];
    try (rewrite Hl; simpl; eauto).
  eauto.
Qed.

End DetectionFacts.

(* ================================================================== *)
(** * The entry point *)
(* ================================================================== *)

Section EntryFacts.

Context {U : Unicode} {Nm : Numbers} {D : Difflib} {L : Nltk} {Sk : Sklearn} {H : Host}.

Lemma get_answer_ranked rt user_input top_k :
  RatioBounded D -> TfidfBounded Sk ->
  populations_parse (global_cities (city_detector rt)) ->
  exists answers,
    get_answer rt user_input top_k = Returns answers /\
    ranked (18 # 10) answers /\
    (~ general_morocco_branch rt user_input -> scores_within 1 answers).
Proof.
  intros HD HS Hp.
  assert (Hle : (1 <= 18 # 10)%Q) by Lqa.lra.
  assert (Hone : forall l, ranked 1 l ->
            exists answers,
              Returns l = Returns answers /\ ranked (18 # 10) answers /\
              (~ general_morocco_branch rt user_input -> scores_within 1 answers)).
  { intros l Hl. exists l. split; [reflexivity|]. split.
    - now apply ranked_weaken with (lo := 1%Q).
    - intros _. apply Hl. }
  unfold get_answer.
  destruct (nonempty (strip user_input)) eqn:Eblank; cbn [negb].
  2:{ apply Hone. apply ranked_one; Lqa.lra. }
  destruct (detect_city_returns (city_detector rt) user_input Hp) as (m & g & Edet).
  rewrite Edet. cbn [bind].
  destruct (is_intent (_detect_intent user_input) "ask_weather") eqn:Ew.
  { apply Hone. apply answer_weather_ranked. }
  destruct (is_intent (_detect_intent user_input) "ask_distance") eqn:Ed.
  { apply Hone. apply answer_distance_ranked. }
  destruct m as [city_name|].
  { apply Hone. now apply _answer_moroccan_city_query_ranked. }
  destruct g as [record|].
  { apply Hone. apply ranked_one; Lqa.lra. }
  destruct (foreign_country _) as [country|] eqn:Ef.
  { apply Hone. apply ranked_one; Lqa.lra. }
  destruct (is_morocco_mentioned user_input) eqn:Em.
  - eexists. split; [reflexivity|]. split.
    + now apply _answer_general_morocco_query_ranked.
    + intro Hn. exfalso. apply Hn. unfold general_morocco_branch. auto 10.
  - apply Hone. now apply _answer_generic_query_ranked.
Qed.

Lemma exact_match_first user_norm (corpus : list QA) i q :
  nth_error corpus i = Some q ->
  normalize_text (qa_question q) = user_norm ->
  (forall j q', j < i -> nth_error corpus j = Some q' ->
                normalize_text (qa_question q') <> user_norm) ->
  exact_match user_norm (List.map derive corpus) = Some (derive q).
Proof.
  revert i. induction corpus as [|q0 rest IH]; intros i Hi Hq Hfirst.
  - now destruct i.
  - destruct i as [|i]; simpl in Hi.
    + injection Hi as ->. simpl. rewrite Hq. now rewrite str_eqb_refl.
    + simpl. destruct (str_eqb user_norm (normalize_text (qa_question q0))) eqn:E.
      * apply str_eqb_eq in E. symmetry in E.
        now elim (Hfirst O q0 (Nat.lt_0_succ i) eq_refl).
      * apply (IH i); auto. intros j q' Hj Hn.
        apply (Hfirst (S j) q'); [lia | exact Hn].
Qed.

Lemma get_answer_exact rt user_input top_k entry :
  corpus_branch rt user_input ->
  exact_match (normalize_text user_input) (qa_list rt) = Some entry ->
  get_answer rt user_input top_k = Returns [(assistant entry, 1%Q)].
Proof.
  intros (Hb & Hw & Hd & m & g & Hdet & Hcase) He.
  unfold get_answer. rewrite Hb. cbn [negb]. rewrite Hdet. cbn [bind].
  rewrite Hw, Hd.
  destruct m as [city_name|].
  - unfold _answer_moroccan_city_query. now rewrite He.
  - destruct Hcase as [Hm|[-> Hf]]; [congruence|]. rewrite Hf.
    destruct (is_morocco_mentioned user_input).
    + unfold _answer_general_morocco_query. now rewrite He.
    + unfold _answer_generic_query. now rewrite He.
Qed.

End EntryFacts.

(** C1 (amended).  Let the retriever hold the corpus with the derived
    fields [__init__] adds.  When the input reaches one of the branches
    that consult the corpus (Moroccan city, general Morocco, generic: the
    input is not blank, the intent is neither [ask_weather] nor
    [ask_distance], and a Moroccan city is detected or neither a global
    city nor a foreign country is), and its normalized form is the
    normalized question of a corpus entry, [get_answer] returns the answer
    of the first such entry with score 1.0, before any scoring. *)
Theorem exact_match_in_corpus_branches
    (U : Unicode) (Nm : Numbers) (D : Difflib) (L : Nltk) (Sk : Sklearn) (H : Host)
    (corpus : list QA) (rt : Retriever)
    (user_input : str) (top_k : Z) (i : nat) (q : QA) :
  qa_list rt = List.map derive corpus ->
  nth_error corpus i = Some q ->
  normalize_text (qa_question q) = normalize_text user_input ->
  (forall j q', j < i -> nth_error corpus j = Some q' ->
                normalize_text (qa_question q') <> normalize_text user_input) ->
  corpus_branch rt user_input ->
  get_answer rt user_input top_k = Returns [(qa_assistant q, 1%Q)].
Proof.
  intros Hrt Hi Hq Hfirst Hbranch.
  rewrite (get_answer_exact rt user_input top_k (derive q)); auto.
  rewrite Hrt. now apply exact_match_first with (i := i).
Qed.

(** C2 (amended).  For a gazetteer read by the loader, every corpus, every
    input and every [top_k], [get_answer] returns a list sorted by score
    in descending order whose scores lie between 0 and 1.8; they lie
    between 0 and 1 unless the input is handed to the general-Morocco
    branch, whose blended score is multiplied by (1 + boost) with a boost
    of up to 0.80 and is not capped.  The scores are exact rationals; the
    similarity measures are taken within [0, 1]. *)
Theorem answers_sorted_scores_bounded
    (U : Unicode) (Nm : Numbers) (D : Difflib) (L : Nltk) (Sk : Sklearn) (H : Host)
    (rt : Retriever) (rows : list CityData) (user_input : str) (top_k : Z) :
  RatioBounded D -> TfidfBounded Sk ->
  global_cities (city_detector rt) = fst (_load_global_cities rows) ->
  exists answers,
    get_answer rt user_input top_k = Returns answers /\
    descending answers /\
    scores_within (18 # 10) answers /\
    (~ general_morocco_branch rt user_input -> scores_within 1 answers).
Proof.
  intros HD HS Hload.
  destruct (get_answer_ranked rt user_input top_k HD HS) as (answers & Hr & [Hd Hs] & H1).
  { rewrite Hload. apply _load_global_cities_parse. }
  exists answers. auto.
Qed.

(* ================================================================== *)
(** * The engine at work *)
(* ================================================================== *)

Module Examples.
Import Demo.

Lemma demo_unicode_ascii : UnicodeAscii demo_unicode.
Proof. split; intros s _; reflexivity. Qed.

Lemma demo_ratio_bounded : RatioBounded demo_difflib.
Proof. intros a b. apply SequenceMatcherFacts.ratio_bounds. Qed.

Lemma demo_tfidf_bounded : TfidfBounded demo_sklearn.
Proof.
  intros qs query idx. simpl. unfold demo_tfidf.
  destruct (nth_error qs idx) as [q|]; [|split; discriminate].
  destruct (content_words query) as [|w ws]; [split; discriminate|].
  destruct (_ && _)%bool; split; discriminate.
Qed.

(** Text with capitals, a possessive, punctuation, runs of blanks and an
    emoji. *)
Lemma normalize_text_total_idempotent_witness :
  UnicodeAscii demo_unicode /\
  let x := lit "  What's  UP in Fes?! " ++ [128512%N] in
  (exists y, @normalize_text demo_unicode x = y /\ canonical y) /\
  @normalize_text demo_unicode (@normalize_text demo_unicode x)
  = @normalize_text demo_unicode x.
Proof.
  split; [exact demo_unicode_ascii|].
  exact (normalize_text_total_idempotent demo_unicode demo_unicode_ascii
           (lit "  What's  UP in Fes?! " ++ [128512%N])).
Defined.

(** Two rows for Paris, the larger second; two rows for Victoria with the
    same population. *)
Lemma complete_load_of_demo_rows :
  exists cities countries,
    @_load_global_cities demo_unicode demo_numbers demo_rows = (cities, Some countries) /\
    nth_error demo_rows 2 = Some paris_texas /\
    has_city paris_texas /\
    exists i0 r0,
      dict_get (@norm_name demo_unicode paris_texas) cities = Some (stored_record r0) /\
      nth_error demo_rows i0 = Some r0 /\ has_city r0 /\
      @norm_name demo_unicode r0 = @norm_name demo_unicode paris_texas /\
      forall j r',
        nth_error demo_rows j = Some r' -> has_city r' ->
        @norm_name demo_unicode r' = @norm_name demo_unicode paris_texas ->
        (@row_pop demo_numbers r' <= @row_pop demo_numbers r0)%Z /\
        (@row_pop demo_numbers r' = @row_pop demo_numbers r0 -> i0 <= j).
Proof.
  pose (res := @_load_global_cities demo_unicode demo_numbers demo_rows).
  exists (fst res), (match snd res with Some c => c | None => [] end).
  assert (Hload : @_load_global_cities demo_unicode demo_numbers demo_rows
                  = (fst res, Some (match snd res with Some c => c | None => [] end)))
    by (vm_compute; reflexivity).
  assert (Hcity : has_city paris_texas) by (vm_compute; discriminate).
  split; [exact Hload|]. split; [reflexivity|]. split; [exact Hcity|].
  exact (@complete_load_keeps_largest_population demo_unicode demo_numbers
           demo_rows _ _ Hload 2 paris_texas eq_refl Hcity).
Qed.

(** What the dictionary holds for the two keys. *)
Example gazetteer_of_demo_rows :
  let cities := fst (@_load_global_cities demo_unicode demo_numbers demo_rows) in
  option_map row_country (dict_get (lit "paris") cities) = Some (lit "France") /\
  option_map row_country (dict_get (lit "victoria") cities) = Some (lit "Canada").
Proof. vm_compute. split; reflexivity. Qed.

(** C6.  The rows Paris (United States, 24782), Atlantis (population
    [inf]) and Paris (France, 11060000): the two rows for Paris have the
    same key and the second has the larger population, but the mapping the
    loader returns holds the first.  [int(float("inf"))] raises
    [OverflowError], which the handler of the population
    ([ValueError], [TypeError]) does not catch; the enclosing handler ends
    the loop, so the third row is never read, and the set of countries is
    not kept. *)
Theorem loader_stops_at_infinite_population :
  let rows := [paris_texas; atlantis; paris_france] in
  let '(cities, extracted) := @_load_global_cities demo_unicode demo_numbers rows in
  @norm_name demo_unicode paris_texas = @norm_name demo_unicode paris_france /\
  (@row_pop demo_numbers paris_texas < @row_pop demo_numbers paris_france)%Z /\
  dict_get (@norm_name demo_unicode paris_france) cities = Some (stored_record paris_texas) /\
  extracted = None.
Proof. vm_compute. repeat split; reflexivity. Qed.


(** A misspelt name found by the fuzzy search. *)
Lemma resolver_confidence_at_least_threshold_witness :
  exists r,
    resolve "Pariss" = Some r /\
    dict_get (@normalize_text demo_unicode (lit "Pariss"))
      (global_cities (city_detector demo_retriever)) = None /\
    (80 # 100 <= rp_score r)%Q.
Proof.
  destruct (resolve "Pariss") as [r|] eqn:Er.
  - exists r. split; [reflexivity|]. split; [vm_compute; reflexivity|].
    exact (proj1 (proj1 (@resolver_confidence_at_least_threshold
                           demo_unicode demo_numbers demo_difflib demo_host
                           (city_detector demo_retriever))
                    (lit "Pariss") r Er)).
  - exfalso. revert Er. unfold resolve, find_city_coordinates.
    vm_compute. discriminate.
Defined.

(** Rabat and Casablanca, both in the gazetteer. *)
Lemma city_distance_symmetric_witness :
  exists dist,
    @distance_reply demo_unicode (city_detector demo_retriever) resolve_str
      (lit "Rabat") (lit "Casablanca")
    = DistanceIs false (lit "Rabat") (lit "Casablanca") dist /\
    @distance_reply demo_unicode (city_detector demo_retriever) resolve_str
      (lit "Casablanca") (lit "Rabat")
    = DistanceIs false (lit "Casablanca") (lit "Rabat") dist.
Proof.
  destruct (resolve_str (lit "Rabat")) as [pa|] eqn:Ea;
    [|exfalso; revert Ea; vm_compute; discriminate].
  destruct (resolve_str (lit "Casablanca")) as [pb|] eqn:Eb;
    [|exfalso; revert Eb; vm_compute; discriminate].
  assert (Hab :
    @distance_reply demo_unicode (city_detector demo_retriever) resolve_str
      (lit "Rabat") (lit "Casablanca")
    = DistanceIs false (lit "Rabat") (lit "Casablanca")
        (haversine_distance (rp_lat pa) (rp_lng pa) (rp_lat pb) (rp_lng pb))).
  { rewrite (distance_reply_resolved (city_detector demo_retriever) resolve_str
               (a := lit "Rabat") (b := lit "Casablanca") (pa := pa) (pb := pb))
      by (discriminate || assumption).
    revert Ea Eb. unfold resolve_str, find_city_coordinates.
    vm_compute dict_get. cbv iota. unfold resolved.
    vm_compute parse_coordinate.
    intros [= <-] [= <-]. vm_compute. reflexivity. }
  exists (haversine_distance (rp_lat pa) (rp_lng pa) (rp_lat pb) (rp_lng pb)).
  split; [exact Hab|].
  exact (proj1 (proj2 (proj2 (@city_distance_symmetric demo_unicode demo_host))
                  (city_detector demo_retriever) resolve_str
                  (lit "Rabat") (lit "Casablanca") false _ _ _ Hab)).
Defined.


(** Blanks, a tab, a line feed, a no-break space and an em space. *)
Lemma blank_input_prompt_witness :
  forallb is_space (lit "  " ++ [9; 10; 160; 8195]%N) = true /\
  @get_answer demo_unicode demo_numbers demo_difflib demo_nltk demo_sklearn demo_host
    demo_retriever (lit "  " ++ [9; 10; 160; 8195]%N) 1
  = Returns [(lit "Please ask a question.", 0%Q)].
Proof.
  split; [reflexivity|].
  exact (@blank_input_prompt demo_unicode demo_numbers demo_difflib demo_nltk
           demo_sklearn demo_host demo_retriever
           (lit "  " ++ [9; 10; 160; 8195]%N) 1 eq_refl).
Defined.

(** A question of the corpus, asked with other capitals and without the
    question mark, in the Moroccan-city branch. *)
Lemma exact_match_in_corpus_branches_witness :
  qa_list demo_retriever = List.map (@derive demo_unicode) demo_corpus /\
  @corpus_branch demo_unicode demo_numbers demo_difflib demo_nltk
    demo_retriever (lit "where is the BEACH in agadir") /\
  answer "where is the BEACH in agadir" 3
  = Returns [(lit "Agadir beach runs along the bay.", 1%Q)].
Proof.
  assert (Hb : @corpus_branch demo_unicode demo_numbers demo_difflib demo_nltk
                 demo_retriever (lit "where is the BEACH in agadir")).
  { split; [vm_compute; reflexivity|].
    split; [vm_compute; reflexivity|].
    split; [vm_compute; reflexivity|].
    exists (Some (lit "agadir")), None.
    split; [vm_compute; reflexivity|]. left. discriminate. }
  split; [reflexivity|]. split; [exact Hb|].
  apply (@exact_match_in_corpus_branches demo_unicode demo_numbers demo_difflib demo_nltk
           demo_sklearn demo_host demo_corpus demo_retriever
           (lit "where is the BEACH in agadir") 3 1
           (qa "Where is the beach in Agadir?" "Agadir beach runs along the bay."
               "Agadir" "ask_beaches")
           eq_refl eq_refl).
  - vm_compute. reflexivity.
  - intros j q' Hj Hn. destruct j as [|j]; [|lia].
    injection Hn as <-. vm_compute. discriminate.
  - exact Hb.
Defined.

(** The corpus has the question "Weather"; the input
    "weather" has the same normalized form, and the weather branch answers
    it before the corpus is consulted, with score 0.5. *)
Lemma exact_match_loses_to_weather_branch :
  let entry := @derive demo_unicode
                 (qa "Weather" "Morocco is sunny most of the year." "" "ask_weather") in
  In entry (qa_list demo_retriever) /\
  @normalize_text demo_unicode (lit "weather") = _norm_question entry /\
  answer "weather" 1
  = Returns [(lit "Sure! Which city do you want the weather for?", (5 # 10)%Q)] /\
  answer "weather" 1 <> Returns [(assistant entry, 1%Q)].
Proof.
  cbv zeta.
  assert (Ha : answer "weather" 1
               = Returns [(lit "Sure! Which city do you want the weather for?", (5 # 10)%Q)])
    by (vm_compute; reflexivity).
  split; [left; reflexivity|]. split; [vm_compute; reflexivity|].
  split; [exact Ha|]. rewrite Ha. vm_compute. discriminate.
Qed.

(** The general-Morocco branch on a question that has the words of a corpus
    question: the boosted score 1.475 is within the amended bound. *)
Lemma answers_sorted_scores_bounded_witness :
  RatioBounded demo_difflib /\ TfidfBounded demo_sklearn /\
  global_cities (city_detector demo_retriever)
  = fst (@_load_global_cities demo_unicode demo_numbers demo_rows) /\
  exists answers,
    answer "the morocco overview" 1 = Returns answers /\
    descending answers /\
    scores_within (18 # 10) answers /\
    (~ @general_morocco_branch demo_unicode demo_numbers demo_difflib demo_nltk
         demo_retriever (lit "the morocco overview") ->
     scores_within 1 answers).
Proof.
  split; [exact demo_ratio_bounded|]. split; [exact demo_tfidf_bounded|].
  split; [vm_compute; reflexivity|].
  apply (@answers_sorted_scores_bounded demo_unicode demo_numbers demo_difflib demo_nltk
           demo_sklearn demo_host demo_retriever demo_rows
           (lit "the morocco overview") 1 demo_ratio_bounded demo_tfidf_bounded).
  vm_compute. reflexivity.
Defined.

(** With similarity measures within [0, 1], the input
    "the morocco overview" gets the score 0.9833 * 1.5 = 1.475 in the
    general-Morocco branch. *)
Lemma boosted_score_exceeds_one :
  RatioBounded demo_difflib /\ TfidfBounded demo_sklearn /\
  exists text score,
    answer "the morocco overview" 1 = Returns [(text, score)] /\
    (1 < score)%Q /\ (score == 1475 # 1000)%Q.
Proof.
  split; [exact demo_ratio_bounded|]. split; [exact demo_tfidf_bounded|].
  eexists. eexists. split; [vm_compute; reflexivity|]. split; reflexivity.
Qed.

(** [__init__] on the data of the examples, and on an empty corpus. *)
Example retriever_of_demo_data :
  @Retriever_init demo_unicode demo_numbers demo_corpus demo_rows = Returns demo_retriever /\
  @Retriever_init demo_unicode demo_numbers [] demo_rows = Raises ValueError.
Proof. split; reflexivity. Qed.

(** A country other than Morocco: the fixed reply with score 0.3; a city
    outside Morocco: the formatter's text with score 1. *)
Example foreign_country_and_city :
  answer "Tell me about Japan" 1
  = Returns [(lit "I'm specialized in Morocco tourism, so Japan is outside my expertise. But if you're interested in visiting Morocco instead, I'd be happy to help!",
              (3 # 10)%Q)] /\
  answer "what to do in Tokyo" 1
  = Returns [(@format_world_city_response demo_host
                (row "Tokyo" "Japan" "35.69" "139.69" "Tokyo" "primary" "37732000" "JP" "JPN"),
              1%Q)].
Proof. vm_compute. split; reflexivity. Qed.

(** C8.  "joke" occurs in "joker movie" only inside the word "joker": no
    [joke_or_troll] keyword matches a whole word of the query or of its
    lemma form, none is similar to the query beyond 0.8, and the classifier
    returns [joke_or_troll] all the same, because the test of this category
    is containment ([kw_norm in query]). *)
Theorem troll_keyword_inside_a_word :
  let query := @normalize_text demo_unicode (lit "joker movie") in
  let query_lem := @lemmatize_text demo_nltk query in
  forallb
    (fun kw =>
       let kw_norm := @normalize_text demo_unicode kw in
       negb (@word_search demo_unicode kw_norm query)
       && negb (@word_search demo_unicode (@lemmatize_text demo_nltk kw_norm) query_lem)
       && Qle_bool (@ratio demo_difflib query kw_norm) (8 # 10))%bool
    (keywords_of intent_keywords (lit "joke_or_troll")) = true /\
  @contains (@normalize_text demo_unicode (lit "joke")) query = true /\
  classify "joker movie" = Some (lit "joke_or_troll").
Proof.
  vm_compute. repeat split; reflexivity.
Qed.

End Examples.

(* ================================================================== *)
(** * Further properties of the gazetteer loader *)
(* ================================================================== *)

Section LoaderInvariants.

Context {U : Unicode} {Nm : Numbers}.

Lemma dict_get_none_keys {V} k (d : dict V) :
  dict_get k d = None -> ~ In k (List.map fst d).
Proof.
  induction d as [|[k' v'] r IH]; simpl; [tauto|].
  destruct (str_eqb k k') eqn:E; [discriminate|].
  apply str_eqb_neq in E. intros Hg [Hk|Hin]; [congruence | now apply IH].
Qed.

Lemma dict_set_keys_present {V} k (v : V) d w :
  dict_get k d = Some w -> List.map fst (dict_set k v d) = List.map fst d.
Proof.
  induction d as [|[k' v'] r IH]; simpl; [discriminate|].
  destruct (str_eqb k k') eqn:E; simpl; [reflexivity|].
  intro Hg. now rewrite IH.
Qed.

Lemma dict_set_keys_absent {V} k (v : V) d :
  dict_get k d = None -> List.map fst (dict_set k v d) = List.map fst d ++ [k].
Proof.
  induction d as [|[k' v'] r IH]; simpl; [reflexivity|].
  destruct (str_eqb k k') eqn:E; simpl; [discriminate|].
  intro Hg. now rewrite IH.
Qed.

Lemma dict_in_get {V} k (v : V) d :
  NoDup (List.map fst d) -> In (k, v) d -> dict_get k d = Some v.
Proof.
  induction d as [|[k' v'] r IH]; simpl; [tauto|].
  intros Hnd [E|Hin].
  - injection E as -> ->. now rewrite str_eqb_refl.
  - inversion Hnd as [|? ? Hnot Hr]; subst.
    destruct (str_eqb k k') eqn:E.
    + apply str_eqb_eq in E. subst k'. elim Hnot.
      apply in_map_iff. now exists (k, v).
    + now apply IH.
Qed.

Lemma well_keyed_more rows row cities :
  well_keyed rows cities -> well_keyed (rows ++ [row]) cities.
Proof.
  intros [Hnd Hv]. split; [exact Hnd|].
  intros k v Hin. destruct (Hv k v Hin) as (r & Hr & Hc & Hk & Hs).
  exists r. repeat split; auto. apply in_or_app. now left.
Qed.

Lemma well_keyed_set rows row cities :
  well_keyed rows cities -> has_city row ->
  well_keyed (rows ++ [row]) (dict_set (norm_name row) (stored_record row) cities).
Proof.
  intros [Hnd Hv] Hrow. split.
  - destruct (dict_get (norm_name row) cities) as [w|] eqn:Eg.
    + now rewrite dict_set_keys_present with (w := w).
    + rewrite dict_set_keys_absent by exact Eg.
      apply NoDup_app; auto.
      * constructor; [tauto | constructor].
      * intros x Hx [<-|[]]. now apply (dict_get_none_keys _ _ Eg) in Hx.
  - intros k v Hin.
    assert (Hcases : (k = norm_name row /\ v = stored_record row) \/ In (k, v) cities).
    { clear Hnd Hv. induction cities as [|[k' v'] r IH]; simpl in Hin.
      - destruct Hin as [[= <- <-]|[]]. now left.
      - destruct (str_eqb (norm_name row) k') eqn:E; simpl in Hin.
        + apply str_eqb_eq in E. destruct Hin as [[= <- <-]|Hin]; [now left|].
          right. now right.
        + destruct Hin as [Hin|Hin]; [right; now left|].
          destruct (IH Hin) as [?|?]; [now left | right; now right]. }
    destruct Hcases as [[-> ->]|Hold].
    + exists row. repeat split; auto. apply in_or_app. right. now left.
    + destruct (Hv k v Hold) as (r & Hr & Hc & Hk & Hs).
      exists r. repeat split; auto. apply in_or_app. now left.
Qed.

Lemma load_row_well_keyed rows st row st' :
  well_keyed rows (ld_cities st) ->
  load_row st row = Returns st' ->
  well_keyed (rows ++ [row]) (ld_cities st').
Proof.
  intros Hw. unfold load_row.
  destruct (strip (row_city row)) as [|c0 cs] eqn:Ecity.
  - intros [= <-]. now apply well_keyed_more.
  - assert (Hrow : has_city row) by (unfold has_city; congruence).
    destruct (population_or_zero (row_population row)) as [pop|]; [|discriminate].
    cbn [bind].
    destruct (dict_get (norm_name row) (ld_cities st)) as [existing|].
    + destruct (population_or_zero (row_population existing)); [|discriminate].
      cbn [bind]. destruct (_ <? _)%Z; intros [= <-]; cbn [ld_cities].
      * now apply well_keyed_set.
      * now apply well_keyed_more.
    + intros [= <-]. cbn [ld_cities]. now apply well_keyed_set.
Qed.

Lemma load_rows_well_keyed done st rows :
  well_keyed done (ld_cities st) ->
  well_keyed (done ++ rows) (ld_cities (fst (load_rows st rows))).
Proof.
  revert done st. induction rows as [|row rest IH]; intros done st Hw; simpl.
  - now rewrite app_nil_r.
  - destruct (load_row st row) as [st1|e] eqn:Estep.
    + replace (done ++ row :: rest) with ((done ++ [row]) ++ rest)
        by (now rewrite <- app_assoc).
      apply IH. now apply load_row_well_keyed with (st := st).
    + simpl. destruct Hw as [Hnd Hv]. split; [exact Hnd|].
      intros k v Hin. destruct (Hv k v Hin) as (r & Hr & Hrest).
      exists r. split; [|exact Hrest]. apply in_or_app. now left.
Qed.

End LoaderInvariants.

(** X1.  Whatever the rows, and whether the loader reads them all or stops
    at an exception, the dictionary it returns has distinct keys, a lookup
    finds exactly the pairs it holds, and each value is the record of a row
    with a city name, stored under the lower-cased and stripped name of
    that row. *)
Theorem loaded_gazetteer_well_keyed (U : Unicode) (Nm : Numbers) (rows : list CityData) :
  let cities := fst (_load_global_cities rows) in
  NoDup (List.map fst cities) /\
  (forall k v, In (k, v) cities <-> dict_get k cities = Some v) /\
  (forall k v, dict_get k cities = Some v ->
     exists r, In r rows /\ has_city r /\ norm_name r = k /\ v = stored_record r).
Proof.
  cbv zeta.
  assert (Hw : well_keyed rows (fst (_load_global_cities rows))).
  { unfold _load_global_cities.
    pose proof (load_rows_well_keyed [] {| ld_cities := []; ld_countries := [] |} rows) as Hl.
    simpl in Hl.
    destruct (load_rows _ rows) as [st [e|]]; simpl in *; apply Hl;
      (split; [constructor | intros k v []]). }
  destruct Hw as [Hnd Hv]. split; [exact Hnd|]. split.
  - intros k v. split; [now apply dict_in_get | apply dict_get_in].
  - intros k v Hg. apply Hv. now apply dict_get_in.
Qed.

Section LoaderCompletion.

Context {U : Unicode} {Nm : Numbers}.

Lemma population_or_zero_raises s :
  parse_population s = IntOverflowError -> population_or_zero s = Raises OverflowError.
Proof. unfold population_or_zero. now intros ->. Qed.

Lemma population_or_zero_read s :
  parse_population s <> IntOverflowError -> exists z, population_or_zero s = Returns z.
Proof.
  unfold population_or_zero. destruct (parse_population s); eauto. congruence.
Qed.

Lemma load_row_raises st row :
  has_city row -> ~ population_read row -> load_row st row = Raises OverflowError.
Proof.
  unfold has_city, population_read, load_row. intros Hc Hp.
  destruct (strip (row_city row)); [congruence|].
  rewrite population_or_zero_raises; [reflexivity|].
  destruct (parse_population (row_population row)); try (elim Hp; discriminate).
  reflexivity.
Qed.

Lemma load_row_returns st row :
  stored_populations_read (ld_cities st) ->
  (has_city row -> population_read row) ->
  exists st', load_row st row = Returns st' /\ stored_populations_read (ld_cities st').
Proof.
  intros Hinv Hrow. unfold load_row.
  destruct (strip (row_city row)) as [|c0 cs] eqn:Ecity; [eexists; split; eauto|].
  assert (Hp : population_read row) by (apply Hrow; unfold has_city; congruence).
  destruct (population_or_zero_read _ Hp) as [pop ->]. cbn [bind].
  assert (Hset : stored_populations_read
                   (dict_set (norm_name row) (stored_record row) (ld_cities st))).
  { intros k v Hin. apply dict_set_in in Hin. destruct Hin as [->|Hin]; [exact Hp|].
    now apply (Hinv k). }
  destruct (dict_get (norm_name row) (ld_cities st)) as [existing|] eqn:Eg.
  - apply dict_get_in in Eg. apply Hinv in Eg.
    destruct (population_or_zero_read _ Eg) as [epop ->]. cbn [bind].
    destruct (_ <? _)%Z; eexists; split; eauto.
  - eexists; split; eauto.
Qed.

Lemma load_rows_complete st rows :
  stored_populations_read (ld_cities st) ->
  (forall r, In r rows -> has_city r -> population_read r) ->
  snd (load_rows st rows) = None.
Proof.
  revert st. induction rows as [|row rest IH]; intros st Hinv Hrows; simpl; auto.
  destruct (load_row_returns st row Hinv) as (st' & -> & Hinv').
  { apply Hrows. now left. }
  apply IH; auto. intros r Hr. apply Hrows. now right.
Qed.

Lemma load_rows_app st pre rest :
  load_rows st (pre ++ rest) =
  match load_rows st pre with
  | (st', None) => load_rows st' rest
  | (st', Some e) => (st', Some e)
  end.
Proof.
  revert st. induction pre as [|row pre IH]; intro st; simpl; auto.
  destruct (load_row st row); auto.
Qed.

Lemma set_add_in x y s : In x (set_add y s) <-> x = y \/ In x s.
Proof.
  unfold set_add. destruct (str_in y s) eqn:E.
  - split; auto. intros [->|Hin]; auto.
    apply existsb_exists in E. destruct E as (z & Hz & Ez).
    apply str_eqb_eq in Ez. now subst z.
  - rewrite in_app_iff. simpl. intuition.
Qed.

Lemma set_add_nodup y s : NoDup s -> NoDup (set_add y s).
Proof.
  intro Hs. unfold set_add. destruct (str_in y s) eqn:E; auto.
  apply NoDup_app; auto.
  - constructor; [tauto | constructor].
  - intros x Hx [Hy|[]]. subst x.
    assert (Ht : str_in y s = true).
    { apply existsb_exists. exists y. split; auto. apply str_eqb_refl. }
    congruence.
Qed.

Lemma load_row_countries st row st' :
  load_row st row = Returns st' ->
  ld_countries st' =
    match strip (row_country row) with
    | [] => ld_countries st
    | _ => set_add (country_of row) (ld_countries st)
    end.
Proof.
  unfold load_row, country_of.
  destruct (strip (row_city row)); [now intros [= <-]|].
  destruct (population_or_zero (row_population row)); [|discriminate]. cbn [bind].
  destruct (dict_get (norm_name row) (ld_cities st)) as [existing|]; [|now intros [= <-]].
  destruct (population_or_zero (row_population existing)); [|discriminate]. cbn [bind].
  destruct (_ <? _)%Z; now intros [= <-].
Qed.

Lemma load_rows_countries st rows st' :
  load_rows st rows = (st', None) ->
  (NoDup (ld_countries st) -> NoDup (ld_countries st')) /\
  forall c, In c (ld_countries st') <->
            In c (ld_countries st) \/
            exists r, In r rows /\ strip (row_country r) <> [] /\ c = country_of r.
Proof.
  revert st. induction rows as [|row rest IH]; intros st Hrun; simpl in Hrun.
  - injection Hrun as <-. split; auto. intro c. split; auto.
    intros [Hc|(r & [] & _)]. exact Hc.
  - destruct (load_row st row) as [st1|] eqn:Est; [|discriminate].
    destruct (IH st1 Hrun) as [Hnd Hin].
    pose proof (load_row_countries _ _ _ Est) as Hc1.
    split.
    + intro Hs. apply Hnd. rewrite Hc1.
      destruct (strip (row_country row)); auto. now apply set_add_nodup.
    + intro c. rewrite Hin, Hc1. split.
      * intros [Hc|(r & Hr & Hb & Hcr)].
        -- destruct (strip (row_country row)) eqn:Eb; [now left|].
           apply set_add_in in Hc. destruct Hc as [->|Hc]; [|now left].
           right. exists row. split; [now left|]. split; [congruence | reflexivity].
        -- right. exists r. split; [now right | auto].
      * intros [Hc|(r & [<-|Hr] & Hb & Hcr)].
        -- left. destruct (strip (row_country row)); auto.
           apply set_add_in. now right.
        -- left. destruct (strip (row_country row)); [congruence|].
           apply set_add_in. now left.
        -- right. exists r. auto.
Qed.

End LoaderCompletion.

Section CsvRowsFacts.

Context {U : Unicode} {Nm : Numbers}.





End CsvRowsFacts.


(** X3.  When the rows before a row can all be read and that row has a city
    name and an infinite population, the loader returns the dictionary of
    the rows before it, whatever follows, and does not keep the set of
    countries. *)
Theorem loader_keeps_prefix_on_overflow (U : Unicode) (Nm : Numbers)
    (before after : list CityData) (bad : CityData) :
  (forall r, In r before -> has_city r -> population_read r) ->
  has_city bad -> ~ population_read bad ->
  _load_global_cities (before ++ bad :: after)
  = (fst (_load_global_cities before), None).
Proof.
  intros Hbefore Hc Hp. unfold _load_global_cities.
  rewrite load_rows_app.
  pose proof (load_rows_complete {| ld_cities := []; ld_countries := [] |} before) as Hcomp.
  destruct (load_rows _ before) as [st [e|]]; simpl in *.
  - assert (Some e = None) by (apply Hcomp; [intros k v [] | exact Hbefore]). discriminate.
  - now rewrite load_row_raises.
Qed.

(** X4.  After a complete load the set of countries holds no name twice,
    and a name is in it exactly when it is the lower-cased, stripped
    country of a row whose country field is not blank (whether or not the
    row has a city name). *)
Theorem loader_countries (U : Unicode) (Nm : Numbers)
    (rows : list CityData) (cities : dict CityData) (countries : list str) :
  _load_global_cities rows = (cities, Some countries) ->
  NoDup countries /\
  forall c, In c countries <->
            exists r, In r rows /\ strip (row_country r) <> [] /\ c = country_of r.
Proof.
  unfold _load_global_cities.
  destruct (load_rows _ rows) as [st [e|]] eqn:Erun; [discriminate|].
  intros [= _ <-].
  destruct (load_rows_countries _ rows _ Erun) as [Hnd Hin]. split.
  - apply Hnd. constructor.
  - intro c. rewrite Hin. simpl. tauto.
Qed.

(* ================================================================== *)
(** * The head of a descending sort *)
(* ================================================================== *)

Section SortHead.

Context {A K : Type} (key : A -> K) (ltb : K -> K -> bool) (le : K -> K -> Prop).

Hypothesis le_trans : forall a b c, le a b -> le b c -> le a c.
Hypothesis ltb_le : forall a b, ltb a b = true -> le a b.
Hypothesis nltb_le : forall a b, ltb a b = false -> le b a.

Lemma le_refl_of_ltb a : le a a.
Proof. destruct (ltb a a) eqn:E; [now apply ltb_le | now apply nltb_le]. Qed.

Lemma insert_desc_in_rev x y l : y = x \/ In y l -> In y (insert_desc key ltb x l).
Proof.
  induction l as [|z r IH]; simpl.
  - intros [->|[]]. now left.
  - destruct (ltb (key x) (key z)); simpl; intros [->|[->|Hin]]; auto.
Qed.

Lemma sorted_desc_in_rev y l : In y l -> In y (sorted_desc key ltb l).
Proof.
  induction l as [|x r IH]; simpl; auto.
  intros [->|Hin]; apply insert_desc_in_rev; auto.
Qed.

Lemma insert_desc_head_greatest x s :
  (forall h, hd_error s = Some h -> forall y, In y s -> le (key y) (key h)) ->
  forall h, hd_error (insert_desc key ltb x s) = Some h ->
  forall y, In y (insert_desc key ltb x s) -> le (key y) (key h).
Proof.
  intro Hs. destruct s as [|h' r]; simpl.
  - intros h [= <-] y [->|[]]. apply le_refl_of_ltb.
  - destruct (ltb (key x) (key h')) eqn:E; simpl.
    + intros h [= <-] y [->|Hin]; [apply le_refl_of_ltb|].
      apply insert_desc_in in Hin. destruct Hin as [->|Hin]; [now apply ltb_le|].
      apply (Hs h' eq_refl). now right.
    + intros h [= <-] y [->|Hin]; [apply le_refl_of_ltb|].
      apply le_trans with (key h'); [now apply (Hs h' eq_refl) | now apply nltb_le].
Qed.

Lemma sorted_desc_head_greatest l h :
  hd_error (sorted_desc key ltb l) = Some h ->
  forall y, In y l -> le (key y) (key h).
Proof.
  assert (Hg : forall h0, hd_error (sorted_desc key ltb l) = Some h0 ->
               forall y, In y (sorted_desc key ltb l) -> le (key y) (key h0)).
  { induction l as [|x r IH]; simpl.
    - intros h0 [=].
    - now apply insert_desc_head_greatest. }
  intros Hh y Hy. apply (Hg h Hh). now apply sorted_desc_in_rev.
Qed.

End SortHead.

Lemma sorted_by_population_head {A} (key : A -> Z) l h :
  hd_error (sorted_desc key Z.ltb l) = Some h ->
  In h l /\ forall y, In y l -> (key y <= key h)%Z.
Proof.
  intro Hh. split.
  - apply sorted_desc_in with (key := key) (ltb := Z.ltb).
    destruct (sorted_desc key Z.ltb l); [discriminate|]. injection Hh as <-. now left.
  - apply sorted_desc_head_greatest with (ltb := Z.ltb) (le := Z.le) (h := h); auto.
    + intros a b c. lia.
    + intros a b E. apply Z.ltb_lt in E. lia.
    + intros a b E. apply Z.ltb_ge in E. lia.
Qed.

(* ================================================================== *)
(** * City detection *)
(* ================================================================== *)

Section DetectorFacts.

Context {U : Unicode} {Nm : Numbers} {D : Difflib}.

Lemma first_some_in {A B} (f : A -> option B) l y :
  first_some f l = Some y -> exists x, In x l /\ f x = Some y.
Proof.
  induction l as [|x r IH]; simpl; [discriminate|].
  destruct (f x) as [z|] eqn:E.
  - intros [= <-]. exists x. auto.
  - intro Hr. destruct (IH Hr) as (x' & Hin & Hx). exists x'. auto.
Qed.

Lemma max_scored_in best l p :
  max_scored best l = Some p -> best = Some p \/ In p l.
Proof.
  revert best. induction l as [|q r IH]; simpl; intros best Hm; auto.
  destruct best as [b|].
  - destruct (scored_ltb b q); apply IH in Hm; destruct Hm as [Hm|Hm]; auto.
    injection Hm as <-. auto.
  - apply IH in Hm. destruct Hm as [Hm|Hm]; auto. injection Hm as <-. auto.
Qed.

Lemma get_close_matches_in word possibilities cutoff x :
  get_close_matches word possibilities cutoff = Some x ->
  In x possibilities /\ (cutoff <= ratio x word)%Q.
Proof.
  unfold get_close_matches.
  destruct (max_scored None _) as [[s y]|] eqn:Em; [|discriminate].
  intros [= <-]. apply max_scored_in in Em. destruct Em as [Em|Em]; [discriminate|].
  apply in_map_iff in Em. destruct Em as (z & [= <- <-] & Hz).
  apply filter_In in Hz. destruct Hz as [Hz Hc]. split; auto.
  now apply Qle_bool_iff.
Qed.

Lemma detect_moroccan_city_in det user_input c :
  detect_moroccan_city det user_input = Some c ->
  In c (List.map snd (moroccan_city_misspellings det)) \/ In c (moroccan_cities det).
Proof.
  unfold detect_moroccan_city.
  destruct (first_some _ (moroccan_city_misspellings det)) as [canonical|] eqn:E1.
  - intros [= <-]. apply first_some_in in E1. destruct E1 as ([k v] & Hin & Hf).
    simpl in Hf. destruct (word_search k _); [|discriminate]. injection Hf as <-.
    left. apply in_map_iff. exists (k, v). auto.
  - destruct (first_some _ (moroccan_cities det)) as [city|] eqn:E2.
    + intros [= <-]. apply first_some_in in E2. destruct E2 as (x & Hin & Hf).
      destruct (word_search x _); [|discriminate]. injection Hf as <-. now right.
    + intro E3. apply first_some_in in E3. destruct E3 as (w & _ & Hf).
      destruct (4 <=? List.length w)%nat; [|discriminate].
      apply get_close_matches_in in Hf. now right.
Qed.

Lemma CityDetector_init_fields rows :
  moroccan_cities (CityDetector_init rows) = the_moroccan_cities /\
  moroccan_city_misspellings (CityDetector_init rows) = the_misspellings /\
  global_cities (CityDetector_init rows) = fst (_load_global_cities rows) /\
  countries (CityDetector_init rows) =
    match snd (_load_global_cities rows) with Some s => s | None => [] end.
Proof.
  unfold CityDetector_init. destruct (_load_global_cities rows) as [cs ex]. simpl. auto.
Qed.

Lemma detect_moroccan_city_init rows user_input c :
  detect_moroccan_city (CityDetector_init rows) user_input = Some c ->
  In c the_moroccan_cities /\ c <> [].
Proof.
  intro Hd. apply detect_moroccan_city_in in Hd.
  destruct (CityDetector_init_fields rows) as (E1 & E2 & _). rewrite E1, E2 in Hd.
  assert (Hin : In c the_moroccan_cities).
  { destruct Hd as [Hd|Hd]; auto.
    assert (Hall : forallb (fun x => str_in x the_moroccan_cities)
                     (List.map snd the_misspellings) = true) by (vm_compute; reflexivity).
    rewrite forallb_forall in Hall. specialize (Hall c Hd).
    apply existsb_exists in Hall. destruct Hall as (z & Hz & Ez).
    apply str_eqb_eq in Ez. now subst z. }
  split; auto.
  assert (Hne : forallb nonempty the_moroccan_cities = true) by (vm_compute; reflexivity).
  rewrite forallb_forall in Hne. specialize (Hne c Hin). intros ->. discriminate.
Qed.

Lemma global_candidates_spec det user_words l :
  global_candidates det user_words = Returns l ->
  forall record population,
    In (record, population) l <->
    exists word,
      In word user_words /\
      (4 <= List.length (_normalize_text word))%nat /\
      dict_get (_normalize_text word) (global_cities det) = Some record /\
      _get_population record = Returns population /\
      (50000 <= population)%Z.
Proof.
  revert l. induction user_words as [|w rest IH]; intros l; cbn [global_candidates].
  - intros [= <-] record population. split; [intros [] | intros (word & [] & _)].
  - destruct (4 <=? List.length (_normalize_text w))%nat eqn:E4.
    + destruct (dict_get (_normalize_text w) (global_cities det)) as [city_data|] eqn:Eg.
      * destruct (_get_population city_data) as [p|] eqn:Ep; [|discriminate]. cbn [bind].
        destruct (global_candidates det rest) as [more|]; [|discriminate]. cbn [bind].
        intros [= <-] record population. specialize (IH more eq_refl record population).
        apply Nat.leb_le in E4.
        destruct (50000 <=? p)%Z eqn:E5.
        -- apply Z.leb_le in E5. simpl. rewrite IH. split.
           ++ intros [[= <- <-]|(word & Hin & Hrest)].
              ** exists w. repeat split; auto.
              ** exists word. split; [now right | exact Hrest].
           ++ intros (word & [<-|Hin] & H4 & Hg & Hp & H5).
              ** left. rewrite Eg in Hg. injection Hg as <-. rewrite Ep in Hp.
                 now injection Hp as <-.
              ** right. exists word. auto.
        -- apply Z.leb_gt in E5. rewrite IH. split.
           ++ intros (word & Hin & Hrest). exists word. split; [now right | exact Hrest].
           ++ intros (word & [<-|Hin] & H4 & Hg & Hp & H5).
              ** rewrite Eg in Hg. injection Hg as <-. rewrite Ep in Hp.
                 injection Hp as <-. lia.
              ** exists word. auto.
      * intros Hl record population. rewrite (IH l Hl). split.
        -- intros (word & Hin & Hrest). exists word. split; [now right | exact Hrest].
        -- intros (word & [<-|Hin] & H4 & Hg & Hrest); [congruence|]. exists word. auto.
    + apply Nat.leb_gt in E4.
      intros Hl record population. rewrite (IH l Hl). split.
      * intros (word & Hin & Hrest). exists word. split; [now right | exact Hrest].
      * intros (word & [<-|Hin] & H4 & Hrest); [lia|]. exists word. auto.
Qed.

End DetectorFacts.

(** X5.  Whatever the cities file holds, a name returned by
    [detect_moroccan_city] is one of the 35 names of [moroccan_cities]: the
    canonical names of the misspelling table are all among them, and the
    fuzzy step only returns members of the set.  The name is not empty, so
    the truth test [detect_city] applies to it never fails. *)
Theorem detect_moroccan_city_known_name (U : Unicode) (Nm : Numbers) (D : Difflib)
    (rows : list CityData) (user_input c : str) :
  detect_moroccan_city (CityDetector_init rows) user_input = Some c ->
  In c the_moroccan_cities /\ c <> [] /\
  detect_city (CityDetector_init rows) user_input = Returns (Some c, None).
Proof.
  intro Hd. destruct (detect_moroccan_city_init rows user_input c Hd) as [Hin Hne].
  repeat split; auto.
  unfold detect_city. rewrite Hd. destruct c; [congruence | reflexivity].
Qed.

(** X6.  When [detect_global_city] returns a record, some token of the
    input, cleaned, has at least 4 characters and is the key of that record,
    whose population is at least 50000; and no token of the input names a
    stored city of at least 4 characters with a larger population. *)
Theorem detect_global_city_largest (U : Unicode) (Nm : Numbers)
    (det : CityDetector) (user_input : str) (record : CityData) :
  detect_global_city det user_input = Returns (Some record) ->
  exists population,
    names_large_city det user_input record population /\
    forall record' population',
      names_large_city det user_input record' population' ->
      (population' <= population)%Z.
Proof.
  unfold detect_global_city.
  destruct (global_candidates det (split user_input)) as [l|] eqn:El; [|discriminate].
  cbn [bind]. intros [= Hh].
  destruct (hd_error (sorted_desc snd Z.ltb l)) as [[r p]|] eqn:Es; [|discriminate].
  injection Hh as ->.
  apply sorted_by_population_head in Es. destruct Es as [Hin Hmax].
  pose proof (global_candidates_spec det (split user_input) l El) as Hspec.
  exists p. split.
  - now apply Hspec.
  - intros record' population' Hc. apply Hspec in Hc. apply (Hmax _ Hc).
Qed.

(** X7.  On the detector built from any cities file, complete or cut short
    by an exception, [detect_city] returns: no stored population makes
    [_get_population] raise.  The pair never holds two results, its first
    component is what [detect_moroccan_city] returns, and a global city is
    only looked for when that is nothing. *)
Theorem detect_city_total_exclusive (U : Unicode) (Nm : Numbers) (D : Difflib)
    (rows : list CityData) (user_input : str) :
  exists moroccan_city global_city,
    detect_city (CityDetector_init rows) user_input = Returns (moroccan_city, global_city) /\
    moroccan_city = detect_moroccan_city (CityDetector_init rows) user_input /\
    (moroccan_city = None \/ global_city = None) /\
    (moroccan_city = None ->
     detect_global_city (CityDetector_init rows) user_input = Returns global_city).
Proof.
  destruct (detect_moroccan_city (CityDetector_init rows) user_input) as [c|] eqn:Hd.
  - destruct (detect_moroccan_city_init rows user_input c Hd) as [_ Hne].
    exists (Some c), None. unfold detect_city. rewrite Hd.
    destruct c; [congruence|]. repeat split; auto. discriminate.
  - assert (Hp : populations_parse (global_cities (CityDetector_init rows))).
    { destruct (CityDetector_init_fields rows) as (_ & _ & -> & _).
      apply _load_global_cities_parse. }
    destruct (global_candidates_returns (CityDetector_init rows) (split user_input) Hp)
      as [l Hl].
    exists None, (option_map fst (hd_error (sorted_desc snd Z.ltb l))).
    unfold detect_city, detect_global_city. rewrite Hd, Hl. simpl. auto.
Qed.

(** X8.  [detect_country] returns nothing exactly when no country of the
    set occurs in the cleaned input as a whole word.  A country it returns
    is in the set and occurs as a whole word, and it is Morocco only when
    every country that occurs is Morocco. *)
Theorem detect_country_prefers_foreign (U : Unicode) (det : CityDetector) (user_input : str) :
  match detect_country det user_input with
  | None =>
      forall c, In c (countries det) -> word_search c (_normalize_text user_input) = false
  | Some c =>
      In c (countries det) /\ word_search c (_normalize_text user_input) = true /\
      (py_lower c = lit "morocco" ->
       forall c', In c' (countries det) ->
                  word_search c' (_normalize_text user_input) = true ->
                  py_lower c' = lit "morocco")
  end.
Proof.
  unfold detect_country.
  set (query := _normalize_text user_input).
  set (detected := List.filter (fun country => word_search country query) (countries det)).
  assert (Hdet : forall c, In c detected <-> In c (countries det) /\ word_search c query = true)
    by (intro c; exact (filter_In (fun country => word_search country query) c (countries det))).
  destruct detected as [|first rest] eqn:Ed.
  - intros c Hc. destruct (word_search c query) eqn:E; auto.
    destruct (proj2 (Hdet c) (conj Hc E)).
  - set (foreign := List.filter (fun c => negb (str_eqb (py_lower c) (lit "morocco")))
                      (first :: rest)).
    assert (Hfor : forall c, In c foreign <->
                     In c (first :: rest) /\
                     negb (str_eqb (py_lower c) (lit "morocco")) = true)
      by (intro c;
          exact (filter_In (fun c => negb (str_eqb (py_lower c) (lit "morocco")))
                   c (first :: rest))).
    destruct foreign as [|c more] eqn:Ef.
    + destruct (proj1 (Hdet first) (or_introl eq_refl)) as [Hin Hw].
      repeat split; auto.
      intros _ c' Hc' Hw'.
      destruct (str_eqb (py_lower c') (lit "morocco")) eqn:E;
        [now apply str_eqb_eq in E|].
      assert (Hc : In c' (first :: rest)) by (apply Hdet; auto).
      destruct (proj2 (Hfor c') (conj Hc (f_equal negb E))).
    + destruct (proj1 (Hfor c) (or_introl eq_refl)) as [Hin Hn].
      destruct (proj1 (Hdet c) Hin) as [Hc Hw].
      repeat split; auto.
      intro Hm. rewrite Hm, str_eqb_refl in Hn. discriminate.
Qed.

(* ================================================================== *)
(** * The coordinate resolver *)
(* ================================================================== *)

Section ResolverChoice.

Context {U : Unicode} {Nm : Numbers} {D : Difflib}.

Lemma key_ltb_le a b : key_ltb a b = true -> key_le a b.
Proof.
  unfold key_ltb, key_le.
  destruct (Qcompare_spec (fst a) (fst b)) as [E|L|G]; try discriminate; auto.
  intro Hz. apply Z.ltb_lt in Hz. right. split; [exact E | lia].
Qed.

Lemma key_nltb_le a b : key_ltb a b = false -> key_le b a.
Proof.
  unfold key_ltb, key_le.
  destruct (Qcompare_spec (fst a) (fst b)) as [E|L|G]; try discriminate; auto.
  intro Hz. apply Z.ltb_ge in Hz. right. split; [now symmetry | exact Hz].
Qed.

Lemma key_le_trans a b c : key_le a b -> key_le b c -> key_le a c.
Proof.
  unfold key_le. intros [L1|[E1 Z1]] [L2|[E2 Z2]].
  - left. Lqa.lra.
  - left. Lqa.lra.
  - left. Lqa.lra.
  - right. split; [Lqa.lra | lia].
Qed.

Lemma pick_best_greatest pool c :
  pick_best pool = Some c ->
  In c pool /\
  forall c', In c' pool -> key_le (cand_score c', cand_pop c') (cand_score c, cand_pop c).
Proof.
  intro Hp. split; [now apply pick_best_in|].
  unfold pick_best in Hp.
  apply (sorted_desc_head_greatest (fun c => (cand_score c, cand_pop c)) key_ltb key_le
           key_le_trans key_ltb_le key_nltb_le pool c Hp).
Qed.

Lemma pick_best_none pool : pick_best pool = None -> pool = [].
Proof.
  unfold pick_best. destruct pool as [|c r]; auto.
  intro Hn.
  assert (Hin : In c (sorted_desc (fun c => (cand_score c, cand_pop c)) key_ltb (c :: r)))
    by (apply sorted_desc_in_rev; now left).
  destruct (sorted_desc _ key_ltb (c :: r)); [destruct Hin | discriminate].
Qed.

Lemma resolved_fields city_name v score r :
  resolved city_name v score = Some r ->
  rp_name r = str_or (row_city v) (str_or (row_city_ascii v) city_name) /\
  rp_country r = row_country v /\
  parse_coordinate (row_lat v) = Some (rp_lat r) /\
  parse_coordinate (row_lng v) = Some (rp_lng r) /\
  rp_score r = score.
Proof.
  unfold resolved.
  destruct (parse_coordinate (row_lat v)) as [lat|]; [|discriminate].
  destruct (parse_coordinate (row_lng v)) as [lng|]; [|discriminate].
  intros [= <-]. simpl. auto.
Qed.

Lemma candidate_of_item query m t item c :
  candidate_of query m t item = Some c -> fst (fst c) = item.
Proof.
  unfold candidate_of. destruct item as [k v].
  destruct (Qle_bool t _); [|discriminate]. now intros [= <-].
Qed.

Lemma filter_some_in_iff {A B} (f : A -> option B) l y :
  In y (filter_some f l) <-> exists x, In x l /\ f x = Some y.
Proof.
  induction l as [|x r IH]; simpl.
  - split; [intros [] | intros (x & [] & _)].
  - destruct (f x) as [z|] eqn:E; simpl; rewrite IH; split.
    + intros [<-|(x' & Hin & Hx)]; [exists x; auto | exists x'; auto].
    + intros (x' & [<-|Hin] & Hx); [left; congruence | right; exists x'; auto].
    + intros (x' & Hin & Hx). exists x'; auto.
    + intros (x' & [<-|Hin] & Hx); [congruence | exists x'; auto].
Qed.

Lemma find_city_coordinates_fuzzy det city_name r :
  dict_get (normalize_text city_name) (global_cities det) = None ->
  find_city_coordinates det city_name = Some r ->
  exists c,
    In c (resolver_candidates det city_name) /\
    resolved city_name (snd (fst (fst c))) (cand_score c) = Some r /\
    forall c', In c' (resolver_candidates det city_name) ->
      (is_major c' -> is_major c) /\
      ((is_major c' <-> is_major c) ->
       key_le (cand_score c', cand_pop c') (cand_score c, cand_pop c)).
Proof.
  intros Hg. unfold find_city_coordinates.
  destruct (negb (nonempty city_name)); [discriminate|].
  rewrite Hg. fold (resolver_candidates det city_name).
  set (cands := resolver_candidates det city_name).
  set (major := List.filter (fun c => (50000 <=? cand_pop c)%Z) cands).
  set (minor := List.filter (fun c => (cand_pop c <? 50000)%Z) cands).
  assert (Hmajor : forall c, In c major <-> In c cands /\ is_major c).
  { intro c. unfold major, is_major. rewrite filter_In, Z.leb_le. tauto. }
  assert (Hminor : forall c, In c minor <-> In c cands /\ ~ is_major c).
  { intro c. unfold minor, is_major. rewrite filter_In, Z.ltb_lt. intuition lia. }
  destruct (pick_best major) as [c|] eqn:Emaj.
  - destruct (pick_best_greatest _ _ Emaj) as [Hin Hmax].
    apply Hmajor in Hin. destruct Hin as [Hin Hc].
    destruct c as [[[k v] score] pop]. intro Hr.
    exists (k, v, score, pop). repeat split; auto.
    intro Hsame. apply Hmax. apply Hmajor. tauto.
  - apply pick_best_none in Emaj.
    destruct (pick_best minor) as [c|] eqn:Emin; [|discriminate].
    destruct (pick_best_greatest _ _ Emin) as [Hin Hmax].
    apply Hminor in Hin. destruct Hin as [Hin Hc].
    destruct c as [[[k v] score] pop]. intro Hr.
    exists (k, v, score, pop). split; [exact Hin|]. split; [exact Hr|].
    intros c' Hc'. split.
    + intro Hm. assert (Hx : In c' major) by (apply Hmajor; auto).
      rewrite Emaj in Hx. destruct Hx.
    + intro Hsame. apply Hmax. apply Hminor. tauto.
Qed.

End ResolverChoice.

(** X9.  A place returned by [find_city_coordinates] comes from the
    gazetteer: its country and its coordinates are those of a stored
    record, and its name is the city of that record, else its ASCII name,
    else the name asked for.  The name asked for is not empty and neither is
    the name returned; with an empty gazetteer nothing resolves. *)
Theorem find_city_coordinates_from_gazetteer
    (U : Unicode) (Nm : Numbers) (D : Difflib)
    (det : CityDetector) (city_name : str) (r : ResolvedPlace) :
  find_city_coordinates det city_name = Some r ->
  city_name <> [] /\ rp_name r <> [] /\
  exists k v,
    In (k, v) (global_cities det) /\
    rp_name r = str_or (row_city v) (str_or (row_city_ascii v) city_name) /\
    rp_country r = row_country v /\
    parse_coordinate (row_lat v) = Some (rp_lat r) /\
    parse_coordinate (row_lng v) = Some (rp_lng r).
Proof.
  intro Hr.
  assert (Hne : city_name <> []).
  { intros ->. discriminate Hr. }
  assert (Hrec : exists k v score,
             In (k, v) (global_cities det) /\ resolved city_name v score = Some r).
  { destruct (dict_get (normalize_text city_name) (global_cities det)) as [data|] eqn:Eg.
    - exists (normalize_text city_name), data, 1%Q. split; [now apply dict_get_in|].
      unfold find_city_coordinates in Hr.
      destruct (negb (nonempty city_name)); [discriminate|]. now rewrite Eg in Hr.
    - destruct (find_city_coordinates_fuzzy det city_name r Eg Hr) as (c & Hin & Hres & _).
      unfold resolver_candidates in Hin. apply filter_some_in_iff in Hin.
      destruct Hin as (item & Hitem & Hc). apply candidate_of_item in Hc.
      destruct c as [[[k v] score] pop]. simpl in *. subst item.
      exists k, v, score. auto. }
  destruct Hrec as (k & v & score & Hin & Hres).
  apply resolved_fields in Hres. destruct Hres as (Hn & Hc & Hlat & Hlng & _).
  split; [exact Hne|]. split.
  - rewrite Hn. unfold str_or.
    destruct (row_city v); [|discriminate]. destruct (row_city_ascii v); [exact Hne | discriminate].
  - exists k, v. auto.
Qed.

(** X10.  When the name asked for is not a key of the gazetteer, the place
    returned is one of the candidates of the fuzzy search, and a candidate
    of at least 50000 inhabitants is preferred to every smaller one whatever
    their scores: the candidate taken is a major city as soon as one
    candidate is, and among the candidates of its own class none has a
    higher score, nor the same score and a larger population. *)
Theorem find_city_coordinates_prefers_major
    (U : Unicode) (Nm : Numbers) (D : Difflib)
    (det : CityDetector) (city_name : str) (r : ResolvedPlace) :
  dict_get (normalize_text city_name) (global_cities det) = None ->
  find_city_coordinates det city_name = Some r ->
  exists c,
    In c (resolver_candidates det city_name) /\
    resolved city_name (snd (fst (fst c))) (cand_score c) = Some r /\
    forall c', In c' (resolver_candidates det city_name) ->
      (is_major c' -> is_major c) /\
      ((is_major c' <-> is_major c) ->
       key_le (cand_score c', cand_pop c') (cand_score c, cand_pop c)).
Proof. apply find_city_coordinates_fuzzy. Qed.

(* ================================================================== *)
(** * Range of the great-circle distance *)
(* ================================================================== *)

Section HaversineRange.

#[local] Open Scope R_scope.

Lemma atan_nonneg x : 0 <= x -> 0 <= atan x.
Proof.
  intros [Hx|<-]; [|rewrite atan_0; lra].
  pose proof (atan_increasing 0 x Hx) as Hi. rewrite atan_0 in Hi. lra.
Qed.

Lemma atan2_quadrant y x : 0 <= y -> 0 <= x -> 0 <= atan2 y x <= PI / 2.
Proof.
  intros Hy Hx. pose proof PI_RGT_0 as Hpi. unfold atan2.
  destruct (Rlt_dec 0 x) as [Hpos|Hnpos].
  - split.
    + apply atan_nonneg. apply Rmult_le_pos; [exact Hy|].
      left. now apply Rinv_0_lt_compat.
    + left. apply atan_bound.
  - destruct (Rlt_dec x 0); [lra|].
    destruct (Rlt_dec 0 y); [lra|].
    destruct (Rlt_dec y 0); lra.
Qed.

End HaversineRange.

(** X11.  Over the reals the haversine distance of any two points is never
    negative and never more than half the circumference of the sphere,
    6371 times pi kilometres. *)
Theorem haversine_distance_range (lat1 lon1 lat2 lon2 : R) :
  (0 <= haversine_distance lat1 lon1 lat2 lon2 <= 6371 * PI)%R.
Proof.
  unfold haversine_distance.
  match goal with
  | |- (0 <= 6371 * (2 * atan2 ?y ?x) <= _)%R =>
      pose proof (atan2_quadrant y x (sqrt_pos _) (sqrt_pos _)) as Hq
  end.
  lra.
Qed.

(* ================================================================== *)
(** * Place extraction *)
(* ================================================================== *)

Section ExtractionFacts.

Context {U : Unicode} {Nm : Numbers} {D : Difflib} {L : Nltk} {Sk : Sklearn} {H : Host}.

Variable det : CityDetector.
Variable max_cities : nat.

Lemma str_in_false x l : str_in x l = false -> ~ In x l.
Proof.
  intros Hf Hin.
  assert (Ht : str_in x l = true).
  { apply existsb_exists. exists x. split; auto. apply str_eqb_refl. }
  congruence.
Qed.

Lemma at_least_false found : at_least max_cities found = false -> (List.length found < max_cities)%nat.
Proof. unfold at_least. intro E. apply Nat.leb_gt in E. exact E. Qed.

Lemma distinct_places_nil : distinct_places det max_cities [].
Proof.
  split; [simpl; lia|]. split; [constructor | intros p []].
Qed.

Lemma distinct_places_add found c name :
  distinct_places det max_cities found ->
  (List.length found < max_cities)%nat ->
  known found c = false ->
  find_city_coordinates det name = Some c ->
  distinct_places det max_cities (found ++ [c]).
Proof.
  intros (Hlen & Hnd & Hres) Hlt Hk Hc. split; [|split].
  - rewrite length_app. simpl. lia.
  - rewrite map_app. simpl. apply NoDup_app; auto.
    + constructor; [tauto | constructor].
    + intros x Hx [Hy|[]]. subst x. apply str_in_false in Hk. now apply Hk.
  - intros p Hp. apply in_app_iff in Hp. destruct Hp as [Hp|[<-|[]]]; eauto.
Qed.

Lemma scan_cities_distinct text names found :
  distinct_places det max_cities found ->
  (List.length found < max_cities)%nat ->
  distinct_places det max_cities (fst (scan_cities det text max_cities found names)) /\
  (snd (scan_cities det text max_cities found names) = false ->
   (List.length (fst (scan_cities det text max_cities found names)) < max_cities)%nat).
Proof.
  revert found. induction names as [|name rest IH]; intros found Hinv Hlt; simpl; auto.
  destruct (word_search _ _); [|now apply IH].
  destruct (find_city_coordinates det name) as [coords|] eqn:Ef; [|now apply IH].
  destruct (known found coords) eqn:Ek; [now apply IH|].
  pose proof (distinct_places_add found coords name Hinv Hlt Ek Ef) as Hadd.
  destruct (at_least max_cities (found ++ [coords])) eqn:Ea.
  - simpl. split; [exact Hadd | discriminate].
  - apply IH; [exact Hadd | now apply at_least_false].
Qed.

Lemma scan_misspellings_distinct text items found :
  distinct_places det max_cities found ->
  distinct_places det max_cities (scan_misspellings det text max_cities found items).
Proof.
  revert found. induction items as [|[misspelling canonical] rest IH]; intros found Hinv;
    simpl; auto.
  destruct (at_least max_cities found) eqn:Ea; auto.
  destruct (word_search _ _); [|now apply IH].
  destruct (find_city_coordinates det canonical) as [coords|] eqn:Ef; [|now apply IH].
  apply IH. destruct (known found coords) eqn:Ek; auto.
  apply distinct_places_add with (name := canonical); auto. now apply at_least_false.
Qed.

Lemma scan_groups_distinct cands found :
  distinct_places det max_cities found ->
  distinct_places det max_cities (scan_groups det max_cities found cands).
Proof.
  revert found. induction cands as [|cand rest IH]; intros found Hinv; simpl; auto.
  destruct (at_least max_cities found) eqn:Ea; auto.
  destruct (find_city_coordinates det cand) as [c|] eqn:Ef; [|now apply IH].
  apply IH. destruct (known found c) eqn:Ek; auto.
  apply distinct_places_add with (name := cand); auto. now apply at_least_false.
Qed.

Lemma ngram_step_distinct tokens n state i :
  distinct_places det max_cities (fst state) ->
  distinct_places det max_cities (fst (ngram_step det tokens max_cities n state i)).
Proof.
  destruct state as [found used]. simpl. intro Hinv.
  destruct (at_least max_cities found) eqn:Ea; auto.
  destruct (span_in _ used); auto.
  destruct (_ <? 2)%nat; auto.
  destruct (_ && _)%bool; auto.
  destruct (find_city_coordinates det _) as [candidate|] eqn:Ef; auto.
  destruct (known found candidate) eqn:Ek; auto.
  simpl. eapply distinct_places_add; eauto. now apply at_least_false.
Qed.

Lemma fold_ngram_step_distinct tokens n idxs state :
  distinct_places det max_cities (fst state) ->
  distinct_places det max_cities
    (fst (fold_left (ngram_step det tokens max_cities n) idxs state)).
Proof.
  revert state. induction idxs as [|i rest IH]; intros state Hinv; simpl; auto.
  apply IH. now apply ngram_step_distinct.
Qed.

Lemma ngram_scan_distinct tokens found :
  distinct_places det max_cities found ->
  distinct_places det max_cities (ngram_scan det tokens max_cities found).
Proof.
  intro Hinv. unfold ngram_scan.
  assert (Hgen : forall ns state,
             distinct_places det max_cities (fst state) ->
             distinct_places det max_cities
               (fst (fold_left
                       (fun state n =>
                          fold_left (ngram_step det tokens max_cities n)
                            (seq 0 (List.length tokens - n + 1)) state)
                       ns state))).
  { induction ns as [|n rest IH]; intros state Hs; simpl; auto.
    apply IH. now apply fold_ngram_step_distinct. }
  now apply Hgen.
Qed.

Lemma distinct_places_firstn found :
  distinct_places det max_cities found ->
  distinct_places det max_cities (firstn max_cities found).
Proof.
  intros Hinv. destruct Hinv as (Hlen & Hrest).
  rewrite firstn_all2 by exact Hlen. split; auto.
Qed.

End ExtractionFacts.

(** X13.  Asked for at most [max_cities] places, with [max_cities] at least
    1, the place extractor returns at most that many; no two of them have
    the same normalized name, and each is an answer of
    [find_city_coordinates] to some name, hence resolved with a confidence of
    at least 0.80. *)
Theorem extracted_places_distinct
    (U : Unicode) (Nm : Numbers) (D : Difflib) (H : Host)
    (rt : Retriever) (text : str) (max_cities : nat) :
  (1 <= max_cities)%nat ->
  let found := _extract_cities_from_text rt text max_cities in
  (List.length found <= max_cities)%nat /\
  NoDup (List.map (fun p => normalize_text (rp_name p)) found) /\
  forall p, In p found ->
    (80 # 100 <= rp_score p)%Q /\
    exists name, find_city_coordinates (city_detector rt) name = Some p.
Proof.
  intros Hmax found.
  assert (Hinv : distinct_places (city_detector rt) max_cities found).
  { unfold found, _extract_cities_from_text.
    destruct (negb (nonempty text)); [apply distinct_places_nil|].
    pose proof (scan_cities_distinct (city_detector rt) max_cities text cities []
                  (distinct_places_nil _ _) Hmax) as [Hscan _].
    destruct (scan_cities (city_detector rt) text max_cities [] cities) as [f1 [|]];
      simpl in Hscan; auto.
    pose proof (scan_misspellings_distinct (city_detector rt) max_cities text
                  (moroccan_city_misspellings (city_detector rt)) f1 Hscan) as Hmis.
    destruct (at_least max_cities (scan_misspellings _ _ _ f1 _));
      [now apply distinct_places_firstn|].
    match goal with
    | |- context [at_least max_cities ?f] =>
        assert (Hgrp : distinct_places (city_detector rt) max_cities f)
    end.
    { destruct (re_search_between_from (py_lower text)) as [[a b]|]; auto.
      now apply scan_groups_distinct. }
    match goal with
    | |- context [at_least max_cities ?f] => destruct (at_least max_cities f)
    end; auto.
    now apply ngram_scan_distinct. }
  destruct Hinv as (Hlen & Hnd & Hres).
  split; [exact Hlen|]. split; [exact Hnd|].
  intros p Hp. destruct (Hres p Hp) as [name Hname]. split.
  - now apply find_city_coordinates_confident in Hname.
  - now exists name.
Qed.

(* ================================================================== *)
(** * The intent classifier names a category *)
(* ================================================================== *)

Section IntentNames.

Context {U : Unicode} {D : Difflib} {L : Nltk}.

Lemma str_in_true x l : str_in x l = true -> In x l.
Proof.
  intro Ht. apply existsb_exists in Ht. destruct Ht as (z & Hz & Ez).
  apply str_eqb_eq in Ez. now subst z.
Qed.

Lemma first_category_in test table i :
  first_category test table = Some i ->
  In i (List.map fst table) /\ promoted i = false.
Proof.
  induction table as [|[name kws] rest IH]; simpl; [discriminate|].
  destruct (promoted name) eqn:Ep.
  - intro Hr. destruct (IH Hr). auto.
  - destruct (any_keyword test kws).
    + intros [= <-]. auto.
    + intro Hr. destruct (IH Hr). auto.
Qed.

Lemma detect_intent_in_names table user_input i :
  detect_intent_in table user_input = Some i ->
  i = lit "joke_or_troll" \/ i = lit "ask_distance" \/ i = lit "ask_weather" \/
  (In i (List.map fst table) /\ promoted i = false).
Proof.
  unfold detect_intent_in.
  destruct (any_keyword _ (keywords_of table (lit "joke_or_troll"))); [intros [= <-]; auto|].
  destruct (any_keyword _ (keywords_of table (lit "ask_distance"))); [intros [= <-]; auto|].
  destruct (any_keyword _ (keywords_of table (lit "ask_weather"))); [intros [= <-]; auto|].
  intro Hr. apply first_category_in in Hr. auto.
Qed.

End IntentNames.

(** X14.  An intent returned by [_detect_intent] is the name of one of the
    categories of [intent_keywords], never another text and never the empty
    one; so the tests [if detected_intent] of the answer branches hold
    whenever an intent was found. *)
Theorem _detect_intent_names_category (U : Unicode) (D : Difflib) (L : Nltk)
    (user_input i : str) :
  _detect_intent user_input = Some i ->
  In i (List.map fst intent_keywords) /\ i <> [].
Proof.
  intro Hd. unfold _detect_intent in Hd. apply detect_intent_in_names in Hd.
  assert (Hin : In i (List.map fst intent_keywords)).
  { destruct Hd as [->|[->|[->|[Hin _]]]]; auto;
      apply str_in_true; vm_compute; reflexivity. }
  split; auto.
  assert (Hne : forallb nonempty (List.map fst intent_keywords) = true)
    by (vm_compute; reflexivity).
  rewrite forallb_forall in Hne. specialize (Hne i Hin). intros ->. discriminate.
Qed.

(* ================================================================== *)
(** * How many answers, and where their texts come from *)
(* ================================================================== *)

Section AnswerCount.

Context {U : Unicode} {Nm : Numbers} {D : Difflib} {L : Nltk} {Sk : Sklearn} {H : Host}.

Lemma insert_desc_length {A K} (key : A -> K) (ltb : K -> K -> bool) x l :
  List.length (insert_desc key ltb x l) = S (List.length l).
Proof.
  induction l as [|y r IH]; simpl; auto.
  destruct (ltb (key x) (key y)); simpl; auto.
Qed.

Lemma sorted_desc_length {A K} (key : A -> K) (ltb : K -> K -> bool) l :
  List.length (sorted_desc key ltb l) = List.length l.
Proof.
  induction l as [|x r IH]; simpl; auto. now rewrite insert_desc_length, IH.
Qed.

Lemma slice_to_one_to {A} (top_k : Z) (l : list A) :
  (1 <= top_k)%Z -> l <> [] ->
  (1 <= List.length (slice_to top_k l))%nat /\
  (Z.of_nat (List.length (slice_to top_k l)) <= top_k)%Z.
Proof.
  intros Hk Hl. unfold slice_to.
  destruct (0 <=? top_k)%Z eqn:E; [|apply Z.leb_gt in E; lia].
  rewrite length_firstn. destruct l as [|x r]; [congruence|]. simpl List.length. lia.
Qed.

Lemma choice_in {A} (l : list A) x : choice l = Some x -> In x l.
Proof.
  unfold choice. destruct l as [|d r] eqn:El; [discriminate|]. rewrite <- El.
  intro Hx. injection Hx as Hx. rewrite <- Hx.
  apply nth_In. apply Nat.mod_upper_bound. rewrite El. simpl. lia.
Qed.

Lemma fallback_one : exists text, fallback = [(text, 0%Q)] /\ In text generic_fallback.
Proof.
  unfold fallback. destruct (choice generic_fallback) as [text|] eqn:Ec.
  - exists text. split; auto. now apply choice_in.
  - discriminate.
Qed.

Lemma immediate_reply_one rt detected_intent reply :
  immediate_reply rt detected_intent = Some reply ->
  exists e, In e (qa_list rt) /\ reply = [(assistant e, 1%Q)].
Proof.
  unfold immediate_reply. destruct (immediate detected_intent); [|discriminate].
  destruct (choice _) as [e|] eqn:Ec; [|discriminate].
  intros [= <-]. exists e. split; auto.
  apply choice_in in Ec. apply filter_In in Ec. tauto.
Qed.

Lemma exact_match_in user_norm entries e :
  exact_match user_norm entries = Some e -> In e entries.
Proof.
  induction entries as [|x r IH]; simpl; [discriminate|].
  destruct (str_eqb user_norm (_norm_question x)); [intros [= <-]; auto | auto].
Qed.

Lemma entry_eqb_refl e : entry_eqb e e = true.
Proof. unfold entry_eqb. now rewrite !str_eqb_refl. Qed.

Lemma list_index_lt e l : In e l -> (list_index e l < List.length l)%nat.
Proof.
  induction l as [|x r IH]; simpl; [intros []|].
  destruct (entry_eqb x e) eqn:E; [lia|].
  intros [->|Hin]; [rewrite entry_eqb_refl in E; discriminate|].
  specialize (IH Hin). lia.
Qed.

Lemma argmax_from_pos best i sims :
  (fst best < i)%nat -> (fst (argmax_from best i sims) < i + List.length sims)%nat.
Proof.
  revert best i. induction sims as [|x rest IH]; intros best i Hb; simpl; [lia|].
  specialize (IH (if score_ltb (snd best) x then (i, x) else best) (S i)).
  destruct (score_ltb (snd best) x); simpl in IH; lia.
Qed.

Lemma best_by_tfidf_one rt user_norm idxs :
  idxs <> [] ->
  (forall idx, In idx idxs -> (idx < List.length (qa_list rt))%nat) ->
  exists e score, In e (qa_list rt) /\ best_by_tfidf rt user_norm idxs = [(assistant e, score)].
Proof.
  intros Hne Hvalid. unfold best_by_tfidf.
  destruct (List.map (tfidf_similarity (questions rt) user_norm) idxs) as [|x rest] eqn:Em.
  { destruct idxs; [congruence | discriminate]. }
  pose proof (argmax_from_pos (O, x) 1 rest (Nat.lt_0_succ 0)) as Hpos.
  destruct (argmax_from (O, x) 1 rest) as [pos top]. simpl in Hpos.
  assert (Hlen : List.length idxs = S (List.length rest)).
  { rewrite <- (length_map (tfidf_similarity (questions rt) user_norm)), Em. reflexivity. }
  destruct (nth_error idxs pos) as [best_idx|] eqn:En.
  - apply nth_error_In in En. specialize (Hvalid best_idx En).
    unfold entry_at.
    destruct (nth_error (qa_list rt) best_idx) as [e|] eqn:Ee.
    + exists e, top. split; auto. now apply nth_error_In in Ee.
    + apply nth_error_None in Ee. lia.
  - apply nth_error_None in En. lia.
Qed.

Lemma blend_scores_texts rt user_norm idxs text score :
  In (text, score) (blend_scores rt user_norm idxs) ->
  exists e, In e (qa_list rt) /\ text = assistant e.
Proof.
  unfold blend_scores. intro Hin. apply filter_some_in_iff in Hin.
  destruct Hin as (idx & _ & Hf). unfold entry_at in Hf.
  destruct (nth_error (qa_list rt) idx) as [e|] eqn:Ee; [|discriminate].
  destruct (Qlt_le_dec _ _); [|discriminate]. injection Hf as <- _.
  exists e. split; auto. now apply nth_error_In in Ee.
Qed.

Lemma general_scores_texts rt user_norm idxs text score :
  In (text, score) (general_scores rt user_norm idxs) ->
  exists e, In e (qa_list rt) /\ text = assistant e.
Proof.
  unfold general_scores. intro Hin. apply filter_some_in_iff in Hin.
  destruct Hin as (idx & _ & Hf). unfold entry_at in Hf.
  destruct (nth_error (qa_list rt) idx) as [e|] eqn:Ee; [|discriminate].
  destruct (Qlt_le_dec _ _); [|discriminate]. injection Hf as <- _.
  exists e. split; auto. now apply nth_error_In in Ee.
Qed.

End AnswerCount.

Section CorpusBranches.

Context {U : Unicode} {Nm : Numbers} {D : Difflib} {L : Nltk} {Sk : Sklearn} {H : Host}.

Lemma corpus_reply_fallback rt top_k : corpus_reply rt top_k fallback.
Proof.
  destruct fallback_one as (text & -> & Hin). right. left. exists text. auto.
Qed.

Lemma corpus_reply_sorted rt top_k (scored : Answers) :
  (forall text score, In (text, score) scored ->
                      exists e, In e (qa_list rt) /\ text = assistant e) ->
  corpus_reply rt top_k
    match sort_by_score scored with
    | [] => fallback
    | x :: r => slice_to top_k (x :: r)
    end.
Proof.
  intro Htexts.
  destruct (sort_by_score scored) as [|x r] eqn:Es; [apply corpus_reply_fallback|].
  right. right. exists (x :: r). split; [discriminate|]. split; auto.
  intros text score Hin. rewrite <- Es in Hin.
  apply (sorted_desc_in snd score_ltb) in Hin. eauto.
Qed.

Lemma _answer_moroccan_city_query_reply rt user_input city_name top_k :
  corpus_reply rt top_k (_answer_moroccan_city_query rt user_input city_name top_k).
Proof.
  unfold _answer_moroccan_city_query.
  destruct (exact_match _ _) as [entry|] eqn:Ee.
  { left. exists entry, 1%Q. split; auto. now apply exact_match_in in Ee. }
  destruct (immediate_reply rt _) as [reply|] eqn:Ei.
  { apply immediate_reply_one in Ei. destruct Ei as (e & He & ->). left. eauto. }
  match goal with
  | |- corpus_reply _ _ (match ?idxs with [] => _ | _ => _ end) =>
      destruct idxs as [|i0 idxs'] eqn:Ec; [apply corpus_reply_fallback|]
  end.
  apply corpus_reply_sorted. intros text score. apply blend_scores_texts.
Qed.

Lemma _answer_generic_query_reply rt user_input detected_intent top_k :
  corpus_reply rt 1 (_answer_generic_query rt user_input detected_intent top_k).
Proof.
  unfold _answer_generic_query.
  destruct (exact_match _ _) as [entry|] eqn:Ee.
  { left. exists entry, 1%Q. split; auto. now apply exact_match_in in Ee. }
  destruct (immediate_reply rt _) as [reply|] eqn:Ei.
  { apply immediate_reply_one in Ei. destruct Ei as (e & He & ->). left. eauto. }
  match goal with
  | |- corpus_reply _ _ (match ?idxs with [] => _ | _ => _ end) =>
      destruct idxs as [|i0 idxs'] eqn:Ec; [apply corpus_reply_fallback|]
  end.
  apply corpus_reply_sorted. intros text score. apply blend_scores_texts.
Qed.

Lemma _answer_general_morocco_query_reply rt user_input top_k :
  corpus_reply rt top_k (_answer_general_morocco_query rt user_input top_k).
Proof.
  unfold _answer_general_morocco_query.
  destruct (exact_match _ _) as [entry|] eqn:Ee.
  { left. exists entry, 1%Q. split; auto. now apply exact_match_in in Ee. }
  destruct (immediate_reply rt _) as [reply|] eqn:Ei.
  { apply immediate_reply_one in Ei. destruct Ei as (e & He & ->). left. eauto. }
  destruct (List.filter _ (qa_list rt)) as [|e0 es] eqn:Ef;
    [apply corpus_reply_fallback|].
  set (idxs := List.map (fun e => list_index e (qa_list rt)) (e0 :: es)).
  destruct (general_scores rt _ idxs) as [|p scored] eqn:Eg.
  - destruct (best_by_tfidf_one rt (normalize_text user_input) idxs) as (e & score & He & ->).
    + discriminate.
    + intros idx Hidx. apply in_map_iff in Hidx. destruct Hidx as (e & <- & He).
      apply list_index_lt. rewrite <- Ef in He. apply filter_In in He. tauto.
    + left. eauto.
  - right. right. exists (sort_by_score (p :: scored)). split; [|split; auto].
    + intro Hs. apply (f_equal (@List.length _)) in Hs.
      unfold sort_by_score in Hs. rewrite sorted_desc_length in Hs. discriminate.
    + intros text score Hin. apply (sorted_desc_in snd score_ltb) in Hin.
      rewrite <- Eg in Hin. now apply general_scores_texts in Hin.
Qed.

Lemma corpus_reply_count rt top_k answers :
  (1 <= top_k)%Z -> corpus_reply rt top_k answers -> one_to top_k answers.
Proof.
  intros Hk [(e & score & _ & ->)|[(text & _ & ->)|(scored & Hne & _ & ->)]].
  - split; simpl; lia.
  - split; simpl; lia.
  - now apply slice_to_one_to.
Qed.

Lemma corpus_reply_texts rt top_k answers :
  corpus_reply rt top_k answers -> texts_from_corpus rt answers.
Proof.
  intros [(e & score & He & ->)|[(text & Ht & ->)|(scored & _ & Hs & ->)]] t s Hin.
  - destruct Hin as [[= <- _]|[]]. right. eauto.
  - destruct Hin as [[= <- _]|[]]. now left.
  - apply slice_to_in in Hin. right. eauto.
Qed.

Lemma one_to_weaken top_k answers : (1 <= top_k)%Z -> one_to 1 answers -> one_to top_k answers.
Proof. unfold one_to. intros Hk [H1 H2]. split; lia. Qed.

Lemma answer_weather_single moroccan_city global_city :
  List.length (answer_weather moroccan_city global_city) = 1%nat.
Proof.
  unfold answer_weather.
  destruct moroccan_city as [c|]; [|destruct global_city as [g|]];
    try destruct (get_weather _); reflexivity.
Qed.

Lemma answer_distance_single rt user_input :
  List.length (answer_distance rt user_input) = 1%nat.
Proof.
  unfold answer_distance.
  assert (Hlast : forall parts,
             List.length
               match resolve_parts (city_detector rt) [] parts with
               | a :: b :: _ =>
                   [(get_city_distance (city_detector rt) (rp_name a) (rp_name b), 1%Q)]
               | _ => [(two_cities_please, (5 # 10)%Q)]
               end = 1%nat).
  { intro parts. destruct (resolve_parts _ _ _) as [|a [|b r]]; reflexivity. }
  destruct (_extract_cities_from_text rt (strip user_input) 2) as [|a [|b r]].
  - apply Hlast.
  - destruct (_extract_cities_from_text rt _ 1) as [|more r]; [apply Hlast | reflexivity].
  - reflexivity.
Qed.

Lemma get_answer_count rt user_input top_k answers :
  (1 <= top_k)%Z ->
  get_answer rt user_input top_k = Returns answers ->
  one_to top_k answers.
Proof.
  intros Hk.
  assert (Hone : forall l : Answers, List.length l = 1%nat ->
            Returns l = Returns answers -> one_to top_k answers).
  { intros l Hl [= <-]. unfold one_to. rewrite Hl. lia. }
  assert (Hreply : forall k l, (k = 1 \/ k = top_k)%Z -> corpus_reply rt k l ->
            Returns l = Returns answers -> one_to top_k answers).
  { intros k l Hkk Hl [= <-].
    destruct Hkk as [->| ->].
    - apply one_to_weaken; auto. now apply corpus_reply_count with (rt := rt).
    - now apply corpus_reply_count with (rt := rt). }
  unfold get_answer.
  destruct (nonempty (strip user_input)) eqn:Eblank; cbn [negb].
  2:{ now apply Hone. }
  destruct (detect_city (city_detector rt) user_input) as [[m g]|e]; cbn [bind];
    [|discriminate].
  destruct (is_intent (_detect_intent user_input) "ask_weather").
  { apply Hone, answer_weather_single. }
  destruct (is_intent (_detect_intent user_input) "ask_distance").
  { apply Hone, answer_distance_single. }
  destruct m as [city_name|].
  { apply (Hreply top_k); auto. apply _answer_moroccan_city_query_reply. }
  destruct g as [record|]; [now apply Hone|].
  destruct (foreign_country _) as [country|]; [now apply Hone|].
  destruct (is_morocco_mentioned user_input).
  - apply (Hreply top_k); auto. apply _answer_general_morocco_query_reply.
  - apply (Hreply 1%Z); auto. apply _answer_generic_query_reply.
Qed.

Lemma get_answer_default rt user_input answers :
  get_answer rt user_input 1 = Returns answers ->
  exists text score, answers = [(text, score)].
Proof.
  intro Hr. destruct (get_answer_count rt user_input 1 answers) as [H1 H2]; [lia | exact Hr |].
  destruct answers as [|[text score] [|p r]]; simpl in *; try lia.
  now exists text, score.
Qed.

End CorpusBranches.

(** X15.  Whenever [get_answer] returns, with [top_k] at least 1, it returns
    at least one answer and at most [top_k], for every retriever and every
    input; with the default [top_k = 1] it returns exactly one.  (Whether it
    returns is not said here: an exception of the city detector, or of a
    corpus record read without its answer, leaves through [get_answer].) *)
Theorem get_answer_one_to_top_k
    (U : Unicode) (Nm : Numbers) (D : Difflib) (L : Nltk) (Sk : Sklearn) (H : Host)
    (rt : Retriever) (user_input : str) (top_k : Z) (answers : Answers) :
  (1 <= top_k)%Z ->
  get_answer rt user_input top_k = Returns answers ->
  (1 <= List.length answers)%nat /\
  (Z.of_nat (List.length answers) <= top_k)%Z /\
  (top_k = 1%Z -> exists text score, answers = [(text, score)]).
Proof.
  intros Hk Hr.
  destruct (get_answer_count rt user_input top_k answers Hk Hr) as [H1 H2].
  repeat split; auto.
  intros ->. now apply get_answer_default with (rt := rt) (user_input := user_input).
Qed.

(** X16.  [_answer_generic_query] does not use [top_k]: whatever its value,
    also 0 or negative, the branch returns exactly one answer. *)
Theorem _answer_generic_query_single_answer
    (U : Unicode) (Nm : Numbers) (D : Difflib) (L : Nltk) (Sk : Sklearn) (H : Host)
    (rt : Retriever) (user_input : str) (detected_intent : option str) (top_k : Z) :
  exists text score,
    _answer_generic_query rt user_input detected_intent top_k = [(text, score)].
Proof.
  pose proof (_answer_generic_query_reply rt user_input detected_intent top_k) as Hr.
  apply corpus_reply_count in Hr; [|lia]. destruct Hr as [H1 H2].
  destruct (_answer_generic_query rt user_input detected_intent top_k)
    as [|[text score] [|p r]]; simpl in *; try lia.
  now exists text, score.
Qed.

(** X17.  When the input reaches a branch that consults the corpus, every
    text [get_answer] returns is the answer of a corpus entry or one of the
    three sentences of [generic_fallback]; the engine composes no text of
    its own there. *)
Theorem corpus_branch_texts_from_corpus
    (U : Unicode) (Nm : Numbers) (D : Difflib) (L : Nltk) (Sk : Sklearn) (H : Host)
    (rt : Retriever) (user_input : str) (top_k : Z) :
  corpus_branch rt user_input ->
  exists answers,
    get_answer rt user_input top_k = Returns answers /\
    forall text score, In (text, score) answers ->
      In text generic_fallback \/ exists e, In e (qa_list rt) /\ text = assistant e.
Proof.
  intros (Hb & Hw & Hd & m & g & Hdet & Hcase).
  unfold get_answer. rewrite Hb. cbn [negb]. rewrite Hdet. cbn [bind].
  rewrite Hw, Hd.
  destruct m as [city_name|].
  - eexists. split; [reflexivity|].
    apply (corpus_reply_texts rt top_k), _answer_moroccan_city_query_reply.
  - destruct Hcase as [Hm|[-> Hf]]; [congruence|]. rewrite Hf.
    destruct (is_morocco_mentioned user_input).
    + eexists. split; [reflexivity|].
      apply (corpus_reply_texts rt top_k), _answer_general_morocco_query_reply.
    + eexists. split; [reflexivity|].
      apply (corpus_reply_texts rt 1), _answer_generic_query_reply.
Qed.

(** X18.  Outside the branches that consult the corpus, the reply depends
    neither on the corpus nor on [top_k]: two retrievers with the same city
    detector give the same result for a blank input, a weather or distance
    request, and an input naming a foreign city or a foreign country. *)
Theorem reply_independent_of_corpus
    (U : Unicode) (Nm : Numbers) (D : Difflib) (L : Nltk) (Sk : Sklearn) (H : Host)
    (rt1 rt2 : Retriever) (user_input : str) (top_k1 top_k2 : Z) :
  city_detector rt1 = city_detector rt2 ->
  ~ corpus_branch rt1 user_input ->
  get_answer rt1 user_input top_k1 = get_answer rt2 user_input top_k2.
Proof.
  intros Hdet Hn.
  assert (Hdist : answer_distance rt1 user_input = answer_distance rt2 user_input).
  { unfold answer_distance, _extract_cities_from_text. now rewrite Hdet. }
  unfold get_answer. rewrite <- Hdet.
  destruct (nonempty (strip user_input)) eqn:Eb; cbn [negb]; [|reflexivity].
  destruct (detect_city (city_detector rt1) user_input) as [[m g]|e] eqn:Ed;
    cbn [bind]; [|reflexivity].
  destruct (is_intent (_detect_intent user_input) "ask_weather") eqn:Ew; [reflexivity|].
  destruct (is_intent (_detect_intent user_input) "ask_distance") eqn:Edi;
    [now rewrite Hdist|].
  assert (Hcorpus : (m <> None \/
                     (g = None /\
                      foreign_country (detect_country (city_detector rt1) user_input) = None)) ->
                    False).
  { intro Hc. apply Hn. unfold corpus_branch. repeat split; auto. exists m, g. auto. }
  destruct m as [city_name|]; [exfalso; apply Hcorpus; left; discriminate|].
  destruct g as [record|]; [reflexivity|].
  destruct (foreign_country _) as [country|] eqn:Ef; [reflexivity|].
  exfalso. apply Hcorpus. right. auto.
Qed.

(* ================================================================== *)
(** * The two front ends *)
(* ================================================================== *)

(** X20.  The web endpoint never sends its apology for an empty list of
    answers: [get_answer] is asked for one answer and, when it returns,
    returns exactly one.  A reply with status 200 is therefore the text of
    that answer or, when its score is under 0.2, the apology for a low
    confidence, and the retriever is then built; status 500 is sent only
    when the retriever cannot be built or [get_answer] raises. *)
Theorem chat_never_without_answer
    (U : Unicode) (Nm : Numbers) (D : Difflib) (L : Nltk) (Sk : Sklearn) (H : Host)
    (boot : outcome Retriever) (retriever : option Retriever)
    (request : chatbot_api.ChatRequest) :
  let '(reply, after) := chatbot_api.chat boot retriever request in
  reply <> chatbot_api.NoInformation /\
  (chatbot_api.status reply = 200%Z ->
   exists rt message text score,
     after = Some rt /\ request = chatbot_api.Message (Some message) /\
     get_answer rt (strip message) 1 = Returns [(text, score)] /\
     reply = if Qlt_le_dec score (2 # 10)
             then chatbot_api.OutsideKnowledgeBase
             else chatbot_api.BestAnswer text) /\
  (chatbot_api.status reply = 500%Z ->
   (reply = chatbot_api.NotInitialized /\ after = None) \/
   exists rt message e,
     after = Some rt /\ request = chatbot_api.Message message /\
     get_answer rt (strip (match message with Some t => t | None => [] end)) 1 = Raises e /\
     reply = chatbot_api.AnswerError e).
Proof.
  unfold chatbot_api.chat.
  destruct request as [| |message]; try (repeat split; discriminate).
  destruct (nonempty (strip match message with Some t => t | None => [] end)) eqn:Ene;
    cbn [negb]; [|repeat split; discriminate].
  destruct (chatbot_api.init_retriever boot retriever) as [rt|];
    [|repeat split; try discriminate; auto].
  destruct (get_answer rt (strip match message with Some t => t | None => [] end) 1)
    as [answers|e] eqn:Eg.
  - destruct (get_answer_default rt _ answers Eg) as (text & score & ->).
    unfold chatbot_api.confidence_threshold.
    split; [destruct (Qlt_le_dec score (2 # 10)); discriminate|]. split.
    + intros _. destruct message as [message|]; [|discriminate Ene].
      exists rt, message, text, score. auto.
    + destruct (Qlt_le_dec score (2 # 10)); discriminate.
  - split; [discriminate|]. split; [discriminate|].
    intros _. right. exists rt, message, e. auto.
Qed.

(** X21.  The loop of the command line never stops on an [IndexError]:
    [get_answer] is asked for one answer and, when it returns, returns
    exactly one.  The loop prints an answer or the apology for every line
    until a line says [quit] or [exit], until [get_answer] raises on a
    line, or until it has read its whole input. *)
Theorem main_never_index_error
    (U : Unicode) (Nm : Numbers) (D : Difflib) (L : Nltk) (Sk : Sklearn) (H : Host)
    (rt : Retriever) (lines : list str) :
  exists body last,
    cli_chatbot.main rt lines = body ++ [last] /\
    Forall (fun t => t = cli_chatbot.Apologizes \/
                     exists best_answer, t = cli_chatbot.Says best_answer) body /\
    ((last = cli_chatbot.EndOfInput /\ List.length body = List.length lines) \/
     exists line,
       nth_error lines (List.length body) = Some line /\
       cli_chatbot.turn rt line = last /\
       (last = cli_chatbot.Goodbye \/
        exists e, last = cli_chatbot.Escapes e /\
                  get_answer rt (strip line) 1 = Raises e)).
Proof.
  induction lines as [|line rest IH].
  - exists [], cli_chatbot.EndOfInput. simpl. auto.
  - destruct IH as (body & last & Hm & Hbody & Hlast).
    cbn [cli_chatbot.main].
    assert (Hturn : cli_chatbot.turn rt line = cli_chatbot.Goodbye \/
                    cli_chatbot.turn rt line = cli_chatbot.Apologizes \/
                    (exists best, cli_chatbot.turn rt line = cli_chatbot.Says best) \/
                    (exists e, cli_chatbot.turn rt line = cli_chatbot.Escapes e /\
                               get_answer rt (strip line) 1 = Raises e)).
    { unfold cli_chatbot.turn. destruct (str_in _ _); [now left|].
      destruct (get_answer rt (strip line) 1) as [answers|e] eqn:Eg.
      - destruct (get_answer_default rt _ answers Eg) as (text & score & ->).
        destruct (Qlt_le_dec score cli_chatbot.CONFIDENCE_THRESHOLD); eauto.
      - right. right. right. eauto. }
    destruct Hturn as [Ht|[Ht|[[best Ht]|(e & Ht & He)]]]; rewrite Ht.
    + exists [], cli_chatbot.Goodbye. simpl. split; auto. split; auto.
      right. exists line. auto.
    + exists (cli_chatbot.Apologizes :: body), last. rewrite Hm. simpl.
      split; auto. split; [constructor; auto|].
      destruct Hlast as [[-> Hl]|(l & Hl)]; [left; auto | right; exists l; auto].
    + exists (cli_chatbot.Says best :: body), last. rewrite Hm. simpl.
      split; auto. split; [constructor; eauto|].
      destruct Hlast as [[-> Hl]|(l & Hl)]; [left; auto | right; exists l; auto].
    + exists [], (cli_chatbot.Escapes e). simpl. split; auto. split; auto.
      right. exists line. split; auto. split; auto. right. eauto.
Qed.

(** X22.  Neither front end shows the prompt [get_answer] has for a blank
    input.  For a line of white space only, the endpoint answers that the
    message cannot be empty, before it builds or asks the retriever; the
    command line asks the retriever, gets the prompt with score 0.0, which
    is under its threshold, and prints the apology instead. *)
Theorem blank_line_in_front_ends
    (U : Unicode) (Nm : Numbers) (D : Difflib) (L : Nltk) (Sk : Sklearn) (H : Host)
    (boot : outcome Retriever) (retriever : option Retriever) (rt : Retriever)
    (line : str) :
  UnicodeAscii U ->
  forallb is_space line = true ->
  chatbot_api.chat boot retriever (chatbot_api.Message (Some line))
  = (chatbot_api.EmptyMessage, retriever) /\
  get_answer rt (strip line) 1 = Returns [(lit "Please ask a question.", 0%Q)] /\
  cli_chatbot.turn rt line = cli_chatbot.Apologizes.
Proof.
  intros HU Hblank. pose proof (strip_blank line Hblank) as Hs.
  assert (Hg : get_answer rt [] 1 = Returns [(lit "Please ask a question.", 0%Q)])
    by reflexivity.
  split; [|split].
  - unfold chatbot_api.chat. now rewrite Hs.
  - now rewrite Hs.
  - unfold cli_chatbot.turn. rewrite Hs, Hg.
    rewrite (@py_lower_ascii U HU []) by reflexivity.
    cbn [List.map]. 
    assert (Hq : str_in [] [lit "quit"; lit "exit"] = false) by reflexivity.
    rewrite Hq.
    destruct (Qlt_le_dec 0 cli_chatbot.CONFIDENCE_THRESHOLD) as [_|Hle]; [reflexivity|].
    exfalso. unfold cli_chatbot.CONFIDENCE_THRESHOLD, Qle in Hle. simpl in Hle. lia.
Qed.

(* ================================================================== *)
(** * Facts about a foreign city *)
(* ================================================================== *)

Section FormatterFacts.

Import world_city_formatter.

Context {U : Unicode} {Nm : Numbers} {H : Host}.

Variable format_thousands : Z -> str.
Variable format_2f : R -> str.

Lemma population_text_returns city_data z :
  _get_population city_data = Returns z ->
  exists text, population_text format_thousands (row_population city_data) = Returns text.
Proof.
  unfold _get_population, population_text.
  destruct (int_of_float_text (row_population city_data)); intro Hp;
    try discriminate; eauto.
Qed.

Lemma population_text_raises city_data e :
  population_text format_thousands (row_population city_data) = Raises e <->
  _get_population city_data = Raises e.
Proof.
  unfold _get_population, population_text.
  destruct (int_of_float_text (row_population city_data)); split; intro Hp;
    try discriminate Hp; injection Hp as <-; reflexivity.
Qed.

Lemma facts_of_length city_data population :
  (List.length (facts_of format_2f city_data population) <= 5)%nat.
Proof.
  unfold facts_of. rewrite !length_app.
  repeat match goal with
         | |- context [if ?b then _ else _] => destruct b
         | |- context [match ?o with Some _ => _ | None => _ end] => destruct o
         end; simpl; lia.
Qed.

End FormatterFacts.

(** X23.  [format_world_city_response] lets an [OverflowError] escape
    exactly when [_get_population] does for the same record, that is when
    the population is the text of an infinity.  A record that
    [detect_global_city] returns has passed [_get_population], so the text
    about a foreign city that [get_answer] asks for is always produced. *)
Theorem world_city_response_returns
    (U : Unicode) (Nm : Numbers) (H : Host)
    (format_thousands : Z -> str) (format_2f : R -> str)
    (det : CityDetector) (user_input : str) (record : CityData) :
  (forall city_data e,
      world_city_formatter.format_world_city_response format_thousands format_2f city_data
      = Raises e <-> _get_population city_data = Raises e) /\
  (detect_global_city det user_input = Returns (Some record) ->
   exists text,
     world_city_formatter.format_world_city_response format_thousands format_2f record
     = Returns text).
Proof.
  split.
  - intros city_data e. unfold world_city_formatter.format_world_city_response.
    rewrite <- population_text_raises with (format_thousands := format_thousands).
    destruct (world_city_formatter.population_text _ _); simpl; split; intro Hr;
      try discriminate; auto.
  - unfold detect_global_city.
    destruct (global_candidates det (split user_input)) as [l|] eqn:El; [|discriminate].
    cbn [bind]. intros [= Hh].
    destruct (hd_error (sorted_desc snd Z.ltb l)) as [[r p]|] eqn:Es; [|discriminate].
    injection Hh as ->.
    apply sorted_by_population_head in Es. destruct Es as [Hin _].
    apply (global_candidates_spec det (split user_input) l El) in Hin.
    destruct Hin as (word & _ & _ & _ & Hp & _).
    destruct (population_text_returns format_thousands record p Hp) as [text Ht].
    unfold world_city_formatter.format_world_city_response. rewrite Ht. simpl. eauto.
Qed.

(** X24.  The formatter never collects more than five facts about a city,
    one for each of country, population, region, capital and coordinates,
    so the cut [facts[:5]] keeps them all. *)
Theorem world_city_facts_all_kept
    (U : Unicode) (Nm : Numbers) (H : Host) (format_2f : R -> str)
    (city_data : CityData) (population : str) :
  (List.length (world_city_formatter.facts_of format_2f city_data population) <= 5)%nat /\
  firstn 5 (world_city_formatter.facts_of format_2f city_data population)
  = world_city_formatter.facts_of format_2f city_data population.
Proof.
  pose proof (facts_of_length format_2f city_data population) as Hl.
  split; [exact Hl | now apply firstn_all2].
Qed.

(* ================================================================== *)
(** * The countries of the stored cities *)
(* ================================================================== *)

Section StoredCountriesFacts.

Context {U : Unicode} {Nm : Numbers} {D : Difflib}.

Lemma _load_global_cities_well_keyed rows :
  well_keyed rows (fst (_load_global_cities rows)).
Proof.
  unfold _load_global_cities.
  pose proof (load_rows_well_keyed [] {| ld_cities := []; ld_countries := [] |} rows) as Hl.
  simpl in Hl.
  destruct (load_rows _ rows) as [st [e|]]; simpl in *; apply Hl;
    (split; [constructor | intros k v []]).
Qed.

Lemma fold_countries_in (records : list CityData) acc c :
  In c (fold_left
          (fun countries city_data =>
             match strip (row_country city_data) with
             | [] => countries
             | country => set_add (strip (py_lower country)) countries
             end)
          records acc) ->
  In c acc \/
  exists v, In v records /\ strip (row_country v) <> [] /\
            c = strip (py_lower (strip (row_country v))).
Proof.
  revert acc. induction records as [|v rest IH]; intros acc; simpl; auto.
  intro Hin. apply IH in Hin. destruct Hin as [Hin|(w & Hw & Hrest)].
  - destruct (strip (row_country v)) as [|c0 cs] eqn:Ec; auto.
    apply set_add_in in Hin. destruct Hin as [->|Hin]; auto.
    right. exists v. rewrite Ec. split; [now left|]. split; [discriminate | reflexivity].
  - right. exists w. split; [now right | exact Hrest].
Qed.

End StoredCountriesFacts.

(** X25.  After a complete load, every country that
    [_extract_countries_from_cities] finds among the stored cities is in the
    set of countries the loader extracted; the set of the loader can hold
    more, from rows without a city name or rows that a larger namesake
    replaced. *)
Theorem stored_countries_among_extracted
    (U : Unicode) (Nm : Numbers) (D : Difflib)
    (rows : list CityData) (cities : dict CityData) (extracted : list str) (c : str) :
  _load_global_cities rows = (cities, Some extracted) ->
  In c (_extract_countries_from_cities (CityDetector_init rows)) ->
  In c (countries (CityDetector_init rows)).
Proof.
  intros Hload Hin.
  destruct (CityDetector_init_fields rows) as (_ & _ & Hg & Hc).
  rewrite Hc. unfold _extract_countries_from_cities in Hin. rewrite Hg in Hin.
  apply fold_countries_in in Hin. destruct Hin as [[]|(v & Hv & Hne & ->)].
  apply in_map_iff in Hv. destruct Hv as ([k v'] & Hs & Hkv). simpl in Hs. subst v'.
  destruct (_load_global_cities_well_keyed rows) as [_ Hw].
  destruct (Hw k v Hkv) as (r & Hr & _ & _ & ->).
  revert Hne. simpl row_country. intro Hne.
  unfold _load_global_cities in *.
  destruct (load_rows {| ld_cities := []; ld_countries := [] |} rows) as [st [e|]] eqn:Erun;
    [discriminate|].
  simpl. apply (load_rows_countries _ rows _ Erun). right.
  exists r. repeat split; auto.
Qed.

(* ================================================================== *)
(** * The earlier city detector *)
(* ================================================================== *)

Section EarlierDetectorFacts.

Context {U : Unicode} {D : Difflib}.

Lemma skipn_forallb {A} (P : A -> bool) n s :
  forallb P s = true -> forallb P (skipn n s) = true.
Proof.
  revert s. induction n as [|n IH]; intros s; simpl; auto.
  destruct s as [|c r]; simpl; auto.
  rewrite andb_true_iff. intros [_ Hr]. now apply IH.
Qed.

Lemma no_possessive_after rest :
  forallb norm_char rest = true -> starts_with [39%N; 115%N] rest = false.
Proof.
  destruct rest as [|c r]; [reflexivity|].
  cbn [forallb starts_with]. rewrite andb_true_iff. intros [Hc _].
  destruct (norm_char_cases c Hc) as (_ & _ & _ & Hq).
  assert (Hn : N.eqb 39 c = false) by (apply N.eqb_neq; congruence).
  now rewrite Hn.
Qed.

Lemma possessive_search_from_plain prev pat text :
  forallb norm_char text = true ->
  possessive_search_from prev pat text = word_search_from prev pat text.
Proof.
  revert prev. induction text as [|c r IH]; intros prev Hn.
  - cbn [possessive_search_from word_search_from].
    rewrite (no_possessive_after (skipn (List.length pat) [])) by now apply skipn_forallb.
    reflexivity.
  - cbn [possessive_search_from word_search_from].
    rewrite (no_possessive_after (skipn (List.length pat) (c :: r)))
      by now apply skipn_forallb.
    simpl in Hn. apply andb_true_iff in Hn. destruct Hn as [_ Hr].
    rewrite (IH (Some c) Hr). reflexivity.
Qed.

Lemma normalize_text_ascii_text (HU : UnicodeAscii U) s :
  forallb is_ascii s = true ->
  forallb is_ascii (List.map ascii_lower s) = true ->
  normalize_text s
  = strip (collapse_ws
             (List.filter keep_char
                (sub_possessive (List.filter is_ascii (List.map ascii_lower s))))).
Proof.
  intros Ha Hl. unfold normalize_text, encode_ascii_ignore.
  rewrite (@py_lower_ascii U HU s Ha), (@nfkd_ascii U HU _ Hl). reflexivity.
Qed.

Lemma map_normalize_text_ascii (HU : UnicodeAscii U) (l : list str) :
  forallb (fun s => forallb is_ascii s && forallb is_ascii (List.map ascii_lower s))%bool l
  = true ->
  List.map normalize_text l
  = List.map (fun s => strip (collapse_ws
                                (List.filter keep_char
                                   (sub_possessive
                                      (List.filter is_ascii (List.map ascii_lower s)))))) l.
Proof.
  intro Hall. apply map_ext_in. intros s Hs.
  rewrite forallb_forall in Hall. specialize (Hall s Hs).
  apply andb_true_iff in Hall. destruct Hall as [Ha Hl].
  now apply normalize_text_ascii_text.
Qed.

Lemma cities_norm_ascii (HU : UnicodeAscii U) : cities_norm = the_moroccan_cities.
Proof.
  unfold cities_norm. rewrite (map_normalize_text_ascii HU) by (vm_compute; reflexivity).
  vm_compute. reflexivity.
Qed.

Lemma city_abbreviations_ascii (HU : UnicodeAscii U) kv :
  In kv city_abbreviations -> In (normalize_text (snd kv)) the_moroccan_cities.
Proof.
  intro Hin.
  assert (Hasc : forallb (fun kv : str * str =>
                            forallb is_ascii (snd kv)
                            && forallb is_ascii (List.map ascii_lower (snd kv)))%bool
                   city_abbreviations = true) by (vm_compute; reflexivity).
  assert (Hall : forallb (fun kv : str * str =>
                            str_in
                              (strip (collapse_ws
                                        (List.filter keep_char
                                           (sub_possessive
                                              (List.filter is_ascii
                                                 (List.map ascii_lower (snd kv)))))))
                              the_moroccan_cities)
                   city_abbreviations = true) by (vm_compute; reflexivity).
  rewrite forallb_forall in Hasc, Hall.
  specialize (Hasc kv Hin). specialize (Hall kv Hin).
  apply andb_true_iff in Hasc. destruct Hasc as [Ha Hl].
  rewrite (normalize_text_ascii_text HU (snd kv) Ha Hl).
  now apply str_in_true.
Qed.

End EarlierDetectorFacts.

(** X26.  In [_extract_city] the optional possessive of the city pattern
    never decides: the query has been normalized and holds no apostrophe,
    so for every name the pattern matches exactly when the name occurs in
    the query as a whole word. *)
Theorem possessive_group_never_matches (U : Unicode) (pat user_input : str) :
  possessive_search pat (normalize_text user_input)
  = word_search pat (normalize_text user_input).
Proof.
  unfold possessive_search, word_search.
  apply possessive_search_from_plain.
  now destruct (normalize_text_canonical user_input) as [Hc _].
Qed.

(** X27.  Where lower-casing acts on ASCII text character by character, the
    names [_extract_city] matches against are the 35 names of
    [moroccan_cities] of the city detector, and every name it returns, from
    its abbreviations, its exact search or its two fuzzy searches, is one of
    them. *)
Theorem _extract_city_known_name (U : Unicode) (D : Difflib)
    (user_input c : str) :
  UnicodeAscii U ->
  _extract_city user_input = Some c ->
  cities_norm = the_moroccan_cities /\ In c the_moroccan_cities.
Proof.
  intros HU He. pose proof (cities_norm_ascii HU) as Hc. split; [exact Hc|].
  unfold _extract_city in He. rewrite Hc in He.
  destruct (first_some _ city_abbreviations) as [full_city|] eqn:E1.
  { injection He as <-. apply first_some_in in E1. destruct E1 as (kv & Hin & Hf).
    destruct (word_search _ _); [|discriminate]. injection Hf as <-.
    now apply city_abbreviations_ascii. }
  destruct (first_some _ the_moroccan_cities) as [city_norm|] eqn:E2.
  { injection He as <-. apply first_some_in in E2. destruct E2 as (x & Hin & Hf).
    destruct (possessive_search _ _); [|discriminate]. now injection Hf as <-. }
  match type of He with
  | match ?fuzzy with Some _ => _ | None => _ end = _ =>
      destruct fuzzy as [close|] eqn:E3
  end.
  { injection He as <-. apply first_some_in in E3. destruct E3 as (w & _ & Hf).
    destruct (4 <=? List.length w)%nat; [|discriminate].
    now apply get_close_matches_in in Hf. }
  now apply get_close_matches_in in He.
Qed.

Module MoreExamples.
Import Demo.

(** Two readable rows, then a row with an infinite population. *)
Lemma loader_keeps_prefix_on_overflow_witness :
  @_load_global_cities demo_unicode demo_numbers
    ([paris_texas; paris_france] ++ atlantis :: demo_rows)
  = (fst (@_load_global_cities demo_unicode demo_numbers [paris_texas; paris_france]), None).
Proof.
  apply (@loader_keeps_prefix_on_overflow demo_unicode demo_numbers).
  - intros r [<-|[<-|[]]] _; vm_compute; discriminate.
  - vm_compute; discriminate.
  - vm_compute. intro Hn. now apply Hn.
Defined.

(** The countries of the rows of the examples. *)
Lemma loader_countries_witness :
  NoDup (lit "morocco" :: lit "united states" :: lit "france" :: lit "canada"
         :: lit "seychelles" :: lit "japan" :: nil) /\
  forall c,
    In c (lit "morocco" :: lit "united states" :: lit "france" :: lit "canada"
          :: lit "seychelles" :: lit "japan" :: nil) <->
    exists r, In r demo_rows /\ strip (row_country r) <> [] /\
              c = @country_of demo_unicode r.
Proof.
  apply (@loader_countries demo_unicode demo_numbers demo_rows
           (fst (@_load_global_cities demo_unicode demo_numbers demo_rows))).
  vm_compute. reflexivity.
Defined.

(** An abbreviation of the misspelling table. *)
Lemma detect_moroccan_city_known_name_witness :
  In (lit "casablanca") the_moroccan_cities /\ lit "casablanca" <> [] /\
  @detect_city demo_unicode demo_numbers demo_difflib
    (@CityDetector_init demo_unicode demo_numbers demo_rows) (lit "a weekend in casa")
  = Returns (Some (lit "casablanca"), None).
Proof.
  apply (@detect_moroccan_city_known_name demo_unicode demo_numbers demo_difflib
           demo_rows (lit "a weekend in casa") (lit "casablanca")).
  vm_compute. reflexivity.
Defined.

(** Two foreign cities in one sentence: the larger one is returned. *)
Lemma detect_global_city_largest_witness :
  exists population,
    @names_large_city demo_unicode demo_numbers demo_detector
      (lit "from Paris to Tokyo") (stored_record tokyo) population /\
    forall record' population',
      @names_large_city demo_unicode demo_numbers demo_detector
        (lit "from Paris to Tokyo") record' population' ->
      (population' <= population)%Z.
Proof.
  apply (@detect_global_city_largest demo_unicode demo_numbers demo_detector
           (lit "from Paris to Tokyo") (stored_record tokyo)).
  vm_compute. reflexivity.
Defined.

(** A misspelt name resolved by the fuzzy search. *)
Lemma find_city_coordinates_from_gazetteer_witness :
  exists r,
    resolve "Pariss" = Some r /\
    lit "Pariss" <> [] /\ rp_name r <> [] /\
    exists k v,
      In (k, v) (global_cities demo_detector) /\
      rp_name r = str_or (row_city v) (str_or (row_city_ascii v) (lit "Pariss")) /\
      rp_country r = row_country v /\
      @parse_coordinate demo_numbers (row_lat v) = Some (rp_lat r) /\
      @parse_coordinate demo_numbers (row_lng v) = Some (rp_lng r).
Proof.
  destruct (resolve "Pariss") as [r|] eqn:Er.
  - exists r. split; [reflexivity|].
    exact (@find_city_coordinates_from_gazetteer demo_unicode demo_numbers demo_difflib
             demo_detector (lit "Pariss") r Er).
  - exfalso. revert Er. unfold resolve, find_city_coordinates.
    vm_compute. discriminate.
Defined.

Lemma find_city_coordinates_prefers_major_witness :
  exists r c,
    resolve "Pariss" = Some r /\
    In c (@resolver_candidates demo_unicode demo_numbers demo_difflib
            demo_detector (lit "Pariss")) /\
    @resolved demo_numbers (lit "Pariss") (snd (fst (fst c))) (cand_score c) = Some r /\
    forall c',
      In c' (@resolver_candidates demo_unicode demo_numbers demo_difflib
               demo_detector (lit "Pariss")) ->
      (is_major c' -> is_major c) /\
      ((is_major c' <-> is_major c) ->
       key_le (cand_score c', cand_pop c') (cand_score c, cand_pop c)).
Proof.
  destruct (resolve "Pariss") as [r|] eqn:Er.
  - destruct (@find_city_coordinates_prefers_major demo_unicode demo_numbers demo_difflib
                demo_detector (lit "Pariss") r) as (c & Hc).
    + vm_compute. reflexivity.
    + exact Er.
    + exists r, c. split; [reflexivity | exact Hc].
  - exfalso. revert Er. unfold resolve, find_city_coordinates.
    vm_compute. discriminate.
Defined.

(** Two cities named in a distance request. *)
Lemma extracted_places_distinct_witness :
  let found := @_extract_cities_from_text demo_unicode demo_numbers demo_difflib demo_host
                 demo_retriever (lit "from Rabat to Casablanca") 2 in
  (List.length found <= 2)%nat /\
  NoDup (List.map (fun p => @normalize_text demo_unicode (rp_name p)) found) /\
  forall p, In p found ->
    (80 # 100 <= rp_score p)%Q /\
    exists name, resolve_str name = Some p.
Proof.
  apply (@extracted_places_distinct demo_unicode demo_numbers demo_difflib demo_host
           demo_retriever (lit "from Rabat to Casablanca") 2).
  lia.
Defined.

Lemma _detect_intent_names_category_witness :
  In (lit "greeting") (List.map fst intent_keywords) /\ lit "greeting" <> [].
Proof.
  apply (@_detect_intent_names_category demo_unicode demo_difflib demo_nltk
           (lit "hello there") (lit "greeting")).
  vm_compute. reflexivity.
Defined.

(** Three answers asked for, on the retriever of the examples. *)
Lemma get_answer_one_to_top_k_witness :
  exists answers,
    answer "what can I do in Agadir" 3 = Returns answers /\
    (1 <= List.length answers)%nat /\
    (Z.of_nat (List.length answers) <= 3)%Z /\
    (3 = 1 -> exists text score, answers = [(text, score)])%Z.
Proof.
  destruct (answer "what can I do in Agadir" 3) as [answers|e] eqn:Ea.
  - exists answers. split; [reflexivity|].
    apply (@get_answer_one_to_top_k demo_unicode demo_numbers demo_difflib demo_nltk
             demo_sklearn demo_host demo_retriever (lit "what can I do in Agadir") 3 answers).
    + lia.
    + exact Ea.
  - exfalso. revert Ea. vm_compute. discriminate.
Defined.

(** A question about a Moroccan city. *)
Lemma corpus_branch_texts_from_corpus_witness :
  exists answers,
    answer "where is the BEACH in agadir" 3 = Returns answers /\
    forall text score, In (text, score) answers ->
      In text generic_fallback \/
      exists e, In e (qa_list demo_retriever) /\ text = assistant e.
Proof.
  apply (@corpus_branch_texts_from_corpus demo_unicode demo_numbers demo_difflib demo_nltk
           demo_sklearn demo_host demo_retriever (lit "where is the BEACH in agadir") 3).
  split; [vm_compute; reflexivity|].
  split; [vm_compute; reflexivity|].
  split; [vm_compute; reflexivity|].
  exists (Some (lit "agadir")), None.
  split; [vm_compute; reflexivity|]. left. discriminate.
Defined.

(** A weather request, with the corpus of the examples and with none. *)
Lemma reply_independent_of_corpus_witness :
  answer "weather in Rabat" 1
  = @get_answer demo_unicode demo_numbers demo_difflib demo_nltk demo_sklearn demo_host
      bare_retriever (lit "weather in Rabat") 5.
Proof.
  apply (@reply_independent_of_corpus demo_unicode demo_numbers demo_difflib demo_nltk
           demo_sklearn demo_host demo_retriever bare_retriever (lit "weather in Rabat") 1 5).
  - reflexivity.
  - intros (_ & Hw & _). vm_compute in Hw. discriminate.
Defined.

(** A line of two blanks and a tab. *)
Lemma blank_line_in_front_ends_witness :
  @chatbot_api.chat demo_unicode demo_numbers demo_difflib demo_nltk demo_sklearn demo_host
    (Raises ValueError) None (chatbot_api.Message (Some [32; 32; 9]%N))
  = (chatbot_api.EmptyMessage, None) /\
  answer_str (strip [32; 32; 9]%N) 1 = Returns [(lit "Please ask a question.", 0%Q)] /\
  @cli_chatbot.turn demo_unicode demo_numbers demo_difflib demo_nltk demo_sklearn demo_host
    demo_retriever [32; 32; 9]%N
  = cli_chatbot.Apologizes.
Proof.
  apply (@blank_line_in_front_ends demo_unicode demo_numbers demo_difflib demo_nltk
           demo_sklearn demo_host (Raises ValueError) None demo_retriever [32; 32; 9]%N).
  - apply Examples.demo_unicode_ascii.
  - vm_compute. reflexivity.
Defined.

(** The record of Tokyo, found in a sentence and handed to the formatter. *)
Lemma world_city_response_returns_witness :
  exists text,
    @world_city_formatter.format_world_city_response demo_unicode demo_numbers demo_host
      demo_thousands demo_2f (stored_record tokyo) = Returns text.
Proof.
  apply (proj2 (@world_city_response_returns demo_unicode demo_numbers demo_host
                  demo_thousands demo_2f demo_detector (lit "flights to Tokyo")
                  (stored_record tokyo))).
  vm_compute. reflexivity.
Defined.

(** The countries of the cities stored from the rows of the examples. *)
Lemma stored_countries_among_extracted_witness :
  In (lit "japan") (countries (@CityDetector_init demo_unicode demo_numbers demo_rows)).
Proof.
  apply (@stored_countries_among_extracted demo_unicode demo_numbers demo_difflib demo_rows
           (fst (@_load_global_cities demo_unicode demo_numbers demo_rows))
           (lit "morocco" :: lit "united states" :: lit "france" :: lit "canada"
            :: lit "seychelles" :: lit "japan" :: nil)
           (lit "japan")).
  - vm_compute. reflexivity.
  - vm_compute. tauto.
Defined.

(** An abbreviation of the earlier detector. *)
Lemma _extract_city_known_name_witness :
  @cities_norm demo_unicode = the_moroccan_cities /\
  In (lit "casablanca") the_moroccan_cities.
Proof.
  apply (@_extract_city_known_name demo_unicode demo_difflib
           (lit "a weekend in Casa") (lit "casablanca")).
  - apply Examples.demo_unicode_ascii.
  - vm_compute. reflexivity.
Defined.

End MoreExamples.
